(** * Voice-effects pipeline: a shallow embedding and its properties

    The development follows the Python sources
      - [backend/app/services/voice_effects.py]   (class [VoiceEffectsProcessor])
      - [backend/app/api/voice_effects.py]        (endpoint [apply_voice_effects])
      - [backend/app/utils/audio_processing.py]   (class [AudioProcessor])
      - [backend/app/utils/audio_processing_windows.py]
                                                  (class [WindowsAudioProcessor])

    Conventions of the embedding.
      - A one-dimensional numpy array of samples is a [list R]: arithmetic on
        samples is exact real arithmetic, the last-bit rounding of a sample is
        not part of the model.
      - Where a float fixes a count or an index, its rounding is modelled: a
        product handed to [int()] is the binary64 product [fmul], and the
        decoded integers pass through [float32] as [astype(np.float32)] has
        them.  Overflow to infinity is not modelled.
      - [np.round] is applied to exact samples: on a tie the float of the
        code may lie on either side, so the statements on quantized samples
        give the grid and the distance to it, not the side of a tie.
      - A Python exception is a value [Exception msg context], the message
        and the [__context__]; a call that may raise returns a [result];
        [try: ... except Exception: ...] is a match on it.
      - Logging has no effect on any returned value and is left out.
      - The [effects] dictionary is a [gmap string pyval].
      - Calls into librosa, pydub, soundfile and the file system are the
        fields of the class [Libraries]. *)

From Stdlib Require Import Reals Lra Lia ZArith List String.
From stdpp Require Import gmap strings.
Import ListNotations.
Open Scope R_scope.

(** ** Exceptions and results *)

(** [context] is [__context__]: the exception that was being handled when
    this one was raised. *)
#[local] Unset Elimination Schemes.
Inductive exn : Type := Exception (msg : string) (context : option exn).
#[local] Set Elimination Schemes.

Definition str (e : exn) : string := let 'Exception m _ := e in m.

(** The exception [e] once it is raised while [handled] is being handled:
    Python sets [__context__] as the exception is raised, so [handled] comes
    at the end of the chain of contexts that [e] has of its own. *)
Fixpoint raised_during (handled e : exn) : exn :=
  match e with
  | Exception m None => Exception m (Some handled)
  | Exception m (Some c) => Exception m (Some (raised_during handled c))
  end.

Inductive result (A : Type) : Type :=
| Ok (a : A)
| Raise (e : exn).
Arguments Ok {A} a.
Arguments Raise {A} e.

Definition bind {A B : Type} (r : result A) (k : A -> result B) : result B :=
  match r with
  | Ok a => k a
  | Raise e => Raise e
  end.

(** [try: return body  except Exception: return fallback] *)
Definition try_except {A : Type} (body : result A) (fallback : A) : A :=
  match body with
  | Ok a => a
  | Raise _ => fallback
  end.

(** ** Python and numpy primitives used by the sources *)

(** [int(x)] on a float: truncation toward zero. *)
Definition py_int (x : R) : Z :=
  if Rle_dec 0 x then Zfloor x else (- Zfloor (- x))%Z.

(** [round(x)] and [np.round(x)]: nearest integer, ties to the even one. *)
Definition py_round (x : R) : Z :=
  let f := Zfloor x in
  if Rlt_dec (x - IZR f) (1 / 2) then f
  else if Rlt_dec (1 / 2) (x - IZR f) then (f + 1)%Z
  else if Z.even f then f else (f + 1)%Z.

Definition np_round (a : list R) : list R := map (fun x => IZR (py_round x)) a.

(** The binade of [x]: the least [e'] from [e] on with [|x| < 2^(e'+1)], the
    search ending after [n] steps. *)
Fixpoint binade (n : nat) (e : Z) (x : R) : Z :=
  match n with
  | O => e
  | S n' => if Rlt_dec (Rabs x) (powerRZ 2 (e + 1)) then e else binade n' (e + 1) x
  end.

(** Rounding to the nearest IEEE float with [p] bits of precision and least
    normal exponent [emin], ties to the even significand; below [2^emin] the
    grid is that of the subnormals. *)
Definition round_float (p emin : Z) (binades : nat) (x : R) : R :=
  let e := binade binades emin x in
  IZR (py_round (x * powerRZ 2 (p - 1 - e))) * powerRZ 2 (e - (p - 1)).

(** The Python float (binary64) nearest to [x]: what a literal, a form field
    or an [int] becomes when it enters float arithmetic. *)
Definition float64 : R -> R := round_float 53 (-1022) 2045.

(** [np.float32(x)], [a.astype(np.float32)] *)
Definition float32 : R -> R := round_float 24 (-126) 253.

(** [x * y] on Python floats. *)
Definition fmul (x y : R) : R := float64 (float64 x * float64 y).

(** [np.sign] *)
Definition np_sign (x : R) : R :=
  if Rlt_dec x 0 then -1 else if Rlt_dec 0 x then 1 else 0.

(** A slice bound [i] of Python, resolved against a sequence of length [n]:
    negative bounds count from the end, and the result is clipped to [0..n]. *)
Definition slice_bound (n : nat) (i : Z) : nat :=
  if (i <? 0)%Z then Z.to_nat (Z.max 0 (i + Z.of_nat n))
  else Nat.min n (Z.to_nat i).

(** [a[i:]] *)
Definition slice_from {A : Type} (a : list A) (i : Z) : list A :=
  skipn (slice_bound (length a) i) a.

(** [a[:j]] *)
Definition slice_upto {A : Type} (a : list A) (j : Z) : list A :=
  firstn (slice_bound (length a) j) a.

(** [dst[i:] = src] on numpy arrays: [src] must have the length of the slice,
    or length one (it is then broadcast); otherwise numpy raises ValueError. *)
Definition set_slice_from (dst : list R) (i : Z) (src : list R) : result (list R) :=
  let k := slice_bound (length dst) i in
  let m := (length dst - k)%nat in
  if Nat.eqb (length src) m then Ok (firstn k dst ++ src)
  else match src with
       | [x] => Ok (firstn k dst ++ repeat x m)
       | _ => Raise (Exception "could not broadcast input array" None)
       end.

(** [np.zeros_like(a)] *)
Definition zeros_like (a : list R) : list R := repeat 0 (length a).

(** [a + b] for two arrays of one shape. *)
Definition np_add (a b : list R) : list R := zip_with Rplus a b.

(** [a * c] for an array and a scalar. *)
Definition np_scale (a : list R) (c : R) : list R := map (fun x => x * c) a.

(** [np.max(a)]: raises ValueError on an empty array. *)
Definition np_max (a : list R) : result R :=
  match a with
  | [] => Raise (Exception "zero-size array to reduction operation maximum which has no identity" None)
  | x :: xs => Ok (fold_left Rmax xs x)
  end.

(** [np.abs(a)] *)
Definition np_abs (a : list R) : list R := map Rabs a.

(** ** Values of the [effects] dictionary *)

Inductive pyval : Type :=
| PyFloat (x : R)
| PyBool (b : bool).

(** The number a value stands for in arithmetic ([True] is 1, [False] is 0). *)
Definition py_float (v : pyval) : R :=
  match v with
  | PyFloat x => x
  | PyBool true => 1
  | PyBool false => 0
  end.

(** Truth value of [v] in [if v]. *)
Definition truthy (v : pyval) : bool :=
  match v with
  | PyFloat x => if Req_dec_T x 0 then false else true
  | PyBool b => b
  end.

(** [v != c] for a numeric constant [c]. *)
Definition py_ne (v : pyval) (c : R) : bool :=
  if Req_dec_T (py_float v) c then false else true.

(** [d.get(k, default)] *)
Definition dict_get (d : gmap string pyval) (k : string) (default : pyval) : pyval :=
  match d !! k with
  | Some v => v
  | None => default
  end.

(** [k in d and test(d[k])] *)
Definition has_and (d : gmap string pyval) (k : string) (test : pyval -> bool) : bool :=
  match d !! k with
  | Some v => test v
  | None => false
  end.

(** ** pydub's [AudioSegment], as far as the sources read it *)

Record AudioSegment : Type := mkAudioSegment {
  channels : Z;
  sample_width : Z;
  frame_rate : Z;
  get_array_of_samples : list Z
}.

(** ** External collaborators *)

Class Libraries : Type := {
  (** [librosa.load(path, sr=..., mono=...)]; [sr=None] keeps the native rate *)
  librosa_load : string -> option Z -> bool -> result (list R * Z);
  (** [AudioSegment.from_file(path)] *)
  AudioSegment_from_file : string -> result AudioSegment;
  (** [segment.set_channels(n)] *)
  set_channels : AudioSegment -> Z -> result AudioSegment;
  (** [librosa.effects.pitch_shift(audio, sr=sr, n_steps=n_steps)] *)
  librosa_pitch_shift : list R -> Z -> R -> result (list R);
  (** [librosa.effects.time_stretch(audio, rate=rate)] *)
  librosa_time_stretch : list R -> R -> result (list R);
  (** [librosa.resample(audio, orig_sr=.., target_sr=..)] *)
  librosa_resample : list R -> Z -> Z -> result (list R);
  (** writing an array to a fresh temporary file, giving its path *)
  save_file : list R -> Z -> string -> result string;
  (** [os.path.getsize] *)
  os_path_getsize : string -> result Z;
  (** [os.path.splitext]: the base name and the extension *)
  os_path_splitext : string -> string * string;
  (** [s.lower()] *)
  str_lower : string -> string;
  (** [tempfile.NamedTemporaryFile(delete=False, suffix=suffix)]: the name
      of the file created *)
  NamedTemporaryFile : string -> result string;
  (** [temp.write(await audio_file.read())] and [temp.close()], on the
      temporary file of the given name *)
  save_upload : string -> result unit;
  (** [if os.path.exists(path): os.unlink(path)] *)
  unlink_if_exists : string -> result unit
}.

(** ** [services/voice_effects.py]: class [VoiceEffectsProcessor] *)

Module VoiceEffectsProcessor.
Section Methods.
Context `{Libraries}.

(** [_load_audio]: librosa first, pydub as the fallback; the bare [raise] of
    the inner handler re-raises the exception of the fallback, which was
    raised while the exception of librosa was being handled. *)
Definition _load_audio (file_path : string) : result (list R * Z) :=
  match librosa_load file_path None true with
  | Ok (audio_data, sample_rate) => Ok (audio_data, sample_rate)
  | Raise e1 =>
      match AudioSegment_from_file file_path with
      | Raise e => Raise (raised_during e1 e)
      | Ok audio_segment =>
          match set_channels audio_segment 1 with
          | Raise e => Raise (raised_during e1 e)
          | Ok audio_segment =>
              let samples := get_array_of_samples audio_segment in
              let samples :=
                if (sample_width audio_segment =? 2)%Z
                then map (fun s => float32 (IZR s) / 32768) samples
                else map (fun s => float32 (IZR s) / 2147483648) samples in
              Ok (samples, frame_rate audio_segment)
          end
      end
  end.

Definition _apply_pitch_shift (audio : list R) (sr : Z) (n_steps : R) : list R :=
  try_except (librosa_pitch_shift audio sr n_steps) audio.

Definition _apply_speed_change (audio : list R) (speed_factor : R) : list R :=
  try_except (librosa_time_stretch audio speed_factor) audio.

(** The number of bits kept by the robot effect. *)
Definition robot_bit_depth (intensity : R) : Z := py_int (8 + (1 - intensity) * 8).

(** The carrier of the ring modulation, one value per sample index. *)
Definition robot_carrier (len : nat) (sr : Z) (intensity : R) : list R :=
  let t := map (fun n => INR n / IZR sr) (seq 0 len) in
  let carrier_freq := 30 + intensity * 100 in
  map (fun x => sin (2 * PI * carrier_freq * x)) t.

(** The [try] block of [_apply_robot_voice]. *)
Definition robot_voice_body (audio : list R) (sr : Z) (intensity : R) : result (list R) :=
  let carrier := robot_carrier (length audio) sr intensity in
  let robot_audio := zip_with (fun a c => a * (1 + intensity * c)) audio carrier in
  let robot_audio :=
    if Rlt_dec 0.3 intensity then
      let bit_depth := robot_bit_depth intensity in
      let max_val := powerRZ 2 (bit_depth - 1) in
      map (fun x => x / max_val) (np_round (np_scale robot_audio max_val))
    else robot_audio in
  Ok robot_audio.

Definition _apply_robot_voice (audio : list R) (sr : Z) (intensity : R) : list R :=
  try_except (robot_voice_body audio sr intensity) audio.

(** The [try] block of [_apply_echo]. *)
Definition echo_body (audio : list R) (sr : Z) (delay decay : R) : result (list R) :=
  let delay_samples := py_int (fmul delay (IZR sr)) in
  let delayed_audio := zeros_like audio in
  match set_slice_from delayed_audio delay_samples
          (np_scale (slice_upto audio (- delay_samples)) decay) with
  | Raise e => Raise e
  | Ok delayed_audio =>
      let echo_audio := np_add audio delayed_audio in
      Ok echo_audio
  end.

Definition _apply_echo (audio : list R) (sr : Z) (delay decay : R) : list R :=
  try_except (echo_body audio sr delay decay) audio.

Definition reverb_delays : list R := [0.03; 0.05; 0.08; 0.13; 0.21; 0.34].

(** One round of the loop of [_apply_reverb], on tap [i] with base delay [delay]. *)
Definition reverb_tap (audio : list R) (sr : Z) (room_size damping : R)
    (reverb_audio : list R) (i : nat) (delay : R) : result (list R) :=
  let delay_samples := py_int (fmul (fmul delay (IZR sr)) room_size) in
  if (delay_samples <? Z.of_nat (length audio))%Z then
    let delayed := zeros_like audio in
    let decay_factor := (0.7 - damping * 0.4) ^ (i + 1) in
    match set_slice_from delayed delay_samples
            (np_scale (slice_upto audio (- delay_samples)) decay_factor) with
    | Raise e => Raise e
    | Ok delayed => Ok (np_add reverb_audio delayed)
    end
  else Ok reverb_audio.

Fixpoint reverb_loop (audio : list R) (sr : Z) (room_size damping : R)
    (reverb_audio : list R) (i : nat) (delays : list R) : result (list R) :=
  match delays with
  | [] => Ok reverb_audio
  | delay :: rest =>
      match reverb_tap audio sr room_size damping reverb_audio i delay with
      | Raise e => Raise e
      | Ok reverb_audio => reverb_loop audio sr room_size damping reverb_audio (S i) rest
      end
  end.

Definition reverb_body (audio : list R) (sr : Z) (room_size damping : R) : result (list R) :=
  reverb_loop audio sr room_size damping audio 0 reverb_delays.

Definition _apply_reverb (audio : list R) (sr : Z) (room_size damping : R) : list R :=
  try_except (reverb_body audio sr room_size damping) audio.

(** The [try] block of [_normalize_audio]. *)
Definition normalize_body (audio : list R) : result (list R) :=
  match np_max (np_abs audio) with
  | Raise e => Raise e
  | Ok max_val =>
      if Rlt_dec 0 max_val
      then Ok (map (fun x => x / max_val * 0.95) audio)
      else Ok audio
  end.

Definition _normalize_audio (audio : list R) : list R :=
  try_except (normalize_body audio) audio.

(** [_save_processed_audio] only names a temporary file and writes to it. *)
Definition _save_processed_audio (audio : list R) (sr : Z) (format : string) : result string :=
  save_file audio sr format.

(** The chain of effects of [apply_effects], between loading and saving
    (lines 44 to 84 of the source). *)
Definition effects_chain (audio_data : list R) (sample_rate : Z)
    (effects : gmap string pyval) : list R :=
  let processed_audio := audio_data in
  let processed_audio :=
    match effects !! "pitch_shift" with
    | Some n_steps =>
        if py_ne n_steps 0
        then _apply_pitch_shift processed_audio sample_rate (py_float n_steps)
        else processed_audio
    | None => processed_audio
    end in
  let processed_audio :=
    match effects !! "speed_change" with
    | Some speed_factor =>
        if py_ne speed_factor 1
        then _apply_speed_change processed_audio (py_float speed_factor)
        else processed_audio
    | None => processed_audio
    end in
  let processed_audio :=
    if has_and effects "robot_voice" truthy
    then _apply_robot_voice processed_audio sample_rate
           (py_float (dict_get effects "robot_intensity" (PyFloat 0.5)))
    else processed_audio in
  let processed_audio :=
    if has_and effects "echo" truthy
    then _apply_echo processed_audio sample_rate
           (py_float (dict_get effects "echo_delay" (PyFloat 0.3)))
           (py_float (dict_get effects "echo_decay" (PyFloat 0.5)))
    else processed_audio in
  let processed_audio :=
    if has_and effects "reverb" truthy
    then _apply_reverb processed_audio sample_rate
           (py_float (dict_get effects "reverb_room_size" (PyFloat 0.5)))
           (py_float (dict_get effects "reverb_damping" (PyFloat 0.5)))
    else processed_audio in
  let processed_audio :=
    if has_and effects "normalize" truthy
    then _normalize_audio processed_audio
    else processed_audio in
  processed_audio.

(** [apply_effects]: the outer handler logs and re-raises. *)
Definition apply_effects (audio_file_path : string) (effects : gmap string pyval)
    (output_format : string) : result string :=
  match _load_audio audio_file_path with
  | Raise e => Raise e
  | Ok (audio_data, sample_rate) =>
      let processed_audio := effects_chain audio_data sample_rate effects in
      _save_processed_audio processed_audio sample_rate output_format
  end.

Record AudioInfo : Type := mkAudioInfo {
  info_duration : R;
  info_sample_rate : Z;
  info_channels : Z;
  info_format : string;
  info_file_size : Z
}.

(** [get_audio_info]: [None] stands for the empty dictionary returned on failure. *)
Definition get_audio_info (file_path : string) : option AudioInfo :=
  match _load_audio file_path with
  | Raise _ => None
  | Ok (audio_data, sample_rate) =>
      match os_path_getsize file_path with
      | Raise _ => None
      | Ok size =>
          Some (mkAudioInfo (INR (length audio_data) / IZR sample_rate) sample_rate 1
                  (str_lower (snd (os_path_splitext file_path))) size)
      end
  end.

End Methods.
End VoiceEffectsProcessor.

(** ** [utils/audio_processing.py]: class [AudioProcessor] *)

Module AudioProcessor.

(** The [try] block of [_apply_compression]: an [np.where] over the samples. *)
Definition compression_body (audio : list R) (threshold ratio : R) : result (list R) :=
  let compressed :=
    map (fun x =>
           if Rlt_dec threshold (Rabs x)
           then np_sign x * (threshold + (Rabs x - threshold) / ratio)
           else x) audio in
  Ok compressed.

Definition _apply_compression (audio : list R) (threshold ratio : R) : list R :=
  try_except (compression_body audio threshold ratio) audio.

End AudioProcessor.

(** ** [utils/audio_processing_windows.py]: class [WindowsAudioProcessor] *)

Module WindowsAudioProcessor.
Section Methods.
Context `{Libraries}.

(** [audio.reshape((-1, 2)).mean(axis=1)]: the reshape raises on an odd length. *)
Fixpoint stereo_mean (audio : list R) : result (list R) :=
  match audio with
  | [] => Ok []
  | [_] => Raise (Exception "cannot reshape array" None)
  | l :: r :: rest =>
      match stereo_mean rest with
      | Raise e => Raise e
      | Ok m => Ok ((l + r) / 2 :: m)
      end
  end.

(** The inner [try] block of [load_audio_safe], the pydub path. *)
Definition pydub_path (audio_path : string) (target_sr : option Z) : result (list R * Z) :=
  match AudioSegment_from_file audio_path with
  | Raise e => Raise e
  | Ok audio_segment =>
      let audio := map (fun s => float32 (IZR s)) (get_array_of_samples audio_segment) in
      let audio :=
        if (sample_width audio_segment =? 2)%Z then map (fun x => x / 32768) audio
        else if (sample_width audio_segment =? 4)%Z then map (fun x => x / 2147483648) audio
        else audio in
      match (if (channels audio_segment =? 2)%Z then stereo_mean audio else Ok audio) with
      | Raise e => Raise e
      | Ok audio =>
          let sr := frame_rate audio_segment in
          match target_sr with
          | Some t =>
              if negb (t =? 0)%Z && negb (sr =? t)%Z
              then match librosa_resample audio sr t with
                   | Raise e => Raise e
                   | Ok audio => Ok (audio, t)
                   end
              else Ok (audio, sr)
          | None => Ok (audio, sr)
          end
      end
  end.

Definition load_audio_safe (audio_path : string) (target_sr : option Z) : result (list R * Z) :=
  match librosa_load audio_path target_sr true with
  | Ok (audio, sr) => Ok (audio, sr)
  | Raise e1 =>
      match pydub_path audio_path target_sr with
      | Ok r => Ok r
      | Raise e2 =>
          let e2 := raised_during e1 e2 in
          Raise (Exception ("Cannot load audio file: " ++ str e2) (Some e2))
      end
  end.

End Methods.
End WindowsAudioProcessor.

(** ** [api/voice_effects.py]: the endpoint [apply_voice_effects] *)

Module api.

Record HTTPException : Type := mkHTTPException {
  status_code : Z;
  detail : string
}.

(** The form fields of a request to [/apply]. *)
Record ApplyForm : Type := mkApplyForm {
  filename : string;
  pitch_shift : R;
  speed_change : R;
  robot_voice : bool;
  robot_intensity : R;
  echo : bool;
  echo_delay : R;
  echo_decay : R;
  reverb : bool;
  reverb_room_size : R;
  reverb_damping : R;
  normalize : bool;
  output_format : string
}.

(** [lo <= x <= hi] *)
Definition between (lo x hi : R) : bool :=
  if Rle_dec lo x then (if Rle_dec x hi then true else false) else false.

Definition is_supported_format (f : string) : bool :=
  if decide (f ∈ ["wav"; "mp3"; "ogg"; "flac"]) then true else false.

(** The parameter checks of [apply_voice_effects] (lines 41 to 68): the first
    check that fails raises, [None] when all pass. *)
Definition validate (f : ApplyForm) : option HTTPException :=
  if String.eqb (filename f) EmptyString
  then Some (mkHTTPException 400 "No audio file provided")
  else if negb (between (-12) (pitch_shift f) 12)
  then Some (mkHTTPException 400 "Pitch shift must be between -12 and +12 semitones")
  else if negb (between 0.25 (speed_change f) 4.0)
  then Some (mkHTTPException 400 "Speed change must be between 0.25 and 4.0")
  else if negb (between 0.0 (robot_intensity f) 1.0)
  then Some (mkHTTPException 400 "Robot intensity must be between 0.0 and 1.0")
  else if negb (between 0.1 (echo_delay f) 2.0)
  then Some (mkHTTPException 400 "Echo delay must be between 0.1 and 2.0 seconds")
  else if negb (between 0.1 (echo_decay f) 0.9)
  then Some (mkHTTPException 400 "Echo decay must be between 0.1 and 0.9")
  else if negb (between 0.1 (reverb_room_size f) 1.0)
  then Some (mkHTTPException 400 "Reverb room size must be between 0.1 and 1.0")
  else if negb (between 0.1 (reverb_damping f) 1.0)
  then Some (mkHTTPException 400 "Reverb damping must be between 0.1 and 1.0")
  else if negb (is_supported_format (output_format f))
  then Some (mkHTTPException 400 "Output format must be wav, mp3, ogg, or flac")
  else None.

(** The [effects] dictionary the endpoint builds from the form (lines 80 to 92). *)
Definition effects_of (f : ApplyForm) : gmap string pyval :=
  <["pitch_shift" := PyFloat (pitch_shift f)]>
  (<["speed_change" := PyFloat (speed_change f)]>
  (<["robot_voice" := PyBool (robot_voice f)]>
  (<["robot_intensity" := PyFloat (robot_intensity f)]>
  (<["echo" := PyBool (echo f)]>
  (<["echo_delay" := PyFloat (echo_delay f)]>
  (<["echo_decay" := PyFloat (echo_decay f)]>
  (<["reverb" := PyBool (reverb f)]>
  (<["reverb_room_size" := PyFloat (reverb_room_size f)]>
  (<["reverb_damping" := PyFloat (reverb_damping f)]>
  (<["normalize" := PyBool (normalize f)]> ∅)))))))))).

Definition media_type_of (output_format : string) : string :=
  if String.eqb output_format "wav" then "audio/wav"
  else if String.eqb output_format "mp3" then "audio/mpeg"
  else if String.eqb output_format "ogg" then "audio/ogg"
  else if String.eqb output_format "flac" then "audio/flac"
  else "audio/wav".

(** The [FileResponse]; the header [X-Processing-Time] holds the wall clock
    and is left out. *)
Record FileResponse : Type := mkFileResponse {
  path : string;
  media_type : string;
  response_filename : string;
  x_audio_info : option VoiceEffectsProcessor.AudioInfo;
  x_effects_applied : gmap string pyval
}.

Section Endpoint.
Context `{Libraries}.

(** The inner [try] block of [apply_voice_effects] (lines 75 to 138). *)
Definition apply_body (f : ApplyForm) (temp_input : string) : result FileResponse :=
  match save_upload temp_input with
  | Raise e => Raise e
  | Ok _ =>
      let effects := effects_of f in
      match VoiceEffectsProcessor.apply_effects temp_input effects (output_format f) with
      | Raise e => Raise e
      | Ok output_path =>
          let audio_info := VoiceEffectsProcessor.get_audio_info output_path in
          let media_type := media_type_of (output_format f) in
          let base_name := fst (os_path_splitext (filename f)) in
          let output_filename := (base_name ++ "_effects." ++ output_format f)%string in
          Ok (mkFileResponse output_path media_type output_filename audio_info effects)
      end
  end.

(** The handler of the inner [try] block removes the temporary input and
    raises the exception again; [os.unlink] may itself raise. *)
Definition cleanup_on_error (temp_input : string) (e : exn) : exn :=
  match unlink_if_exists temp_input with
  | Raise e' => raised_during e e'
  | Ok _ => e
  end.

(** The answer of the outer handler to an exception that is no
    [HTTPException]. *)
Definition failed_to_process (e : exn) : HTTPException :=
  mkHTTPException 500 ("Failed to process audio: " ++ str e).

Definition apply_voice_effects (f : ApplyForm) : HTTPException + FileResponse :=
  match validate f with
  | Some e => inl e
  | None =>
      match NamedTemporaryFile (snd (os_path_splitext (filename f))) with
      | Raise e => inl (failed_to_process e)
      | Ok temp_input =>
          match apply_body f temp_input with
          | Raise e => inl (failed_to_process (cleanup_on_error temp_input e))
          | Ok response => inr response
          end
      end
  end.

End Endpoint.
End api.

(** ** The pipeline as the specification words it

    These definitions follow the specification, not the source: a list of
    stages in the canonical order, the condition that enables a stage, and the
    primitive a stage runs.  They are compared with [effects_chain] below. *)

Module pipeline_spec.

Inductive stage : Type :=
| PitchShift | SpeedChange | RobotVoice | Echo | Reverb | Normalize.

Definition canonical_order : list stage :=
  [PitchShift; SpeedChange; RobotVoice; Echo; Reverb; Normalize].

Definition enabled (effects : gmap string pyval) (s : stage) : bool :=
  match s with
  | PitchShift => has_and effects "pitch_shift" (fun v => py_ne v 0)
  | SpeedChange => has_and effects "speed_change" (fun v => py_ne v 1)
  | RobotVoice => has_and effects "robot_voice" truthy
  | Echo => has_and effects "echo" truthy
  | Reverb => has_and effects "reverb" truthy
  | Normalize => has_and effects "normalize" truthy
  end.

Section Primitives.
Context `{Libraries}.

Definition primitive (effects : gmap string pyval) (sr : Z) (s : stage)
    (w : list R) : list R :=
  match s with
  | PitchShift =>
      VoiceEffectsProcessor._apply_pitch_shift w sr
        (py_float (dict_get effects "pitch_shift" (PyFloat 0)))
  | SpeedChange =>
      VoiceEffectsProcessor._apply_speed_change w
        (py_float (dict_get effects "speed_change" (PyFloat 1)))
  | RobotVoice =>
      VoiceEffectsProcessor._apply_robot_voice w sr
        (py_float (dict_get effects "robot_intensity" (PyFloat 0.5)))
  | Echo =>
      VoiceEffectsProcessor._apply_echo w sr
        (py_float (dict_get effects "echo_delay" (PyFloat 0.3)))
        (py_float (dict_get effects "echo_decay" (PyFloat 0.5)))
  | Reverb =>
      VoiceEffectsProcessor._apply_reverb w sr
        (py_float (dict_get effects "reverb_room_size" (PyFloat 0.5)))
        (py_float (dict_get effects "reverb_damping" (PyFloat 0.5)))
  | Normalize => VoiceEffectsProcessor._normalize_audio w
  end.

(** The composition, in list order, of the primitives of [stages]. *)
Definition compose (effects : gmap string pyval) (sr : Z) (stages : list stage)
    (w : list R) : list R :=
  fold_left (fun acc s => primitive effects sr s acc) stages w.

(** The [try] block of the primitive of a stage: [Raise] when it raises. *)
Definition stage_body (effects : gmap string pyval) (sr : Z) (s : stage)
    (w : list R) : result (list R) :=
  match s with
  | PitchShift =>
      librosa_pitch_shift w sr (py_float (dict_get effects "pitch_shift" (PyFloat 0)))
  | SpeedChange =>
      librosa_time_stretch w (py_float (dict_get effects "speed_change" (PyFloat 1)))
  | RobotVoice =>
      VoiceEffectsProcessor.robot_voice_body w sr
        (py_float (dict_get effects "robot_intensity" (PyFloat 0.5)))
  | Echo =>
      VoiceEffectsProcessor.echo_body w sr
        (py_float (dict_get effects "echo_delay" (PyFloat 0.3)))
        (py_float (dict_get effects "echo_decay" (PyFloat 0.5)))
  | Reverb =>
      VoiceEffectsProcessor.reverb_body w sr
        (py_float (dict_get effects "reverb_room_size" (PyFloat 0.5)))
        (py_float (dict_get effects "reverb_damping" (PyFloat 0.5)))
  | Normalize => VoiceEffectsProcessor.normalize_body w
  end.

End Primitives.

(** Echo as the specification writes it, for a delay of [d] samples:
    [w[n]] before the delay, [w[n] + decay * w[n-d]] from it on. *)
Definition echo_formula (w : list R) (d : Z) (decay : R) (n : nat) : R :=
  if (Z.of_nat n <? d)%Z then nth n w 0
  else nth n w 0 + decay * nth (n - Z.to_nat d) w 0.

(** The ring modulation as the specification writes it: sample [n] times
    [1 + intensity * sin(2 pi f_c n / sr)] with [f_c = 30 + intensity * 100]. *)
Definition ring_modulated (w : list R) (sr : Z) (intensity : R) (n : nat) : R :=
  nth n w 0 * (1 + intensity * sin (2 * PI * (30 + intensity * 100) * (INR n / IZR sr))).

(** Reverb as the specification writes it: the contribution to sample [k] of
    the taps numbered from [i] on, each a copy of the input delayed by
    [int(delay * sr * room_size)] samples with gain
    [(0.7 - damping * 0.4) ^ (tap index + 1)]. *)
Fixpoint reverb_taps (w : list R) (sr : Z) (room_size damping : R)
    (i : nat) (delays : list R) (k : nat) : R :=
  match delays with
  | [] => 0
  | delay :: rest =>
      let d := py_int (fmul (fmul delay (IZR sr)) room_size) in
      (if (Z.of_nat k <? d)%Z then 0
       else (0.7 - damping * 0.4) ^ (i + 1) * nth (k - Z.to_nat d) w 0)
      + reverb_taps w sr room_size damping (S i) rest k
  end.

(** The largest absolute sample of a waveform (0 for the empty one). *)
Definition peak (w : list R) : R := fold_right (fun x m => Rmax (Rabs x) m) 0 w.

(** A waveform is silent when all its samples are zero. *)
Definition silent (w : list R) : Prop := Forall (fun x => x = 0) w.

(** The fields of the range table, in the order the validator checks them. *)
Inductive field : Type :=
| pitch_shift_semitones | speed_factor | robot_intensity
| echo_delay_s | echo_decay | reverb_room_size | reverb_damping.

Definition checked_order : list field :=
  [pitch_shift_semitones; speed_factor; robot_intensity;
   echo_delay_s; echo_decay; reverb_room_size; reverb_damping].

(** The range table of section 6. *)
Definition in_range (f : api.ApplyForm) (x : field) : Prop :=
  match x with
  | pitch_shift_semitones => -12 <= api.pitch_shift f <= 12
  | speed_factor => 0.25 <= api.speed_change f <= 4.0
  | robot_intensity => 0.0 <= api.robot_intensity f <= 1.0
  | echo_delay_s => 0.1 <= api.echo_delay f <= 2.0
  | echo_decay => 0.1 <= api.echo_decay f <= 0.9
  | reverb_room_size => 0.1 <= api.reverb_room_size f <= 1.0
  | reverb_damping => 0.1 <= api.reverb_damping f <= 1.0
  end.

(** The words by which an error message names a field. *)
Definition field_words (x : field) : string :=
  match x with
  | pitch_shift_semitones => "Pitch shift"
  | speed_factor => "Speed change"
  | robot_intensity => "Robot intensity"
  | echo_delay_s => "Echo delay"
  | echo_decay => "Echo decay"
  | reverb_room_size => "Reverb room size"
  | reverb_damping => "Reverb damping"
  end.

(** An error names a field when its message starts with the field's words. *)
Definition names (e : api.HTTPException) (x : field) : bool :=
  String.prefix (field_words x) (api.detail e).

(** What a range error says about the form: [x] is the first field, in the
    checked order, that is out of its range, and the error names [x] only. *)
Definition first_violation (f : api.ApplyForm) (e : api.HTTPException)
    (x : field) : Prop :=
  (exists before after,
      checked_order = before ++ x :: after /\ Forall (in_range f) before)
  /\ ~ in_range f x
  /\ forall y, names e y = true <-> y = x.


End pipeline_spec.


(** ** More of numpy *)

(** [a[mask]]: the elements of [a] at which the boolean mask holds. *)
Fixpoint np_select {A : Type} (a : list A) (mask : list bool) : list A :=
  match a, mask with
  | x :: a', b :: mask' => if b then x :: np_select a' mask' else np_select a' mask'
  | _, _ => []
  end.

(** [np.any(mask)] *)
Definition np_any (mask : list bool) : bool := existsb (fun b => b) mask.

(** [np.sum(a)] *)
Definition np_sum (a : list R) : R := fold_right Rplus 0 a.

(** [np.mean(a)]; on an empty array numpy gives nan, on which every
    comparison of the sources fails, as it does on the 0 of the model. *)
Definition np_mean (a : list R) : R := np_sum a / INR (length a).

(** [a ** 2] *)
Definition np_square (a : list R) : list R := map (fun x => x * x) a.

(** [np.sqrt(np.mean(audio ** 2))] *)
Definition rms (audio : list R) : R := sqrt (np_mean (np_square audio)).

(** ** Files and paths *)

(** A call [sf.write(path, data, samplerate)]. *)
Definition write : Type := (string * list R * Z)%type.

Class Files : Type := {
  (** [sf.write(path, data, samplerate)] *)
  sf_write : string -> list R -> Z -> result unit;
  (** [path.exists()], [os.path.exists(path)] *)
  path_exists : string -> bool;
  (** [path.stat().st_size] *)
  stat_st_size : string -> result Z;
  (** [path.stem] *)
  path_stem : string -> string;
  (** [path.with_stem(stem)] *)
  path_with_stem : string -> string -> string;
  (** the text of a float in an f-string, and [str] of it *)
  float_str : R -> string;
  (** [tempfile.NamedTemporaryFile(delete=False, suffix='.wav')] of the
      preview, closed at once: the name of the file created *)
  temp_preview : result string;
  (** [str(e)] for an [HTTPException] *)
  http_str : api.HTTPException -> string
}.

(** ** [utils/audio_processing.py]: the other methods of [AudioProcessor] *)

Module audio_processing.

(** The [try] block of [_remove_silence]. *)
Definition remove_silence_body (audio : list R) (threshold : R) : result (list R) :=
  let energy := np_abs audio in
  let silence_mask := map (fun e => if Rlt_dec threshold e then true else false) energy in
  if np_any silence_mask
  then Ok (np_select audio silence_mask)
  else Ok audio.

Definition _remove_silence (audio : list R) (sr : Z) (threshold : R) : list R :=
  try_except (remove_silence_body audio threshold) audio.

(** One row of the magnitude spectrogram, a frequency bin over the frames,
    through the subtraction of [_spectral_subtraction] (lines 245 to 249):
    the noise estimate of the bin is the mean of its first ten frames. *)
Definition subtract_bin (alpha : R) (bin : list R) : list R :=
  let noise_est := np_mean (firstn 10 bin) in
  map (fun m => Rmax (m - alpha * noise_est) (0.1 * m)) bin.

(** [enhanced_magnitude] of [_spectral_subtraction], bin by bin. *)
Definition enhanced_magnitude (alpha : R) (magnitude : list (list R)) : list (list R) :=
  map (subtract_bin alpha) magnitude.

(** [librosa.stft] and [librosa.istft]; a complex entry of the spectrogram is
    held as its magnitude [np.abs] and its phase [np.angle]. *)
Class Stft : Type := {
  librosa_stft : list R -> result (list (list (R * R)));
  librosa_istft : list (list (R * R)) -> result (list R)
}.

(** The [try] block of [_spectral_subtraction]. *)
Definition spectral_subtraction_body `{Stft} (audio : list R) (alpha : R)
    : result (list R) :=
  match librosa_stft audio with
  | Raise e => Raise e
  | Ok stft =>
      let magnitude := map (map fst) stft in
      let phase := map (map snd) stft in
      let enhanced_magnitude := enhanced_magnitude alpha magnitude in
      let enhanced_stft := zip_with (zip_with pair) enhanced_magnitude phase in
      librosa_istft enhanced_stft
  end.

Definition _spectral_subtraction `{Stft} (audio : list R) (sr : Z) (alpha : R) : list R :=
  try_except (spectral_subtraction_body audio alpha) audio.

Section Methods.
Context `{Libraries} `{Files}.
(** [self.sample_rate], set from [settings.SAMPLE_RATE] *)
Variable sample_rate : Z.
(** [settings.MAX_AUDIO_LENGTH] *)
Variable MAX_AUDIO_LENGTH : Z.

(** [normalize_audio]: the path returned, and the calls of [sf.write] made. *)
Definition normalize_audio (audio_path : string) (target_db : R) : string * list write :=
  match librosa_load audio_path (Some sample_rate) true with
  | Raise _ => (audio_path, [])
  | Ok (audio, sr) =>
      let rms := rms audio in
      if Rlt_dec 0 rms then
        let target_rms := Rpower 10 (target_db / 20.0) in
        let normalized_audio := np_scale audio (target_rms / rms) in
        match np_max (np_abs normalized_audio) with
        | Raise _ => (audio_path, [])
        | Ok max_val =>
            let normalized_audio :=
              if Rlt_dec 0.95 max_val
              then np_scale normalized_audio (0.95 / max_val)
              else normalized_audio in
            let output_path :=
              path_with_stem audio_path (path_stem audio_path ++ "_normalized") in
            match sf_write output_path normalized_audio sr with
            | Raise _ => (audio_path, [(output_path, normalized_audio, sr)])
            | Ok _ => (output_path, [(output_path, normalized_audio, sr)])
            end
        end
      else (audio_path, [])
  end.

(** The loop of [merge_audio_files]; [combined_audio] starts as [None]. *)
Fixpoint merge_loop (audio_paths : list string) (combined_audio : option (list R))
    : result (option (list R)) :=
  match audio_paths with
  | [] => Ok combined_audio
  | path :: rest =>
      match librosa_load path (Some sample_rate) true with
      | Raise e => Raise e
      | Ok (audio, sr) =>
          let combined_audio :=
            match combined_audio with
            | None => audio
            | Some combined_audio => combined_audio ++ audio
            end in
          merge_loop rest (Some combined_audio)
      end
  end.

(** [merge_audio_files]: both the [try] block and the handler return
    [output_path]; with no input [sf.write] is given [None] and raises. *)
Definition merge_audio_files (audio_paths : list string) (output_path : string)
    : string * list write :=
  match merge_loop audio_paths None with
  | Raise _ => (output_path, [])
  | Ok None => (output_path, [])
  | Ok (Some combined_audio) =>
      match sf_write output_path combined_audio sample_rate with
      | Raise _ => (output_path, [(output_path, combined_audio, sample_rate)])
      | Ok _ => (output_path, [(output_path, combined_audio, sample_rate)])
      end
  end.

(** The dictionary [validate_audio_file] returns: the short form
    [{"valid": False, "error": ...}] or the full report. *)
Inductive validation : Type :=
| Invalid (error : string)
| Report (valid : bool) (duration : R) (sample_rate : Z) (channels : Z)
         (checks : list (string * bool)) (file_size : Z) (error : option string).

Definition failed_checks (checks : list (string * bool)) : list string :=
  map fst (List.filter (fun c => negb (snd c)) checks).

(** [validate_audio_file] *)
Definition validate_audio_file (file_path : string) : validation :=
  if negb (path_exists file_path) then Invalid "File not found"
  else
    match librosa_load file_path None true with
    | Raise e => Invalid ("Cannot read audio file: " ++ str e)
    | Ok (audio, sr) =>
        if (sr =? 0)%Z then Invalid "division by zero"
        else
          let duration := INR (length audio) / IZR sr in
          match np_max (np_abs audio) with
          | Raise e => Invalid (str e)
          | Ok peak =>
              let checks :=
                [("file_exists", path_exists file_path);
                 ("readable", true);
                 ("duration_valid", api.between 0.1 duration (IZR MAX_AUDIO_LENGTH));
                 ("sample_rate_valid", (8000 <=? sr)%Z);
                 ("has_audio_data", (0 <? length audio)%nat);
                 ("not_silent", if Rlt_dec 0.001 peak then true else false)] in
              let valid := forallb snd checks in
              match stat_st_size file_path with
              | Raise e => Invalid (str e)
              | Ok file_size =>
                  Report valid duration sr 1 checks file_size
                    (if valid then None
                     else Some (String.append "Validation failed: "
                                  (String.concat ", " (failed_checks checks))))
              end
          end
    end.

End Methods.
End audio_processing.

(** ** [api/voice_effects.py]: the other endpoints *)

Module api_routes.

(** The form of [/preview]: the fields of [/apply] ([output_format], which
    the preview does not have, is ignored) and the duration limit. *)
Record PreviewForm : Type := mkPreviewForm {
  fields : api.ApplyForm;
  duration_limit : R
}.

(** The parameter checks of [preview_voice_effects] (lines 172 to 196). *)
Definition validate_preview (p : PreviewForm) : option api.HTTPException :=
  let f := fields p in
  if negb (api.between (-12) (api.pitch_shift f) 12)
  then Some (api.mkHTTPException 400 "Pitch shift must be between -12 and +12 semitones")
  else if negb (api.between 0.25 (api.speed_change f) 4.0)
  then Some (api.mkHTTPException 400 "Speed change must be between 0.25 and 4.0")
  else if negb (api.between 0.0 (api.robot_intensity f) 1.0)
  then Some (api.mkHTTPException 400 "Robot intensity must be between 0.0 and 1.0")
  else if negb (api.between 0.1 (api.echo_delay f) 2.0)
  then Some (api.mkHTTPException 400 "Echo delay must be between 0.1 and 2.0 seconds")
  else if negb (api.between 0.1 (api.echo_decay f) 0.9)
  then Some (api.mkHTTPException 400 "Echo decay must be between 0.1 and 0.9")
  else if negb (api.between 0.1 (api.reverb_room_size f) 1.0)
  then Some (api.mkHTTPException 400 "Reverb room size must be between 0.1 and 1.0")
  else if negb (api.between 0.1 (api.reverb_damping f) 1.0)
  then Some (api.mkHTTPException 400 "Reverb damping must be between 0.1 and 1.0")
  else if negb (api.between 5.0 (duration_limit p) 60.0)
  then Some (api.mkHTTPException 400 "Duration limit must be between 5 and 60 seconds")
  else None.

(** The [FileResponse] of the preview. *)
Record PreviewResponse : Type := mkPreviewResponse {
  preview_path : string;
  preview_media_type : string;
  preview_filename : string;
  x_preview_duration : string;
  preview_effects_applied : gmap string pyval
}.

(** One preset of [get_effect_presets]. *)
Record Preset : Type := mkPreset {
  preset_name : string;
  preset_description : string;
  preset_effects : gmap string pyval
}.

(** [get_effect_presets]: the presets, by key. *)
Definition get_effect_presets : list (string * Preset) :=
  [("chipmunk",
    mkPreset "Chipmunk Voice" "High-pitched, fast voice like a chipmunk"
      (<["pitch_shift" := PyFloat 8]>
       (<["speed_change" := PyFloat 1.3]>
       (<["normalize" := PyBool true]> ∅))));
   ("darth_vader",
    mkPreset "Deep Dark Voice" "Low, menacing voice with reverb"
      (<["pitch_shift" := PyFloat (-6)]>
       (<["speed_change" := PyFloat 0.9]>
       (<["reverb" := PyBool true]>
       (<["reverb_room_size" := PyFloat 0.8]>
       (<["reverb_damping" := PyFloat 0.3]>
       (<["normalize" := PyBool true]> ∅)))))));
   ("robot",
    mkPreset "Robot Voice" "Metallic, robotic voice effect"
      (<["robot_voice" := PyBool true]>
       (<["robot_intensity" := PyFloat 0.7]>
       (<["pitch_shift" := PyFloat (-2)]>
       (<["normalize" := PyBool true]> ∅)))));
   ("echo_chamber",
    mkPreset "Echo Chamber" "Voice with strong echo effect"
      (<["echo" := PyBool true]>
       (<["echo_delay" := PyFloat 0.4]>
       (<["echo_decay" := PyFloat 0.6]>
       (<["reverb" := PyBool true]>
       (<["reverb_room_size" := PyFloat 0.9]>
       (<["normalize" := PyBool true]> ∅)))))));
   ("slow_motion",
    mkPreset "Slow Motion" "Slow, deep voice effect"
      (<["speed_change" := PyFloat 0.7]>
       (<["pitch_shift" := PyFloat (-3)]>
       (<["normalize" := PyBool true]> ∅))));
   ("helium",
    mkPreset "Helium Voice" "High-pitched helium balloon voice"
      (<["pitch_shift" := PyFloat 6]>
       (<["speed_change" := PyFloat 1.1]>
       (<["normalize" := PyBool true]> ∅))))].

(** The value of a bool field read from a dictionary of effects. *)
Definition bool_field (d : gmap string pyval) (k : string) (default : bool) : bool :=
  truthy (dict_get d k (PyBool default)).

(** The form [/apply] receives when the entries of [effects] are sent as its
    fields: a field that is not sent takes the default of the signature of
    [apply_voice_effects] (lines 24 to 35). *)
Definition form_of_effects (filename : string) (effects : gmap string pyval)
    : api.ApplyForm :=
  api.mkApplyForm filename
    (py_float (dict_get effects "pitch_shift" (PyFloat 0)))
    (py_float (dict_get effects "speed_change" (PyFloat 1.0)))
    (bool_field effects "robot_voice" false)
    (py_float (dict_get effects "robot_intensity" (PyFloat 0.5)))
    (bool_field effects "echo" false)
    (py_float (dict_get effects "echo_delay" (PyFloat 0.3)))
    (py_float (dict_get effects "echo_decay" (PyFloat 0.5)))
    (bool_field effects "reverb" false)
    (py_float (dict_get effects "reverb_room_size" (PyFloat 0.5)))
    (py_float (dict_get effects "reverb_damping" (PyFloat 0.5)))
    (bool_field effects "normalize" true)
    "wav".

Section Endpoints.
Context `{Libraries} `{Files}.

(** The inner [try] block of [preview_voice_effects] (lines 218 to 262): what
    it returns or raises, and the calls of [sf.write] made. *)
Definition preview_body (p : PreviewForm) (temp_input : string)
    : result PreviewResponse * list write :=
  let f := fields p in
  let effects_dict := api.effects_of f in
  match save_upload temp_input with
  | Raise e => (Raise e, [])
  | Ok _ =>
      match VoiceEffectsProcessor._load_audio temp_input with
      | Raise e => (Raise e, [])
      | Ok (audio_data, sample_rate) =>
          let max_samples := py_int (fmul (duration_limit p) (IZR sample_rate)) in
          let audio_data :=
            if (max_samples <? Z.of_nat (length audio_data))%Z
            then slice_upto audio_data max_samples
            else audio_data in
          match temp_preview with
          | Raise e => (Raise e, [])
          | Ok temp_preview =>
              let written := [(temp_preview, audio_data, sample_rate)] in
              match sf_write temp_preview audio_data sample_rate with
              | Raise e => (Raise e, written)
              | Ok _ =>
                  match VoiceEffectsProcessor.apply_effects temp_preview effects_dict "wav" with
                  | Raise e => (Raise e, written)
                  | Ok output_path =>
                      (Ok (mkPreviewResponse output_path "audio/wav"
                             ("preview_" ++ api.filename f)
                             (float_str (duration_limit p)) effects_dict),
                       written)
                  end
              end
          end
      end
  end.

(** The answer of the outer handler to an exception that is no
    [HTTPException]. *)
Definition failed_to_preview (e : exn) : api.HTTPException :=
  api.mkHTTPException 500 ("Failed to generate preview: " ++ str e).

(** [preview_voice_effects]: the response, and the calls of [sf.write] made. *)
Definition preview_voice_effects (p : PreviewForm)
    : (api.HTTPException + PreviewResponse) * list write :=
  match validate_preview p with
  | Some e => (inl e, [])
  | None =>
      match NamedTemporaryFile (snd (os_path_splitext (api.filename (fields p)))) with
      | Raise e => (inl (failed_to_preview e), [])
      | Ok temp_input =>
          match preview_body p temp_input with
          | (Raise e, written) =>
              (inl (failed_to_preview (api.cleanup_on_error temp_input e)), written)
          | (Ok response, written) => (inr response, written)
          end
      end
  end.

(** The [try] block of the endpoint [get_audio_info]. *)
Definition get_audio_info_body (file_path : string)
    : api.HTTPException + option VoiceEffectsProcessor.AudioInfo :=
  if negb (path_exists file_path)
  then inl (api.mkHTTPException 404 "Audio file not found")
  else inr (VoiceEffectsProcessor.get_audio_info file_path).

(** The endpoint [get_audio_info]: its handler catches every exception, the
    [HTTPException] of the [try] block too. *)
Definition get_audio_info (file_path : string)
    : api.HTTPException + option VoiceEffectsProcessor.AudioInfo :=
  match get_audio_info_body file_path with
  | inl e => inl (api.mkHTTPException 500 ("Failed to get audio info: " ++ http_str e))
  | inr info => inr info
  end.

End Endpoints.
End api_routes.

(** ** Notions used in the statements *)

(** A sample is loud when it exceeds the threshold in absolute value. *)
Definition loud (threshold : R) (x : R) : bool :=
  if Rlt_dec threshold (Rabs x) then true else false.

(** ** Sample inputs *)

(** The scenario of the specification: one second of a 440 Hz sine at 22050 Hz. *)
Definition sine_440 : list R :=
  map (fun n => sin (2 * PI * 440 * (INR n / 22050))) (seq 0 (Z.to_nat 22050)).

(** An impulse: a one followed by a thousand zeros. *)
Definition impulse : list R := 1 :: repeat 0 1000.

(** A form with the defaults of the endpoint, but for the pitch shift. *)
Definition form_pitch (p : R) : api.ApplyForm :=
  api.mkApplyForm "voice.wav" p 1.0 false 0.5 false 0.3 0.5 false 0.5 0.5 true "wav".



(** Libraries in which only pydub reads a file, as the segment [seg], which
    [set_channels] turns into [mono]. *)
Definition pydub_reads (seg mono : AudioSegment) : Libraries := {|
  librosa_load := fun _ _ _ => Raise (Exception "primary" None);
  AudioSegment_from_file := fun _ => Ok seg;
  set_channels := fun _ _ => Ok mono;
  librosa_pitch_shift := fun a _ _ => Ok a;
  librosa_time_stretch := fun a _ => Ok a;
  librosa_resample := fun a _ _ => Ok a;
  save_file := fun _ _ _ => Ok "out.wav";
  os_path_getsize := fun _ => Ok 44%Z;
  os_path_splitext := fun s => (s, EmptyString);
  str_lower := fun s => s;
  NamedTemporaryFile := fun suffix => Ok ("upload" ++ suffix)%string;
  save_upload := fun _ => Ok tt;
  unlink_if_exists := fun _ => Ok tt
|}.

(** Two frames of three channels of 16-bit samples at 8000 Hz. *)
Definition surround : AudioSegment :=
  mkAudioSegment 3 2 8000 [16384; -32768; 0; 8192; 8192; 0]%Z.

(** Two frames of 16-bit stereo at 8000 Hz, and a stereo segment cut in the
    middle of a frame. *)
Definition stereo : AudioSegment := mkAudioSegment 2 2 8000 [16384; -32768; 8192; 8192]%Z.
Definition stereo_cut : AudioSegment := mkAudioSegment 2 2 8000 [16384; -32768; 8192]%Z.

(** Three 32-bit mono samples at 8000 Hz, the largest and the least of that
    width among them. *)
Definition wide : AudioSegment :=
  mkAudioSegment 1 4 8000 [2147483647; -2147483648; 1073741824]%Z.

(** Libraries in which every file decodes to 40001 samples at 8000 Hz, one
    sample more than five seconds. *)
Definition long_upload : Libraries := {|
  librosa_load := fun _ _ _ => Ok (repeat 0.5 (Z.to_nat 40001), 8000%Z);
  AudioSegment_from_file := fun _ => Raise (Exception "fallback" None);
  set_channels := fun seg _ => Ok seg;
  librosa_pitch_shift := fun a _ _ => Ok a;
  librosa_time_stretch := fun a _ => Ok a;
  librosa_resample := fun a _ _ => Ok a;
  save_file := fun _ _ _ => Ok "out.wav";
  os_path_getsize := fun _ => Ok 44%Z;
  os_path_splitext := fun s => (s, EmptyString);
  str_lower := fun s => s;
  NamedTemporaryFile := fun suffix => Ok ("upload" ++ suffix)%string;
  save_upload := fun _ => Ok tt;
  unlink_if_exists := fun _ => Ok tt
|}.

(** Libraries in which the upload cannot be copied to its temporary file,
    and that file cannot be removed either. *)
Definition disk_full : Libraries := {|
  librosa_load := fun _ _ _ => Ok ([0.5; -0.25], 22050%Z);
  AudioSegment_from_file := fun _ => Raise (Exception "fallback" None);
  set_channels := fun seg _ => Ok seg;
  librosa_pitch_shift := fun a _ _ => Ok a;
  librosa_time_stretch := fun a _ => Ok a;
  librosa_resample := fun a _ _ => Ok a;
  save_file := fun _ _ _ => Ok "out.wav";
  os_path_getsize := fun _ => Ok 44%Z;
  os_path_splitext := fun s => (s, EmptyString);
  str_lower := fun s => s;
  NamedTemporaryFile := fun suffix => Ok ("upload" ++ suffix)%string;
  save_upload := fun _ => Raise (Exception "No space left on device" None);
  unlink_if_exists := fun _ => Raise (Exception "Permission denied" None)
|}.

(** A form that asks for a pitch shift alone. *)
Definition form_pitch_only (p : R) : api.ApplyForm :=
  api.mkApplyForm "voice.wav" p 1.0 false 0.5 false 0.3 0.5 false 0.5 0.5 false "wav".

(** Libraries in which every file decodes to the same two samples and both
    librosa effects raise. *)
Definition failing_stages : Libraries := {|
  librosa_load := fun _ _ _ => Ok ([0.5; -0.25], 22050%Z);
  AudioSegment_from_file := fun _ => Raise (Exception "fallback" None);
  set_channels := fun seg _ => Ok seg;
  librosa_pitch_shift := fun _ _ _ => Raise (Exception "pitch shift failed" None);
  librosa_time_stretch := fun _ _ => Raise (Exception "time stretch failed" None);
  librosa_resample := fun a _ _ => Ok a;
  save_file := fun _ _ _ => Ok "out.wav";
  os_path_getsize := fun _ => Ok 44%Z;
  os_path_splitext := fun s => (s, EmptyString);
  str_lower := fun s => s;
  NamedTemporaryFile := fun suffix => Ok ("upload" ++ suffix)%string;
  save_upload := fun _ => Ok tt;
  unlink_if_exists := fun _ => Ok tt
|}.

(** A file system in which every file exists and every write succeeds. *)
Definition plain_files : Files := {|
  sf_write := fun _ _ _ => Ok tt;
  path_exists := fun _ => true;
  stat_st_size := fun _ => Ok 44%Z;
  path_stem := fun s => s;
  path_with_stem := fun _ s => s;
  float_str := fun _ => "5.0";
  temp_preview := Ok "preview.wav";
  http_str := fun e => api.detail e
|}.

(** A preview of a form with the defaults of the endpoint. *)
Definition preview_default (limit : R) : api_routes.PreviewForm :=
  api_routes.mkPreviewForm (form_pitch 0) limit.

(** * Properties *)

Import VoiceEffectsProcessor.

(** ** Integers out of floats, and the rounding to a float *)

Lemma py_int_nonneg (x : R) : 0 <= x -> py_int x = Zfloor x /\ (0 <= py_int x)%Z.
Proof.
  intros Hx. unfold py_int. destruct (Rle_dec 0 x) as [_|N]; [|contradiction].
  split; [reflexivity|]. now apply (Zfloor_lub 0).
Qed.

Lemma py_int_eq (x : R) (z : Z) : 0 <= x -> IZR z <= x < IZR z + 1 -> py_int x = z.
Proof.
  intros Hx Hz. destruct (py_int_nonneg x Hx) as [-> _]. now apply Zfloor_eq.
Qed.

Lemma py_round_eq (x : R) (z : Z) :
  IZR z - 1 / 2 < x < IZR z + 1 / 2 -> py_round x = z.
Proof.
  intros [Lo Hi]. unfold py_round.
  destruct (Rle_dec (IZR z) x) as [Le|Gt].
  - rewrite (Zfloor_eq z x) by lra.
    destruct (Rlt_dec (x - IZR z) (1 / 2)); [reflexivity|lra].
  - rewrite (Zfloor_eq (z - 1) x) by (rewrite minus_IZR; lra).
    rewrite minus_IZR.
    destruct (Rlt_dec (x - (IZR z - 1)) (1 / 2)); [lra|].
    destruct (Rlt_dec (1 / 2) (x - (IZR z - 1))); [lia|lra].
Qed.

Lemma py_round_error (x : R) : Rabs (IZR (py_round x) - x) <= 1 / 2.
Proof.
  unfold py_round. pose proof (Zfloor_bound x) as [Lo Hi].
  destruct (Rlt_dec (x - IZR (Zfloor x)) (1 / 2)) as [A|A].
  - rewrite Rabs_left1 by lra. lra.
  - destruct (Rlt_dec (1 / 2) (x - IZR (Zfloor x))) as [B|B].
    + rewrite plus_IZR. rewrite Rabs_pos_eq by lra. lra.
    + destruct (Z.even (Zfloor x)).
      * rewrite Rabs_left1 by lra. lra.
      * rewrite plus_IZR. rewrite Rabs_pos_eq by lra. lra.
Qed.

Lemma powerRZ_2_pos (z : Z) : 0 < powerRZ 2 z.
Proof. apply powerRZ_lt. lra. Qed.

Lemma powerRZ_2_le (a b : Z) : (a <= b)%Z -> powerRZ 2 a <= powerRZ 2 b.
Proof.
  intros Hab. replace b with (a + (b - a))%Z by lia.
  rewrite powerRZ_add by lra.
  assert (1 <= powerRZ 2 (b - a)).
  { destruct (b - a)%Z as [|p|p] eqn:E; try lia; cbn [powerRZ]; [lra|].
    apply pow_R1_Rle. lra. }
  pose proof (powerRZ_2_pos a). nra.
Qed.

Lemma binade_eq (n : nat) (e0 : Z) (x : R) (e : Z) :
  (e0 <= e <= e0 + Z.of_nat n)%Z ->
  ((e0 < e)%Z -> powerRZ 2 e <= Rabs x) ->
  ((e < e0 + Z.of_nat n)%Z -> Rabs x < powerRZ 2 (e + 1)) ->
  binade n e0 x = e.
Proof.
  revert e0. induction n as [|n IH]; intros e0 He Lo Hi; cbn [binade]; [lia|].
  destruct (Rlt_dec (Rabs x) (powerRZ 2 (e0 + 1))) as [Lt|Ge].
  - destruct (Z.eq_dec e0 e) as [|Ne]; [assumption|]. exfalso.
    assert (powerRZ 2 (e0 + 1) <= powerRZ 2 e) by (apply powerRZ_2_le; lia).
    specialize (Lo ltac:(lia)). lra.
  - assert (e0 <> e).
    { intros ->. apply Ge, Hi. lia. }
    apply IH; [lia | intros; apply Lo; lia | intros; apply Hi; lia].
Qed.

Lemma binade_spec (n : nat) (e0 : Z) (x : R) :
  let e := binade n e0 x in
  (e0 <= e <= e0 + Z.of_nat n)%Z
  /\ ((e0 < e)%Z -> powerRZ 2 e <= Rabs x)
  /\ ((e < e0 + Z.of_nat n)%Z -> Rabs x < powerRZ 2 (e + 1)).
Proof.
  revert e0. induction n as [|n IH]; intros e0; cbn [binade].
  - cbv zeta. split; [lia|]. split; intros; lia.
  - destruct (Rlt_dec (Rabs x) (powerRZ 2 (e0 + 1))) as [Lt|Ge].
    + cbv zeta. split; [lia|]. split; [intros; lia | intros; exact Lt].
    + specialize (IH (e0 + 1)%Z). cbv zeta in *. destruct IH as [B [Lo Hi]].
      split; [lia|]. split.
      * intros _. destruct (Z.eq_dec (binade n (e0 + 1) x) (e0 + 1)%Z) as [E|N].
        -- rewrite E. lra.
        -- apply Lo. lia.
      * intros H. apply Hi. lia.
Qed.

Lemma round_float_eq (p emin : Z) (n : nat) (x y : R) (e k : Z) :
  (emin <= e <= emin + Z.of_nat n)%Z ->
  ((emin < e)%Z -> powerRZ 2 e <= Rabs x) ->
  ((e < emin + Z.of_nat n)%Z -> Rabs x < powerRZ 2 (e + 1)) ->
  IZR k - 1 / 2 < x * powerRZ 2 (p - 1 - e) < IZR k + 1 / 2 ->
  y = IZR k * powerRZ 2 (e - (p - 1)) ->
  round_float p emin n x = y.
Proof.
  intros He Lo Hi Hk ->. unfold round_float.
  rewrite (binade_eq n emin x e He Lo Hi).
  now rewrite (py_round_eq _ k Hk).
Qed.

Lemma powerRZ_2_nonneg_exp (z : Z) : (0 <= z)%Z -> powerRZ 2 z = IZR (2 ^ z).
Proof.
  intros Hz. destruct z as [|p|p]; try lia; [reflexivity|].
  cbn [powerRZ]. rewrite <- (positive_nat_Z p), <- pow_IZR. reflexivity.
Qed.

Lemma powerRZ_2_neg_exp (z : Z) : (z < 0)%Z -> powerRZ 2 z = / IZR (2 ^ (- z)).
Proof.
  intros Hz. destruct z as [|p|p]; try lia.
  change (- Z.neg p)%Z with (Z.pos p). cbn [powerRZ].
  rewrite <- (positive_nat_Z p), <- pow_IZR. reflexivity.
Qed.

Ltac pow2 :=
  repeat match goal with
  | |- context [powerRZ 2 ?z] =>
      let z' := eval vm_compute in z in
      match z' with
      | Zneg _ =>
          let v := eval vm_compute in (2 ^ (- z'))%Z in
          replace (powerRZ 2 z) with (/ IZR v) by (symmetry; apply (powerRZ_2_neg_exp z'); reflexivity)
      | _ =>
          let v := eval vm_compute in (2 ^ z')%Z in
          replace (powerRZ 2 z) with (IZR v) by (symmetry; apply (powerRZ_2_nonneg_exp z'); discriminate)
      end
  end.

Ltac float_eval e k :=
  apply (round_float_eq _ _ _ _ _ e k);
  [ lia
  | first [ intros H; exfalso; lia
          | intros _; pow2;
            first [rewrite Rabs_pos_eq by lra | rewrite Rabs_left by lra]; lra ]
  | first [ intros H; exfalso; lia
          | intros _; pow2;
            first [rewrite Rabs_pos_eq by lra | rewrite Rabs_left by lra]; lra ]
  | pow2; lra
  | pow2; lra ].

(** [float64 x] is [v], the multiple [k * 2^(e-52)] of the binade [e]. *)
Ltac float64_is x v e k :=
  replace (float64 x) with v by (symmetry; unfold float64; float_eval e k).

Lemma float64_0 : float64 0 = 0.
Proof. unfold float64. float_eval (-1022)%Z 0%Z. Qed.

Lemma py_round_IZR (z : Z) : py_round (IZR z) = z.
Proof. apply py_round_eq. lra. Qed.

Lemma py_round_nonneg (x : R) : 0 <= x -> (0 <= py_round x)%Z.
Proof.
  intros Hx. unfold py_round.
  assert (0 <= Zfloor x)%Z by now apply (Zfloor_lub 0).
  destruct (Rlt_dec _ _); [lia|]. destruct (Rlt_dec _ _); [lia|].
  destruct (Z.even _); lia.
Qed.

Lemma py_round_abs_le (x : R) (N : Z) :
  Rabs x <= IZR N -> (- N <= py_round x <= N)%Z.
Proof.
  intros Hx.
  assert (- IZR N <= x <= IZR N)
    by (unfold Rabs in Hx; destruct (Rcase_abs x); lra).
  pose proof (Zfloor_bound x) as [Lo Hi].
  assert (- N <= Zfloor x)%Z by (apply Zfloor_lub; rewrite opp_IZR; lra).
  assert (Zfloor x <= N)%Z by (apply le_IZR; lra).
  unfold py_round. destruct (Rlt_dec (x - IZR (Zfloor x)) (1 / 2)); [lia|].
  assert (Zfloor x < N)%Z by (apply lt_IZR; lra).
  destruct (Rlt_dec _ _); [lia|]. destruct (Z.even _); lia.
Qed.

(** Rounding keeps the sign. *)
Lemma round_float_nonneg (p emin : Z) (n : nat) (x : R) :
  0 <= x -> 0 <= round_float p emin n x.
Proof.
  intros Hx. unfold round_float.
  apply Rmult_le_pos; [|apply Rlt_le, powerRZ_2_pos].
  apply (IZR_le 0), py_round_nonneg.
  apply Rmult_le_pos; [exact Hx | apply Rlt_le, powerRZ_2_pos].
Qed.

Lemma fmul_nonneg (x y : R) : 0 <= x -> 0 <= y -> 0 <= fmul x y.
Proof.
  intros Hx Hy. unfold fmul, float64.
  apply round_float_nonneg, Rmult_le_pos; now apply round_float_nonneg.
Qed.

(** An integer of fewer than [p] bits is a float of precision [p]. *)
Lemma round_float_IZR (p emin : Z) (n : nat) (z : Z) :
  (0 <= p)%Z -> (emin <= p - 1)%Z -> (Z.abs z < 2 ^ p)%Z ->
  round_float p emin n (IZR z) = IZR z.
Proof.
  intros Hp Hemin Hz. unfold round_float.
  destruct (binade_spec n emin (IZR z)) as [B [Lo _]].
  set (e := binade n emin (IZR z)) in *.
  assert (He : (e <= p - 1)%Z).
  { destruct (Z.eq_dec e emin) as [->|Ne]; [lia|].
    specialize (Lo ltac:(lia)).
    destruct (Z_lt_le_dec e p) as [|Ge]; [lia|]. exfalso.
    assert (Hpe : powerRZ 2 p <= powerRZ 2 e) by now apply powerRZ_2_le.
    rewrite powerRZ_2_nonneg_exp in Hpe by lia.
    assert (Rabs (IZR z) < IZR (2 ^ p)) by (rewrite <- abs_IZR; now apply IZR_lt).
    lra. }
  rewrite (powerRZ_2_nonneg_exp (p - 1 - e)) by lia.
  rewrite <- mult_IZR, py_round_IZR, mult_IZR.
  rewrite <- (powerRZ_2_nonneg_exp (p - 1 - e)) by lia.
  rewrite Rmult_assoc, <- powerRZ_add by lra.
  replace (p - 1 - e + (e - (p - 1)))%Z with 0%Z by lia. cbn [powerRZ]. ring.
Qed.

(** Rounding does not cross a power of two. *)
Lemma round_float_abs_le (p emin : Z) (n : nat) (x : R) (j : Z) :
  (1 <= p)%Z -> (emin - (p - 1) <= j)%Z ->
  Rabs x <= powerRZ 2 j -> Rabs (round_float p emin n x) <= powerRZ 2 j.
Proof.
  intros Hp Hj Hx. unfold round_float.
  destruct (binade_spec n emin x) as [B [Lo _]].
  set (e := binade n emin x) in *.
  assert (He : (e <= j + (p - 1))%Z).
  { destruct (Z.eq_dec e emin) as [->|Ne]; [lia|].
    specialize (Lo ltac:(lia)).
    destruct (Z_lt_le_dec j e) as [Lt|]; [|lia]. exfalso.
    assert (Hje : powerRZ 2 (j + 1) <= powerRZ 2 e) by (apply powerRZ_2_le; lia).
    rewrite powerRZ_add in Hje by lra. change (powerRZ 2 1) with (2 * 1) in Hje.
    pose proof (powerRZ_2_pos j). lra. }
  set (i := (j + (p - 1) - e)%Z).
  assert (Ht : Rabs (x * powerRZ 2 (p - 1 - e)) <= IZR (2 ^ i)).
  { rewrite Rabs_mult, (Rabs_pos_eq (powerRZ 2 _)) by apply Rlt_le, powerRZ_2_pos.
    rewrite <- powerRZ_2_nonneg_exp by lia. unfold i.
    replace (j + (p - 1) - e)%Z with (j + (p - 1 - e))%Z by lia.
    rewrite powerRZ_add by lra.
    apply Rmult_le_compat_r; [apply Rlt_le, powerRZ_2_pos | exact Hx]. }
  apply py_round_abs_le in Ht.
  rewrite Rabs_mult, (Rabs_pos_eq (powerRZ 2 _)) by apply Rlt_le, powerRZ_2_pos.
  rewrite <- abs_IZR.
  replace (powerRZ 2 j) with (IZR (2 ^ i) * powerRZ 2 (e - (p - 1))).
  - apply Rmult_le_compat_r; [apply Rlt_le, powerRZ_2_pos | apply IZR_le; lia].
  - rewrite <- powerRZ_2_nonneg_exp by lia. rewrite <- powerRZ_add by lra.
    f_equal. lia.
Qed.

(** An integer below [2^53] is a Python float, one below [2^24] a float32. *)
Lemma float64_IZR (z : Z) : (Z.abs z < 2 ^ 53)%Z -> float64 (IZR z) = IZR z.
Proof. intros Hz. unfold float64. apply round_float_IZR; lia. Qed.

Lemma float32_IZR (z : Z) : (Z.abs z < 2 ^ 24)%Z -> float32 (IZR z) = IZR z.
Proof. intros Hz. unfold float32. apply round_float_IZR; lia. Qed.

(** ** The order of the stages *)

Lemma compose_filter_cons `{Libraries} (effects : gmap string pyval) (sr : Z)
    (s : pipeline_spec.stage) (l : list pipeline_spec.stage) (w : list R) :
  pipeline_spec.compose effects sr (List.filter (pipeline_spec.enabled effects) (s :: l)) w
  = pipeline_spec.compose effects sr (List.filter (pipeline_spec.enabled effects) l)
      (if pipeline_spec.enabled effects s
       then pipeline_spec.primitive effects sr s w else w).
Proof.
  unfold pipeline_spec.compose. cbn [List.filter].
  destruct (pipeline_spec.enabled effects s); reflexivity.
Qed.

(** A primitive is the [try] block of its stage, with the input as fallback. *)
Lemma primitive_try_except `{Libraries} (effects : gmap string pyval) (sr : Z)
    (s : pipeline_spec.stage) (w : list R) :
  pipeline_spec.primitive effects sr s w
  = try_except (pipeline_spec.stage_body effects sr s w) w.
Proof. destruct s; reflexivity. Qed.

(** The chain of [apply_effects] is the composition of the enabled stages,
    taken in the canonical order. *)
Lemma effects_chain_compose `{Libraries} (effects : gmap string pyval) (sr : Z)
    (w : list R) :
  effects_chain w sr effects
  = pipeline_spec.compose effects sr
      (List.filter (pipeline_spec.enabled effects) pipeline_spec.canonical_order) w.
Proof.
  unfold pipeline_spec.canonical_order. rewrite !compose_filter_cons.
  unfold effects_chain, pipeline_spec.compose. cbn [List.filter fold_left].
  cbn [pipeline_spec.enabled pipeline_spec.primitive]. unfold has_and, dict_get.
  destruct (effects !! "pitch_shift") as [ps|];
    destruct (effects !! "speed_change") as [sc|]; reflexivity.
Qed.

(** C1: for every waveform and every configuration, [effects_chain] runs the
    enabled stages in the order pitch shift, speed change, robot, echo,
    reverb, normalize: it equals the composition, in that order, of the
    primitives of the enabled stages, and [apply_effects] saves exactly that
    composition applied to the decoded input. *)
Theorem apply_effects_canonical_order `{Libraries}
    (effects : gmap string pyval) (sr : Z) (w : list R)
    (audio_file_path output_format : string) :
  effects_chain w sr effects
    = pipeline_spec.compose effects sr
        (List.filter (pipeline_spec.enabled effects) pipeline_spec.canonical_order) w
  /\ apply_effects audio_file_path effects output_format
     = match _load_audio audio_file_path with
       | Raise e => Raise e
       | Ok (decoded, rate) =>
           _save_processed_audio
             (pipeline_spec.compose effects rate
                (List.filter (pipeline_spec.enabled effects) pipeline_spec.canonical_order)
                decoded)
             rate output_format
       end.
Proof.
  split; [apply effects_chain_compose|].
  unfold apply_effects. destruct (_load_audio audio_file_path) as [[decoded rate]|e];
    [now rewrite effects_chain_compose | reflexivity].
Qed.

(** ** Echo *)

Lemma length_zeros_like (a : list R) : length (zeros_like a) = length a.
Proof. unfold zeros_like. apply repeat_length. Qed.

Lemma length_np_scale (a : list R) (c : R) : length (np_scale a c) = length a.
Proof. unfold np_scale. apply length_map. Qed.

Lemma length_np_add (a b : list R) :
  length a = length b -> length (np_add a b) = length a.
Proof.
  unfold np_add. revert b. induction a as [|x a IH]; intros [|y b] E; simpl in *;
    try discriminate; [reflexivity|]. f_equal. apply IH. lia.
Qed.

Lemma nth_np_add (a b : list R) (i : nat) :
  length a = length b -> (i < length a)%nat ->
  nth i (np_add a b) 0 = nth i a 0 + nth i b 0.
Proof.
  unfold np_add. revert b i. induction a as [|x a IH]; intros [|y b] i E Hi; simpl in *;
    try discriminate; try lia.
  destruct i as [|i]; [reflexivity|]. apply IH; lia.
Qed.

Lemma nth_np_scale (a : list R) (c : R) (i : nat) :
  nth i (np_scale a c) 0 = nth i a 0 * c.
Proof.
  unfold np_scale. rewrite <- (map_nth (fun x => x * c) a 0 i).
  f_equal. ring.
Qed.

Lemma firstn_repeat_le {A : Type} (x : A) (k n : nat) :
  (k <= n)%nat -> firstn k (repeat x n) = repeat x k.
Proof.
  revert n. induction k as [|k IH]; intros [|n] Hk; simpl; try reflexivity; try lia.
  f_equal. apply IH. lia.
Qed.

(** The delay line built by [_apply_echo] and by each tap of [_apply_reverb],
    for a delay of at least one sample: [k] zeros (as far as the array goes),
    then the scaled head of the input. *)
Lemma delay_line (audio : list R) (d : Z) (c : R) :
  (1 <= d)%Z ->
  set_slice_from (zeros_like audio) d (np_scale (slice_upto audio (- d)) c)
  = Ok (repeat 0 (Nat.min (length audio) (Z.to_nat d))
          ++ np_scale (firstn (length audio - Z.to_nat d) audio) c).
Proof.
  intros Hd. unfold set_slice_from, slice_upto.
  rewrite length_zeros_like.
  assert (B1 : slice_bound (length audio) (- d) = (length audio - Z.to_nat d)%nat).
  { unfold slice_bound. destruct (Z.ltb_spec (- d) 0); lia. }
  assert (B2 : slice_bound (length audio) d = Nat.min (length audio) (Z.to_nat d)).
  { unfold slice_bound. destruct (Z.ltb_spec d 0); lia. }
  rewrite B1, B2, length_np_scale, length_firstn.
  replace (Nat.min (length audio - Z.to_nat d) (length audio)
           =? length audio - Nat.min (length audio) (Z.to_nat d))%nat with true
    by (symmetry; apply Nat.eqb_eq; lia).
  unfold zeros_like. rewrite firstn_repeat_le by lia.
  reflexivity.
Qed.

Lemma length_delay_line (audio : list R) (k : nat) (c : R) :
  length (repeat 0 (Nat.min (length audio) k)
            ++ np_scale (firstn (length audio - k) audio) c) = length audio.
Proof. rewrite length_app, repeat_length, length_np_scale, length_firstn. lia. Qed.

Lemma nth_delay_line (audio : list R) (k : nat) (c : R) (i : nat) :
  (i < length audio)%nat ->
  nth i (repeat 0 (Nat.min (length audio) k)
           ++ np_scale (firstn (length audio - k) audio) c) 0
  = if (i <? k)%nat then 0 else nth (i - k) audio 0 * c.
Proof.
  intros Hi. destruct (Nat.ltb_spec i k) as [Lt|Ge].
  - rewrite app_nth1 by (rewrite repeat_length; lia). apply nth_repeat.
  - rewrite app_nth2 by (rewrite repeat_length; lia).
    rewrite repeat_length, nth_np_scale, nth_firstn.
    replace (Nat.min (length audio) k) with k by lia.
    destruct (Nat.ltb_spec (i - k) (length audio - k)); [reflexivity|lia].
Qed.

(** What [_apply_echo] computes once the delay is at least one sample. *)
Lemma echo_body_delayed (w : list R) (sr : Z) (delay decay : R) :
  (1 <= py_int (fmul delay (IZR sr)))%Z ->
  echo_body w sr delay decay
  = Ok (np_add w (repeat 0 (Nat.min (length w) (Z.to_nat (py_int (fmul delay (IZR sr)))))
                    ++ np_scale (firstn (length w - Z.to_nat (py_int (fmul delay (IZR sr)))) w)
                         decay)).
Proof. intros Hd. unfold echo_body. now rewrite delay_line. Qed.

(** With a delay of zero samples the slice assignment fails on a non-empty
    array: [audio[:-0]] is empty while [delayed_audio[0:]] is the whole array. *)
Lemma echo_body_zero_delay (w : list R) (sr : Z) (delay decay : R) :
  py_int (fmul delay (IZR sr)) = 0%Z -> w <> [] ->
  exists e, echo_body w sr delay decay = Raise e.
Proof.
  intros Hd Hw. unfold echo_body. rewrite Hd. cbn [Z.opp].
  unfold set_slice_from, slice_upto, slice_bound. cbn [Z.ltb Z.compare Z.to_nat].
  rewrite Nat.min_0_r, length_zeros_like. cbn [firstn np_scale map length].
  destruct w as [|x w]; [contradiction|]. cbn. eauto.
Qed.

Lemma length_apply_echo (w : list R) (sr : Z) (delay decay : R) :
  length (_apply_echo w sr delay decay) = length w.
Proof.
  unfold _apply_echo, echo_body.
  destruct (set_slice_from _ _ _) as [dl|e] eqn:E; cbn [try_except]; [|reflexivity].
  apply length_np_add.
  unfold set_slice_from in E. rewrite length_zeros_like in E.
  set (k := slice_bound (length w) (py_int (fmul delay (IZR sr)))) in *.
  assert (Hk : (k <= length w)%nat).
  { unfold k, slice_bound. destruct (Z.ltb_spec (py_int (fmul delay (IZR sr))) 0); lia. }
  destruct (Nat.eqb_spec (length (np_scale (slice_upto w (- py_int (fmul delay (IZR sr)))) decay))
              (length w - k)) as [El|Nl].
  - inversion E; subst dl. rewrite length_app, length_firstn, length_zeros_like, El. lia.
  - destruct (np_scale _ decay) as [|x [|y r]]; try discriminate.
    inversion E; subst dl.
    rewrite length_app, length_firstn, length_zeros_like, repeat_length. lia.
Qed.

(** The value of sample [n] of [_apply_echo], for a delay of at least one sample. *)
Lemma nth_apply_echo (w : list R) (sr : Z) (delay decay : R) (n : nat) :
  (1 <= py_int (fmul delay (IZR sr)))%Z -> (n < length w)%nat ->
  nth n (_apply_echo w sr delay decay) 0
  = pipeline_spec.echo_formula w (py_int (fmul delay (IZR sr))) decay n.
Proof.
  intros Hd Hn. unfold _apply_echo. rewrite echo_body_delayed by exact Hd.
  cbn [try_except]. unfold pipeline_spec.echo_formula.
  rewrite nth_np_add by (rewrite ?length_delay_line; auto).
  rewrite nth_delay_line by exact Hn.
  destruct (Nat.ltb_spec n (Z.to_nat (py_int (fmul delay (IZR sr)))));
    destruct (Z.ltb_spec (Z.of_nat n) (py_int (fmul delay (IZR sr)))); try lia; ring.
Qed.

(** The delay of the scenario: in binary64 [0.3 * 22050] is 6615 exactly. *)
Lemma delay_samples_scenario : py_int (fmul 0.3 (IZR 22050)) = 6615%Z.
Proof.
  unfold fmul.
  float64_is (0.3) (5404319552844595 / 18014398509481984) (-2)%Z 5404319552844595%Z.
  float64_is (22050) (22050) (14)%Z 6061057848115200%Z.
  float64_is (5404319552844595 / 18014398509481984 * (22050)) (6615) (12)%Z 7273269417738240%Z.
  apply py_int_eq; lra.
Qed.

(** A delay of 0.7 s at 22050 Hz is 15434 samples: the binary64 product lies
    just below 15435. *)
Lemma delay_samples_below : py_int (fmul 0.7 (IZR 22050)) = 15434%Z.
Proof.
  unfold fmul.
  float64_is (0.7) (3152519739159347 / 4503599627370496) (-1)%Z 6305039478318694%Z.
  float64_is (22050) (22050) (14)%Z 6061057848115200%Z.
  float64_is (3152519739159347 / 4503599627370496 * (22050))
    (8485480987361279 / 549755813888) (13)%Z 8485480987361279%Z.
  apply py_int_eq; lra.
Qed.

(** C2, as amended: for every waveform, every positive sample rate and every
    valid delay and decay, Echo keeps the length of its input, and with
    [d = int(delay_s * sr)] (truncation, not rounding, of the product of the
    two floats) of at least one sample,
    [output[n] = w[n] + decay * w[n-d]] for [n >= d] and [output[n] = w[n]]
    for [n < d]; for a one-second input at 22050 Hz with [delay_s = 0.3] and
    [decay = 0.5] the output has 22050 samples and
    [output[6615] = w[6615] + 0.5 * w[0]]. *)
Theorem echo_truncated_delay (w : list R) (sr : Z) (delay decay : R) :
  (0 < sr)%Z -> 0.1 <= delay <= 2.0 -> 0.1 <= decay <= 0.9 ->
  let d := py_int (fmul delay (IZR sr)) in
  let output := _apply_echo w sr delay decay in
  length output = length w
  /\ ((1 <= d)%Z -> forall n : nat, (n < length w)%nat ->
        nth n output 0
        = if (Z.of_nat n <? d)%Z then nth n w 0
          else nth n w 0 + decay * nth (n - Z.to_nat d) w 0)
  /\ (sr = 22050%Z -> delay = 0.3 -> decay = 0.5 -> length w = Z.to_nat 22050 ->
        length output = Z.to_nat 22050
        /\ nth (Z.to_nat 6615) output 0
           = nth (Z.to_nat 6615) w 0 + 0.5 * nth (Z.to_nat 0) w 0).
Proof.
  intros Hsr Hdelay Hdecay d output.
  split; [apply length_apply_echo|]. split.
  - intros Hd n Hn. unfold output. now rewrite nth_apply_echo.
  - intros -> -> -> Hlen.
    pose proof delay_samples_scenario as E.
    split; [unfold output; now rewrite length_apply_echo|].
    unfold output. rewrite nth_apply_echo by (rewrite ?E, ?Hlen; lia).
    rewrite E. unfold pipeline_spec.echo_formula.
    destruct (Z.ltb_spec (Z.of_nat (Z.to_nat 6615)) 6615); [lia|].
    replace (Z.to_nat 6615 - Z.to_nat 6615)%nat with (Z.to_nat 0) by lia.
    reflexivity.
Qed.

Lemma echo_truncated_delay_witness :
  length (_apply_echo sine_440 22050 0.3 0.5) = Z.to_nat 22050
  /\ nth (Z.to_nat 6615) (_apply_echo sine_440 22050 0.3 0.5) 0
     = nth (Z.to_nat 6615) sine_440 0 + 0.5 * nth (Z.to_nat 0) sine_440 0.
Proof.
  apply (echo_truncated_delay sine_440 22050 0.3 0.5); try lra; try lia; try reflexivity.
Defined.

(** C2 as stated fails: at 8000 Hz a delay of 0.1001 s is 800.8 samples,
    which [int] truncates to 800 and rounding takes to 801; for an impulse,
    sample 800 of the output already holds the echo of sample 0. *)
Lemma echo_rounded_delay_counterexample :
  let w := impulse in
  let sr := 8000%Z in
  let delay := 0.1001 in
  let decay := 0.5 in
  (0 < sr)%Z /\ 0.1 <= delay <= 2.0 /\ 0.1 <= decay <= 0.9
  /\ py_int (fmul delay (IZR sr)) = 800%Z
  /\ py_round (fmul delay (IZR sr)) = 801%Z
  /\ py_round (delay * IZR sr) = 801%Z
  /\ (800 < length w)%nat
  /\ nth 800 (_apply_echo w sr delay decay) 0 = 0.5
  /\ pipeline_spec.echo_formula w (py_round (delay * IZR sr)) decay 800 = 0
  /\ nth 800 (_apply_echo w sr delay decay) 0
     <> pipeline_spec.echo_formula w (py_round (delay * IZR sr)) decay 800.
Proof.
  cbv zeta.
  assert (Ef : fmul 0.1001 (IZR 8000) = 3521955646092083 / 4398046511104).
  { unfold fmul.
    float64_is (0.1001) (3606482581598293 / 36028797018963968) (-4)%Z 7212965163196586%Z.
    float64_is (8000) (8000) (12)%Z 8796093022208000%Z.
    unfold float64. float_eval 9%Z 7043911292184166%Z. }
  assert (Er : py_round (0.1001 * IZR 8000) = 801%Z) by (apply py_round_eq; lra).
  assert (Erf : py_round (fmul 0.1001 (IZR 8000)) = 801%Z)
    by (rewrite Ef; apply py_round_eq; lra).
  assert (Ei : py_int (fmul 0.1001 (IZR 8000)) = 800%Z)
    by (rewrite Ef; apply py_int_eq; lra).
  assert (Hlen : length impulse = 1001%nat)
    by (unfold impulse; cbn [length]; now rewrite repeat_length).
  assert (H800 : nth 800 impulse 0 = 0)
    by (unfold impulse; change (nth 799 (repeat 0 1000) 0 = 0); apply nth_repeat).
  assert (H0 : nth 0 impulse 0 = 1) by reflexivity.
  assert (Hcode : nth 800 (_apply_echo impulse 8000 0.1001 0.5) 0 = 0.5).
  { rewrite nth_apply_echo; [|rewrite Ei; lia|rewrite Hlen; lia].
    rewrite Ei. unfold pipeline_spec.echo_formula.
    destruct (Z.ltb_spec (Z.of_nat 800) 800); [lia|].
    replace (800 - Z.to_nat 800)%nat with 0%nat by lia. rewrite H800, H0. lra. }
  assert (Hspec : pipeline_spec.echo_formula impulse 801 0.5 800 = 0).
  { unfold pipeline_spec.echo_formula.
    destruct (Z.ltb_spec (Z.of_nat 800) 801); [exact H800|lia]. }
  split; [lia|]. split; [lra|]. split; [lra|]. split; [exact Ei|]. split; [exact Erf|].
  split; [exact Er|].
  split; [rewrite Hlen; lia|]. split; [exact Hcode|]. rewrite Er.
  split; [exact Hspec|]. rewrite Hcode, Hspec. lra.
Qed.

(** C9: when the delay in samples, [int(delay_s * sr)] as the code computes
    it, reaches the length of the waveform, Echo returns the waveform itself,
    sample for sample. *)
Theorem echo_delay_past_end (w : list R) (sr : Z) (delay decay : R) :
  (0 < sr)%Z -> 0.1 <= delay <= 2.0 -> 0.1 <= decay <= 0.9 ->
  (Z.of_nat (length w) <= py_int (fmul delay (IZR sr)))%Z ->
  _apply_echo w sr delay decay = w.
Proof.
  intros Hsr Hdelay Hdecay Hd.
  destruct w as [|x w'] eqn:Ew.
  - unfold _apply_echo, echo_body. cbn.
    destruct (py_int (fmul delay (IZR sr))); try (cbn in Hd; lia); reflexivity.
  - rewrite <- Ew in *. assert (Hlen : (0 < length w)%nat) by (rewrite Ew; cbn; lia).
    clear Ew. apply nth_ext with (d := 0) (d' := 0); [apply length_apply_echo|].
    intros n Hn. rewrite length_apply_echo in Hn.
    rewrite nth_apply_echo by lia. unfold pipeline_spec.echo_formula.
    destruct (Z.ltb_spec (Z.of_nat n) (py_int (fmul delay (IZR sr)))); [reflexivity|lia].
Qed.

Lemma echo_delay_past_end_witness :
  _apply_echo [1; -1; 0.5] 8000 0.1 0.5 = [1; -1; 0.5].
Proof.
  apply echo_delay_past_end; try lra; try lia.
  replace (fmul 0.1 (IZR 8000)) with 800.
  - rewrite (py_int_eq 800 800) by lra. cbn. lia.
  - symmetry. unfold fmul.
    float64_is (0.1) (3602879701896397 / 36028797018963968) (-4)%Z 7205759403792794%Z.
    float64_is (8000) (8000) (12)%Z 8796093022208000%Z.
    unfold float64. float_eval 9%Z 7036874417766400%Z.
Defined.

(** ** Parameters at which a stage is the identity *)

Lemma zip_with_fst_id (f : R -> R -> R) (a c : list R) :
  (forall x y, f x y = x) -> length c = length a -> zip_with f a c = a.
Proof.
  intros Hf. revert c. induction a as [|x a IH]; intros [|y c] E; simpl in *;
    try discriminate; [reflexivity|]. rewrite Hf. f_equal. apply IH. lia.
Qed.

Lemma length_robot_carrier (len : nat) (sr : Z) (intensity : R) :
  length (robot_carrier len sr intensity) = len.
Proof. unfold robot_carrier. now rewrite !length_map, length_seq. Qed.

(** At intensity 0 the modulation term vanishes and nothing is quantized. *)
Lemma robot_voice_zero (w : list R) (sr : Z) : _apply_robot_voice w sr 0 = w.
Proof.
  unfold _apply_robot_voice, robot_voice_body.
  destruct (Rlt_dec 0.3 0) as [Lt|_]; [lra|]. cbn [try_except].
  apply zip_with_fst_id; [intros; ring | apply length_robot_carrier].
Qed.

(** A pitch shift of 0 leaves the pitch stage out, whatever else is configured. *)
Lemma pitch_shift_zero_skipped `{Libraries} (w : list R) (sr : Z)
    (effects : gmap string pyval) :
  effects !! "pitch_shift" = Some (PyFloat 0) ->
  effects_chain w sr effects = effects_chain w sr (delete "pitch_shift" effects).
Proof.
  intros E. unfold effects_chain, has_and, dict_get.
  rewrite lookup_delete_eq, !lookup_delete_ne by done. rewrite E.
  unfold py_ne. cbn [py_float]. destruct (Req_dec_T 0 0); [reflexivity|contradiction].
Qed.

(** A speed factor of 1.0 leaves the speed stage out, whatever else is configured. *)
Lemma speed_change_one_skipped `{Libraries} (w : list R) (sr : Z)
    (effects : gmap string pyval) :
  effects !! "speed_change" = Some (PyFloat 1) ->
  effects_chain w sr effects = effects_chain w sr (delete "speed_change" effects).
Proof.
  intros E. unfold effects_chain, has_and, dict_get.
  rewrite lookup_delete_eq, !lookup_delete_ne by done. rewrite E.
  unfold py_ne. cbn [py_float]. destruct (Req_dec_T 1 1); [reflexivity|contradiction].
Qed.

(** C3: for every waveform, the pipeline configured with pitch shift 0
    returns it unchanged, so does the pipeline with speed factor 1.0, and so
    does the pipeline with the robot effect at intensity 0.0, where the
    ring-modulation term vanishes and no quantization takes place. *)
Theorem identity_parameters `{Libraries} (w : list R) (sr : Z) :
  effects_chain w sr {["pitch_shift" := PyFloat 0]} = w
  /\ effects_chain w sr {["speed_change" := PyFloat 1.0]} = w
  /\ effects_chain w sr
       (<["robot_voice" := PyBool true]> {["robot_intensity" := PyFloat 0.0]}) = w
  /\ _apply_robot_voice w sr 0.0 = w.
Proof.
  assert (Z0 : 0.0 = 0) by lra. assert (O1 : 1.0 = 1) by lra. rewrite Z0, O1.
  repeat split.
  - unfold effects_chain, has_and, dict_get.
    rewrite lookup_singleton_eq, !lookup_singleton_ne by done.
    unfold py_ne. cbn [py_float]. destruct (Req_dec_T 0 0); [reflexivity|contradiction].
  - unfold effects_chain, has_and, dict_get.
    rewrite lookup_singleton_eq, !lookup_singleton_ne by done.
    unfold py_ne. cbn [py_float]. destruct (Req_dec_T 1 1); [reflexivity|contradiction].
  - unfold effects_chain, has_and, dict_get.
    rewrite lookup_insert_eq, !lookup_insert_ne by done.
    rewrite lookup_singleton_eq, !lookup_singleton_ne by done.
    cbn [truthy py_float]. apply robot_voice_zero.
  - apply robot_voice_zero.
Qed.

(** ** Normalize *)

Lemma fold_left_Rmax_spec (l : list R) (x : R) :
  let m := fold_left Rmax l x in
  (m = x \/ In m l) /\ x <= m /\ (forall y, In y l -> y <= m).
Proof.
  revert x. induction l as [|a l IH]; intros x; cbn.
  - split; [now left|]. split; [lra|]. intros y [].
  - destruct (IH (Rmax x a)) as [Hin [Hge Hall]].
    split; [|split].
    + destruct Hin as [E|I]; [|now right; right].
      rewrite E. destruct (Rmax_case x a (fun r => r = x \/ r = a)) as [E'|E'];
        auto; rewrite E'; auto.
    + pose proof (Rmax_l x a). lra.
    + intros y [->|I]; [|now apply Hall]. pose proof (Rmax_r x y). lra.
Qed.

(** [np.max] of a non-empty array is one of its elements and bounds them all. *)
Lemma np_max_spec (l : list R) :
  l <> [] -> exists m, np_max l = Ok m /\ In m l /\ (forall y, In y l -> y <= m).
Proof.
  destruct l as [|x l]; [contradiction|]. intros _.
  exists (fold_left Rmax l x). split; [reflexivity|].
  destruct (fold_left_Rmax_spec l x) as [Hin [Hge Hall]].
  split.
  - destruct Hin as [E|I]; [left; now rewrite E | now right].
  - intros y [<-|I]; [exact Hge | now apply Hall].
Qed.

Lemma np_max_unique (l : list R) (m : R) :
  In m l -> (forall y, In y l -> y <= m) -> np_max l = Ok m.
Proof.
  intros Hin Hall.
  destruct (np_max_spec l) as [m' [E [Hin' Hall']]].
  { intros ->. destruct Hin. }
  rewrite E. f_equal. apply Rle_antisym; auto.
Qed.

(** A waveform with a non-zero sample has a positive peak. *)
Lemma np_max_abs_pos (w : list R) (m : R) :
  Exists (fun x => x <> 0) w -> np_max (np_abs w) = Ok m -> 0 < m.
Proof.
  intros Hex E.
  destruct (np_max_spec (np_abs w)) as [m' [E' [_ Hall]]].
  { intros Hnil. apply List.Exists_exists in Hex as [x [Hin _]].
    destruct w; [destruct Hin | discriminate Hnil]. }
  rewrite E in E'. inversion E'; subst m'.
  apply List.Exists_exists in Hex as [x [Hin Hx]].
  assert (Rabs x <= m) by (apply Hall; unfold np_abs; now apply in_map).
  pose proof (Rabs_pos_lt x Hx). lra.
Qed.

(** The peak of a silent, non-empty waveform is 0. *)
Lemma np_max_abs_silent (w : list R) (m : R) :
  pipeline_spec.silent w -> np_max (np_abs w) = Ok m -> m = 0.
Proof.
  intros Hs E.
  destruct (np_max_spec (np_abs w)) as [m' [E' [Hin _]]].
  { intros Hnil. rewrite Hnil in E. discriminate. }
  rewrite E in E'. inversion E'; subst m'.
  unfold np_abs in Hin. apply in_map_iff in Hin as [x [<- Hx]].
  unfold pipeline_spec.silent in Hs. rewrite List.Forall_forall in Hs.
  rewrite (Hs x Hx). apply Rabs_R0.
Qed.

(** After scaling by a positive peak [m], the peak is 0.95. *)
Lemma np_max_abs_scaled (w : list R) (m : R) :
  0 < m -> np_max (np_abs w) = Ok m ->
  np_max (np_abs (map (fun x => x / m * 0.95) w)) = Ok 0.95.
Proof.
  intros Hm E.
  destruct (np_max_spec (np_abs w)) as [m' [E' [Hin Hall]]].
  { intros Hnil. rewrite Hnil in E. discriminate. }
  rewrite E in E'. inversion E'; subst m'.
  assert (Habs : forall x, Rabs (x / m * 0.95) = Rabs x / m * 0.95).
  { intros x. unfold Rdiv. rewrite !Rabs_mult, Rabs_inv.
    rewrite (Rabs_pos_eq m) by lra. rewrite (Rabs_pos_eq 0.95) by lra. reflexivity. }
  apply np_max_unique.
  - unfold np_abs in *. apply in_map_iff in Hin as [x [Ex Hx]].
    apply in_map_iff. exists (x / m * 0.95). split.
    + rewrite Habs, Ex. field. lra.
    + apply in_map_iff. now exists x.
  - intros y Hy. unfold np_abs in Hy. apply in_map_iff in Hy as [z [<- Hz]].
    apply in_map_iff in Hz as [x [<- Hx]]. rewrite Habs.
    assert (Rabs x <= m) by (apply Hall; unfold np_abs; now apply in_map).
    assert (Rabs x / m <= 1).
    { apply (Rmult_le_reg_r m); [lra|]. unfold Rdiv.
      rewrite Rmult_assoc, Rinv_l by lra. lra. }
    lra.
Qed.

Lemma normalize_silent (w : list R) : pipeline_spec.silent w -> _normalize_audio w = w.
Proof.
  intros Hs. unfold _normalize_audio, normalize_body.
  destruct (np_max (np_abs w)) as [m|e] eqn:E; [|reflexivity].
  rewrite (np_max_abs_silent w m Hs E).
  destruct (Rlt_dec 0 0); [lra|reflexivity].
Qed.

Lemma normalize_peak (w : list R) :
  Exists (fun x => x <> 0) w -> np_max (np_abs (_normalize_audio w)) = Ok 0.95.
Proof.
  intros Hex. unfold _normalize_audio, normalize_body.
  destruct (np_max (np_abs w)) as [m|e] eqn:E.
  - pose proof (np_max_abs_pos w m Hex E) as Hm.
    destruct (Rlt_dec 0 m); [|contradiction]. cbn [try_except].
    now apply np_max_abs_scaled.
  - apply List.Exists_exists in Hex as [x [Hin _]]. destruct w; [destruct Hin | discriminate E].
Qed.

Lemma normalize_idempotent (w : list R) :
  _normalize_audio (_normalize_audio w) = _normalize_audio w.
Proof.
  unfold _normalize_audio at 2 3. unfold normalize_body.
  destruct (np_max (np_abs w)) as [m|e] eqn:E; cbn [try_except].
  - destruct (Rlt_dec 0 m) as [Hm|Hm]; cbn [try_except].
    + unfold _normalize_audio, normalize_body.
      rewrite (np_max_abs_scaled w m Hm E).
      destruct (Rlt_dec 0 0.95); [|lra]. cbn [try_except].
      rewrite map_map. apply map_ext. intros x. field. lra.
    + unfold _normalize_audio, normalize_body. rewrite E.
      destruct (Rlt_dec 0 m); [contradiction|reflexivity].
  - unfold _normalize_audio, normalize_body. now rewrite E.
Qed.

(** C4: Normalize is idempotent; the largest absolute sample of a normalized
    non-silent waveform is exactly 0.95; a silent waveform is returned as it is. *)
Theorem normalize_properties :
  (forall w : list R, _normalize_audio (_normalize_audio w) = _normalize_audio w)
  /\ (forall w : list R, Exists (fun x => x <> 0) w ->
        np_max (np_abs (_normalize_audio w)) = Ok 0.95)
  /\ (forall w : list R, pipeline_spec.silent w -> _normalize_audio w = w).
Proof.
  split; [exact normalize_idempotent|]. split; [exact normalize_peak|exact normalize_silent].
Qed.

Lemma normalize_properties_witness :
  _normalize_audio (_normalize_audio [0.5; -2; 1]) = _normalize_audio [0.5; -2; 1]
  /\ np_max (np_abs (_normalize_audio [0.5; -2; 1])) = Ok 0.95
  /\ _normalize_audio [0; 0] = [0; 0].
Proof.
  destruct normalize_properties as [Hidem [Hpeak Hsilent]].
  split; [apply Hidem|]. split.
  - apply Hpeak. apply Exists_cons_hd. lra.
  - apply Hsilent. repeat constructor.
Defined.

(** ** Parameter validation *)

Lemma between_spec (lo x hi : R) : api.between lo x hi = true <-> lo <= x <= hi.
Proof.
  unfold api.between. destruct (Rle_dec lo x), (Rle_dec x hi); split;
    try discriminate; try tauto; intros [? ?]; contradiction.
Qed.

Lemma between_false (lo x hi : R) : api.between lo x hi = false <-> ~ lo <= x <= hi.
Proof.
  rewrite <- between_spec. destruct (api.between lo x hi); split;
    try discriminate; try tauto; intros N; exfalso; now apply N.
Qed.

Ltac names_only :=
  let y := fresh "y" in
  intros y; split; [destruct y; vm_compute; congruence | intros ->; reflexivity].

Ltac split_order n :=
  exists (firstn n pipeline_spec.checked_order),
         (skipn (S n) pipeline_spec.checked_order);
  split; [reflexivity|]; cbn [firstn pipeline_spec.checked_order];
  repeat (constructor; [assumption|]); constructor.

(** The checks of [validate], read off one after the other. *)
Lemma validate_cases (f : api.ApplyForm) :
  api.filename f <> EmptyString ->
  match api.validate f with
  | Some e =>
      api.status_code e = 400%Z
      /\ ((exists x, pipeline_spec.first_violation f e x)
          \/ (Forall (pipeline_spec.in_range f) pipeline_spec.checked_order
              /\ api.is_supported_format (api.output_format f) = false
              /\ forall y, pipeline_spec.names e y = false))
  | None =>
      Forall (pipeline_spec.in_range f) pipeline_spec.checked_order
      /\ api.is_supported_format (api.output_format f) = true
  end.
Proof.
  intros Hname. unfold api.validate.
  destruct (String.eqb_spec (api.filename f) EmptyString) as [E|_]; [contradiction|].
  destruct (api.between (-12) (api.pitch_shift f) 12) eqn:B1; cbn [negb];
    [apply between_spec in B1 | apply between_false in B1].
  2:{ split; [reflexivity|]. left. exists pipeline_spec.pitch_shift_semitones.
      split; [split_order 0%nat|]. split; [exact B1|names_only]. }
  destruct (api.between 0.25 (api.speed_change f) 4.0) eqn:B2; cbn [negb];
    [apply between_spec in B2 | apply between_false in B2].
  2:{ split; [reflexivity|]. left. exists pipeline_spec.speed_factor.
      split; [split_order 1%nat|]. split; [exact B2|names_only]. }
  destruct (api.between 0.0 (api.robot_intensity f) 1.0) eqn:B3; cbn [negb];
    [apply between_spec in B3 | apply between_false in B3].
  2:{ split; [reflexivity|]. left. exists pipeline_spec.robot_intensity.
      split; [split_order 2%nat|]. split; [exact B3|names_only]. }
  destruct (api.between 0.1 (api.echo_delay f) 2.0) eqn:B4; cbn [negb];
    [apply between_spec in B4 | apply between_false in B4].
  2:{ split; [reflexivity|]. left. exists pipeline_spec.echo_delay_s.
      split; [split_order 3%nat|]. split; [exact B4|names_only]. }
  destruct (api.between 0.1 (api.echo_decay f) 0.9) eqn:B5; cbn [negb];
    [apply between_spec in B5 | apply between_false in B5].
  2:{ split; [reflexivity|]. left. exists pipeline_spec.echo_decay.
      split; [split_order 4%nat|]. split; [exact B5|names_only]. }
  destruct (api.between 0.1 (api.reverb_room_size f) 1.0) eqn:B6; cbn [negb];
    [apply between_spec in B6 | apply between_false in B6].
  2:{ split; [reflexivity|]. left. exists pipeline_spec.reverb_room_size.
      split; [split_order 5%nat|]. split; [exact B6|names_only]. }
  destruct (api.between 0.1 (api.reverb_damping f) 1.0) eqn:B7; cbn [negb];
    [apply between_spec in B7 | apply between_false in B7].
  2:{ split; [reflexivity|]. left. exists pipeline_spec.reverb_damping.
      split; [split_order 6%nat|]. split; [exact B7|names_only]. }
  assert (All : Forall (pipeline_spec.in_range f) pipeline_spec.checked_order).
  { unfold pipeline_spec.checked_order.
    repeat (constructor; [assumption|]). constructor. }
  destruct (api.is_supported_format (api.output_format f)) eqn:Fm; cbn [negb].
  - now split.
  - split; [reflexivity|]. right. split; [exact All|]. split; [reflexivity|].
    intros y. destruct y; reflexivity.
Qed.

(** C5: validation checks the fields in a fixed order and reports only the
    first violated constraint, in an error that names that field, before any
    audio is processed; a pitch shift of 13 is rejected with an error naming
    the pitch shift, a pitch shift of 12 passes its check. *)
Theorem validation_fail_fast (f : api.ApplyForm) :
  api.filename f <> EmptyString ->
  (forall e, api.validate f = Some e ->
     api.status_code e = 400%Z
     /\ ((exists x, pipeline_spec.first_violation f e x)
         \/ (Forall (pipeline_spec.in_range f) pipeline_spec.checked_order
             /\ api.is_supported_format (api.output_format f) = false
             /\ forall y, pipeline_spec.names e y = false)))
  /\ (api.validate f = None <->
      Forall (pipeline_spec.in_range f) pipeline_spec.checked_order
      /\ api.is_supported_format (api.output_format f) = true)
  /\ (forall e, api.validate f = Some e ->
      forall L : Libraries, @api.apply_voice_effects L f = inl e)
  /\ (api.pitch_shift f = 13 ->
      exists e, api.validate f = Some e
                /\ pipeline_spec.names e pipeline_spec.pitch_shift_semitones = true)
  /\ (api.pitch_shift f = 12 ->
      forall e, api.validate f = Some e ->
                pipeline_spec.names e pipeline_spec.pitch_shift_semitones = false).
Proof.
  intros Hname. pose proof (validate_cases f Hname) as Hc.
  split; [|split; [|split; [|split]]].
  - intros e E. now rewrite E in Hc.
  - split.
    + intros E. now rewrite E in Hc.
    + intros [All Fm]. destruct (api.validate f) as [e|]; [|reflexivity].
      destruct Hc as [_ [[x [[before [after [Eo Hb]]] [Hx _]]]|[_ [Fm' _]]]].
      * exfalso. apply Hx. rewrite List.Forall_forall in All. apply All.
        rewrite Eo. apply in_or_app. right. now left.
      * congruence.
  - intros e E L. unfold api.apply_voice_effects. now rewrite E.
  - intros E13. unfold api.validate.
    destruct (String.eqb_spec (api.filename f) EmptyString) as [E|_]; [contradiction|].
    assert (B : api.between (-12) (api.pitch_shift f) 12 = false)
      by (apply between_false; rewrite E13; lra).
    rewrite B. cbn [negb]. eexists. split; reflexivity.
  - intros E12 e E.
    destruct (pipeline_spec.names e pipeline_spec.pitch_shift_semitones) eqn:Hn;
      [|reflexivity].
    rewrite E in Hc.
    destruct Hc as [_ [[x [_ [Hx Hnm]]]|[_ [_ Hno]]]].
    + apply Hnm in Hn. subst x. exfalso. apply Hx. cbn. rewrite E12. lra.
    + now rewrite Hno in Hn.
Qed.

Lemma validation_fail_fast_witness :
  (exists e, api.validate (form_pitch 13) = Some e
             /\ pipeline_spec.names e pipeline_spec.pitch_shift_semitones = true)
  /\ api.validate (form_pitch 12) = None.
Proof.
  assert (N : forall p, api.filename (form_pitch p) <> EmptyString) by discriminate.
  split.
  - apply (validation_fail_fast (form_pitch 13) (N 13)). reflexivity.
  - apply (validation_fail_fast (form_pitch 12) (N 12)). split; [|reflexivity].
    unfold pipeline_spec.checked_order.
    repeat (constructor; [cbn; lra|]). constructor.
Defined.

(** ** Robot voice *)

Lemma nth_zip_with_R (f : R -> R -> R) (a c : list R) (n : nat) :
  length c = length a -> (n < length a)%nat ->
  nth n (zip_with f a c) 0 = f (nth n a 0) (nth n c 0).
Proof.
  revert c n. induction a as [|x a IH]; intros [|y c] n E Hn; simpl in *;
    try discriminate; try lia.
  destruct n as [|n]; [reflexivity|]. apply IH; lia.
Qed.

Lemma nth_robot_carrier (len : nat) (sr : Z) (intensity : R) (n : nat) :
  (n < len)%nat ->
  nth n (robot_carrier len sr intensity) 0
  = sin (2 * PI * (30 + intensity * 100) * (INR n / IZR sr)).
Proof.
  intros Hn. unfold robot_carrier.
  rewrite (nth_indep _ 0 (sin (2 * PI * (30 + intensity * 100) * (INR 0 / IZR sr))))
    by (now rewrite !length_map, length_seq).
  rewrite (map_nth (fun x => sin (2 * PI * (30 + intensity * 100) * x))).
  rewrite (map_nth (fun k => INR k / IZR sr)).
  now rewrite seq_nth.
Qed.

(** The ring-modulated sample [n], before any quantization. *)
Lemma nth_ring_modulation (w : list R) (sr : Z) (intensity : R) (n : nat) :
  (n < length w)%nat ->
  nth n (zip_with (fun a c => a * (1 + intensity * c)) w
           (robot_carrier (length w) sr intensity)) 0
  = pipeline_spec.ring_modulated w sr intensity n.
Proof.
  intros Hn. rewrite nth_zip_with_R by (rewrite ?length_robot_carrier; auto).
  now rewrite nth_robot_carrier.
Qed.

Lemma robot_bit_depth_floor (intensity : R) :
  intensity <= 1 -> robot_bit_depth intensity = (8 + Zfloor ((1 - intensity) * 8))%Z.
Proof.
  intros Hi. unfold robot_bit_depth.
  destruct (py_int_nonneg (8 + (1 - intensity) * 8)) as [-> _]; [lra|].
  replace (8 + (1 - intensity) * 8) with ((1 - intensity) * 8 + IZR 8) by ring.
  rewrite Zfloor_addz. lia.
Qed.

(** C6, as amended: for every waveform, sample rate and intensity in
    [0.0, 1.0], RobotVoice ring-modulates by a sinusoidal carrier of frequency
    [30 + intensity*100] Hz, [w[n] * (1 + intensity * sin(2*pi*f_c*n/sr))];
    up to intensity 0.3 that is the output, and above 0.3 the output is this
    value quantized to a bit depth [b = int(8 + (1-intensity)*8)], that is 8
    plus the integer part of [(1-intensity)*8] (not its rounding), which lies
    between 8 and 16: the output is a multiple of [2^-(b-1)] within half such
    a step of the modulated value. *)
Theorem robot_voice_formula (w : list R) (sr : Z) (intensity : R) (n : nat) :
  0.0 <= intensity <= 1.0 -> (n < length w)%nat ->
  let output := _apply_robot_voice w sr intensity in
  let modulated := pipeline_spec.ring_modulated w sr intensity n in
  let b := robot_bit_depth intensity in
  length output = length w
  /\ (intensity <= 0.3 -> nth n output 0 = modulated)
  /\ (0.3 < intensity ->
      b = (8 + Zfloor ((1 - intensity) * 8))%Z
      /\ (8 <= b <= 16)%Z
      /\ exists k : Z,
           nth n output 0 = IZR k / powerRZ 2 (b - 1)
           /\ Rabs (IZR k - modulated * powerRZ 2 (b - 1)) <= 1 / 2).
Proof.
  intros Hi Hn output modulated b.
  assert (Hlen : length (zip_with (fun a c => a * (1 + intensity * c)) w
                           (robot_carrier (length w) sr intensity)) = length w).
  { rewrite length_zip_with, length_robot_carrier. lia. }
  unfold output, _apply_robot_voice, robot_voice_body.
  destruct (Rlt_dec 0.3 intensity) as [Hq|Hq]; cbn [try_except].
  - split; [unfold np_round, np_scale; now rewrite !length_map|].
    split; [intros; lra|]. intros _.
    assert (Hb : b = (8 + Zfloor ((1 - intensity) * 8))%Z)
      by (apply robot_bit_depth_floor; lra).
    split; [exact Hb|]. split.
    + rewrite Hb.
      assert (0 <= Zfloor ((1 - intensity) * 8))%Z by (apply (Zfloor_lub 0); lra).
      assert (Zfloor ((1 - intensity) * 8) <= Zfloor (IZR 8))%Z by (apply Zfloor_le; lra).
      rewrite ZfloorZ in *. lia.
    + exists (py_round (modulated * powerRZ 2 (b - 1))).
      split; [|apply py_round_error].
      unfold np_round, np_scale.
      rewrite (nth_indep _ 0 ((fun x => x / powerRZ 2 (b - 1))
                                (IZR (py_round (0 * powerRZ 2 (b - 1))))))
        by (rewrite !length_map, Hlen; exact Hn).
      rewrite (map_nth (fun x => x / powerRZ 2 (b - 1))).
      rewrite (map_nth (fun x => IZR (py_round x))).
      rewrite (map_nth (fun x => x * powerRZ 2 (b - 1))).
      now rewrite nth_ring_modulation.
  - split; [exact Hlen|]. split; [|intros; lra].
    intros _. now apply nth_ring_modulation.
Qed.

Lemma robot_voice_formula_witness :
  nth 1 (_apply_robot_voice [1; 2] 22050 0.25) 0
  = pipeline_spec.ring_modulated [1; 2] 22050 0.25 1
  /\ (8 <= robot_bit_depth 0.5 <= 16)%Z
  /\ exists k : Z,
       nth 1 (_apply_robot_voice [1; 2] 22050 0.5) 0
       = IZR k / powerRZ 2 (robot_bit_depth 0.5 - 1)
       /\ Rabs (IZR k - pipeline_spec.ring_modulated [1; 2] 22050 0.5 1
                         * powerRZ 2 (robot_bit_depth 0.5 - 1)) <= 1 / 2.
Proof.
  split.
  - apply (robot_voice_formula [1; 2] 22050 0.25 1); [lra | cbn; lia | lra].
  - destruct (robot_voice_formula [1; 2] 22050 0.5 1) as [_ [_ Hq]];
      [lra | cbn; lia |].
    destruct Hq as [_ [Hb Hn]]; [lra|]. split; [exact Hb | exact Hn].
Defined.

(** C6 as stated fails: at intensity 0.4 the code keeps [int(8 + 4.8) = 12]
    bits, while [8 + round((1 - 0.4) * 8)] is 13. *)
Lemma robot_bit_depth_counterexample :
  0.0 <= 0.4 <= 1.0 /\ 0.3 < 0.4
  /\ robot_bit_depth 0.4 = 12%Z
  /\ (8 + py_round ((1 - 0.4) * 8))%Z = 13%Z
  /\ robot_bit_depth 0.4 <> (8 + py_round ((1 - 0.4) * 8))%Z.
Proof.
  assert (Eb : robot_bit_depth 0.4 = 12%Z) by (apply py_int_eq; lra).
  assert (Er : py_round ((1 - 0.4) * 8) = 5%Z) by (apply py_round_eq; lra).
  split; [lra|]. split; [lra|]. split; [exact Eb|]. rewrite Eb, Er.
  split; [reflexivity|discriminate].
Qed.

(** ** Failure of a stage *)

(** A composition whose every stage raises on [w] returns [w]. *)
Lemma compose_all_raise `{Libraries} (effects : gmap string pyval) (sr : Z)
    (stages : list pipeline_spec.stage) (w : list R) :
  (forall s, In s stages -> exists e, pipeline_spec.stage_body effects sr s w = Raise e) ->
  pipeline_spec.compose effects sr stages w = w.
Proof.
  unfold pipeline_spec.compose. induction stages as [|s stages IH]; intros Hall;
    [reflexivity|]. cbn [fold_left].
  destruct (Hall s) as [e E]; [now left|].
  rewrite primitive_try_except, E. cbn [try_except].
  apply IH. intros s' Hs'. apply Hall. now right.
Qed.

(** The form fields, as the endpoint files them in the dictionary. *)
Lemma enabled_effects_of (f : api.ApplyForm) (s : pipeline_spec.stage) :
  pipeline_spec.enabled (api.effects_of f) s
  = match s with
    | pipeline_spec.PitchShift => py_ne (PyFloat (api.pitch_shift f)) 0
    | pipeline_spec.SpeedChange => py_ne (PyFloat (api.speed_change f)) 1
    | pipeline_spec.RobotVoice => api.robot_voice f
    | pipeline_spec.Echo => api.echo f
    | pipeline_spec.Reverb => api.reverb f
    | pipeline_spec.Normalize => api.normalize f
    end.
Proof.
  destruct s; unfold pipeline_spec.enabled, has_and, api.effects_of;
    rewrite ?lookup_insert_ne by done; rewrite lookup_insert_eq; reflexivity.
Qed.

(** C7, as amended: a primitive that raises does not abort the pipeline, the
    stage returns the waveform it was given and the following stages run on
    it; when every enabled stage raises the chain returns the decoded input,
    and [apply_effects] still succeeds whenever loading and saving do.  No
    stage is reported as skipped: the only report, the header
    [X-Effects-Applied] of the response, is the requested configuration. *)
Theorem stage_failure_isolated `{Libraries} (effects : gmap string pyval) (sr : Z)
    (w : list R) :
  (forall s e, pipeline_spec.stage_body effects sr s w = Raise e ->
               pipeline_spec.primitive effects sr s w = w)
  /\ ((forall s, pipeline_spec.enabled effects s = true ->
                 exists e, pipeline_spec.stage_body effects sr s w = Raise e) ->
      effects_chain w sr effects = w)
  /\ (forall audio_file_path output_format,
        _load_audio audio_file_path = Ok (w, sr) ->
        apply_effects audio_file_path effects output_format
        = _save_processed_audio (effects_chain w sr effects) sr output_format)
  /\ (forall f response,
        api.apply_voice_effects f = inr response ->
        api.x_effects_applied response = api.effects_of f).
Proof.
  split; [|split; [|split]].
  - intros s e E. now rewrite primitive_try_except, E.
  - intros Hall. rewrite effects_chain_compose. apply compose_all_raise.
    intros s Hs. apply filter_In in Hs as [_ Hen]. now apply Hall.
  - intros p fmt E. unfold apply_effects. now rewrite E.
  - intros f response. unfold api.apply_voice_effects.
    destruct (api.validate f); [discriminate|].
    destruct (NamedTemporaryFile _) as [temp_input|]; [|discriminate].
    destruct (api.apply_body f temp_input) as [r|] eqn:Eb; [|discriminate].
    intros E. inversion E; subst r. unfold api.apply_body in Eb.
    destruct (save_upload temp_input); [|discriminate].
    destruct (apply_effects _ _ _); [|discriminate].
    inversion Eb. reflexivity.
Qed.

Lemma stage_failure_isolated_witness :
  @effects_chain failing_stages [0.5; -0.25] 22050 (api.effects_of (form_pitch_only 2))
  = [0.5; -0.25].
Proof.
  apply (@stage_failure_isolated failing_stages).
  intros s. rewrite enabled_effects_of.
  destruct s; cbn [form_pitch_only api.pitch_shift api.speed_change api.robot_voice
                   api.echo api.reverb api.normalize];
    try discriminate; intros _; eexists; reflexivity.
Defined.

(** C7 as stated fails: on a request whose only enabled stage raises, the
    response is a success, the chain returned the decoded input, and yet the
    report of applied effects is not empty and lists the pitch shift as
    requested, with no mark that it was skipped. *)
Lemma applied_effects_counterexample :
  let f := form_pitch_only 2 in
  let effects := api.effects_of f in
  (forall s, pipeline_spec.enabled effects s = true ->
             exists e, @pipeline_spec.stage_body failing_stages effects 22050 s [0.5; -0.25]
                       = Raise e)
  /\ pipeline_spec.enabled effects pipeline_spec.PitchShift = true
  /\ @NamedTemporaryFile failing_stages
       (snd (@os_path_splitext failing_stages (api.filename f))) = Ok "upload"
  /\ @_load_audio failing_stages "upload" = Ok ([0.5; -0.25], 22050%Z)
  /\ @effects_chain failing_stages [0.5; -0.25] 22050 effects = [0.5; -0.25]
  /\ exists response,
       @api.apply_voice_effects failing_stages f = inr response
       /\ api.x_effects_applied response <> ∅
       /\ api.x_effects_applied response !! "pitch_shift" = Some (PyFloat 2).
Proof.
  cbv zeta.
  assert (V : api.validate (form_pitch_only 2) = None).
  { unfold api.validate, form_pitch_only. cbn [api.filename api.pitch_shift
      api.speed_change api.robot_intensity api.echo_delay api.echo_decay
      api.reverb_room_size api.reverb_damping api.output_format].
    rewrite !(proj2 (between_spec _ _ _)) by lra. reflexivity. }
  assert (Hall : forall s,
    pipeline_spec.enabled (api.effects_of (form_pitch_only 2)) s = true ->
    exists e, @pipeline_spec.stage_body failing_stages
                (api.effects_of (form_pitch_only 2)) 22050 s [0.5; -0.25] = Raise e).
  { intros s. rewrite enabled_effects_of.
    destruct s; cbn [form_pitch_only api.pitch_shift api.speed_change api.robot_voice
                     api.echo api.reverb api.normalize];
      try discriminate; intros _; eexists; reflexivity. }
  split; [exact Hall|]. split; [|split; [reflexivity|split; [reflexivity|split]]].
  - rewrite enabled_effects_of. cbn [form_pitch_only api.pitch_shift]. unfold py_ne.
    cbn [py_float]. destruct (Req_dec_T 2 0); [lra|reflexivity].
  - rewrite effects_chain_compose. apply compose_all_raise.
    intros s Hs. apply filter_In in Hs as [_ Hen]. now apply Hall.
  - unfold api.apply_voice_effects. rewrite V. eexists. split; [reflexivity|].
    cbn [api.x_effects_applied].
    assert (L : api.effects_of (form_pitch_only 2) !! "pitch_shift" = Some (PyFloat 2))
      by (unfold api.effects_of; apply lookup_insert_eq).
    split; [|exact L]. intros E. rewrite E in L. discriminate L.
Qed.

(** ** Decoding *)

Lemma str_raised_during (handled e : exn) : str (raised_during handled e) = str e.
Proof. destruct e as [m [c|]]; reflexivity. Qed.








(** ** Dynamic-range compression *)

Lemma np_sign_pos (x : R) : 0 < x -> np_sign x = 1.
Proof. intros Hx. unfold np_sign. destruct (Rlt_dec x 0), (Rlt_dec 0 x); lra. Qed.

Lemma np_sign_neg (x : R) : x < 0 -> np_sign x = -1.
Proof. intros Hx. unfold np_sign. destruct (Rlt_dec x 0); lra. Qed.

(** One sample through the compressor. *)
Lemma compress_sample (x threshold ratio : R) :
  0 < threshold -> 1 <= ratio ->
  let y := if Rlt_dec threshold (Rabs x)
           then np_sign x * (threshold + (Rabs x - threshold) / ratio)
           else x in
  np_sign y = np_sign x /\ Rabs y <= Rabs x /\ (Rabs x <= threshold -> y = x).
Proof.
  intros Ht Hr. cbv zeta.
  destruct (Rlt_dec threshold (Rabs x)) as [Hgt|Hle].
  - assert (Hq : 0 <= (Rabs x - threshold) / ratio <= Rabs x - threshold).
    { split.
      - apply Rmult_le_pos; [lra|]. apply Rlt_le, Rinv_0_lt_compat. lra.
      - apply (Rmult_le_reg_r ratio); [lra|]. unfold Rdiv.
        rewrite Rmult_assoc, Rinv_l by lra. nra. }
    destruct (Rtotal_order x 0) as [Neg|[Zero|Pos]].
    + rewrite (np_sign_neg x Neg). rewrite (Rabs_left x Neg) in *.
      split; [apply np_sign_neg; lra|]. split; [|lra].
      rewrite Rabs_left; lra.
    + subst x. rewrite Rabs_R0 in Hgt. lra.
    + rewrite (np_sign_pos x Pos). rewrite (Rabs_pos_eq x) in * by lra.
      split; [apply np_sign_pos; lra|]. split; [|lra].
      rewrite Rabs_pos_eq; lra.
  - split; [reflexivity|]. split; [lra|reflexivity].
Qed.

(** C10: for every waveform, every threshold above 0 and every ratio of at
    least 1, compression keeps the sign of each sample, never raises its
    absolute value, and leaves a sample within the threshold unchanged. *)
Theorem compression_properties (w : list R) (threshold ratio : R) (n : nat) :
  0 < threshold -> 1 <= ratio -> (n < length w)%nat ->
  let output := AudioProcessor._apply_compression w threshold ratio in
  length output = length w
  /\ np_sign (nth n output 0) = np_sign (nth n w 0)
  /\ Rabs (nth n output 0) <= Rabs (nth n w 0)
  /\ (Rabs (nth n w 0) <= threshold -> nth n output 0 = nth n w 0).
Proof.
  intros Ht Hr Hn output.
  unfold output, AudioProcessor._apply_compression, AudioProcessor.compression_body.
  cbn [try_except].
  split; [apply length_map|].
  set (f := fun x => if Rlt_dec threshold (Rabs x)
                     then np_sign x * (threshold + (Rabs x - threshold) / ratio)
                     else x).
  rewrite (nth_indep (map f w) 0 (f 0)) by (now rewrite length_map).
  rewrite (map_nth f). unfold f.
  apply (compress_sample (nth n w 0) threshold ratio Ht Hr).
Qed.

Lemma compression_properties_witness :
  np_sign (nth 1 (AudioProcessor._apply_compression [0.25; -0.9] 0.5 4.0) 0)
    = np_sign (nth 1 [0.25; -0.9] 0)
  /\ Rabs (nth 1 (AudioProcessor._apply_compression [0.25; -0.9] 0.5 4.0) 0)
     <= Rabs (nth 1 [0.25; -0.9] 0).
Proof.
  destruct (compression_properties [0.25; -0.9] 0.5 4.0 1) as [_ [Hs [Ha _]]];
    [lra | lra | cbn; lia |].
  split; [exact Hs | exact Ha].
Defined.

(** ** Echo with a delay of no sample, and the taps of the reverb *)

(** X1: when the delay comes to zero samples, the slice assignment of
    [_apply_echo] raises on any non-empty waveform ([audio[:-0]] is empty) and
    the handler returns the input: no echo is added. *)
Theorem echo_zero_delay_returns_input (w : list R) (sr : Z) (delay decay : R) :
  py_int (fmul delay (IZR sr)) = 0%Z ->
  _apply_echo w sr delay decay = w
  /\ (w <> [] -> exists e, echo_body w sr delay decay = Raise e).
Proof.
  intros Hd. split; [|now apply echo_body_zero_delay].
  destruct w as [|x w].
  - unfold _apply_echo, echo_body. rewrite Hd. reflexivity.
  - destruct (echo_body_zero_delay (x :: w) sr delay decay Hd) as [e E]; [discriminate|].
    unfold _apply_echo. now rewrite E.
Qed.

Lemma echo_zero_delay_returns_input_witness :
  _apply_echo [1; 0.5] 8 0.1 0.5 = [1; 0.5].
Proof.
  apply (echo_zero_delay_returns_input [1; 0.5] 8 0.1 0.5).
  unfold fmul.
  float64_is (0.1) (3602879701896397 / 36028797018963968) (-4)%Z 7205759403792794%Z.
  float64_is (8) (8) (3)%Z 4503599627370496%Z.
  float64_is (3602879701896397 / 36028797018963968 * (8)) (3602879701896397 / 4503599627370496) (-1)%Z 7205759403792794%Z.
  apply py_int_eq; lra.
Defined.

Lemma reverb_loop_taps (w : list R) (sr : Z) (room_size damping : R)
    (delays : list R) :
  Forall (fun delay => (1 <= py_int (fmul (fmul delay (IZR sr)) room_size))%Z) delays ->
  forall (i : nat) (acc : list R), length acc = length w ->
  exists out,
    reverb_loop w sr room_size damping acc i delays = Ok out
    /\ length out = length w
    /\ forall k, (k < length w)%nat ->
         nth k out 0
         = nth k acc 0 + pipeline_spec.reverb_taps w sr room_size damping i delays k.
Proof.
  induction 1 as [|delay rest Hd _ IH]; intros i acc Hacc.
  - exists acc. split; [reflexivity|]. split; [exact Hacc|].
    intros k _. cbn [pipeline_spec.reverb_taps]. ring.
  - cbn [reverb_loop pipeline_spec.reverb_taps]. unfold reverb_tap.
    set (d := py_int (fmul (fmul delay (IZR sr)) room_size)) in *.
    destruct (Z.ltb_spec d (Z.of_nat (length w))) as [Lt|Ge].
    + rewrite delay_line by exact Hd.
      set (line := repeat 0 (Nat.min (length w) (Z.to_nat d))
                     ++ np_scale (firstn (length w - Z.to_nat d) w)
                          ((0.7 - damping * 0.4) ^ (i + 1))).
      assert (Hline : length line = length w) by apply length_delay_line.
      destruct (IH (S i) (np_add acc line)) as [out [E [Hlen Hnth]]].
      { rewrite length_np_add; congruence. }
      exists out. split; [exact E|]. split; [exact Hlen|].
      intros k Hk. rewrite (Hnth k Hk).
      rewrite nth_np_add by (rewrite ?Hacc, ?Hline; auto; lia).
      unfold line. rewrite nth_delay_line by exact Hk.
      destruct (Nat.ltb_spec k (Z.to_nat d)); destruct (Z.ltb_spec (Z.of_nat k) d);
        try lia; ring.
    + destruct (IH (S i) acc Hacc) as [out [E [Hlen Hnth]]].
      exists out. split; [exact E|]. split; [exact Hlen|].
      intros k Hk. rewrite (Hnth k Hk).
      destruct (Z.ltb_spec (Z.of_nat k) d); [ring|lia].
Qed.

(** The taps at 8000 Hz for a room size of 0.5. *)
Lemma reverb_delays_8000 :
  map (fun delay => py_int (fmul (fmul delay (IZR 8000)) 0.5)) reverb_delays
  = [120; 200; 320; 520; 840; 1360]%Z.
Proof.
  unfold reverb_delays. cbn [map].
  assert (E1 : py_int (fmul (fmul 0.03 (IZR 8000)) 0.5) = 120%Z).
  { unfold fmul.
    float64_is (0.03) (1080863910568919 / 36028797018963968) (-6)%Z 8646911284551352%Z.
    float64_is (8000) (8000) (12)%Z 8796093022208000%Z.
    float64_is (1080863910568919 / 36028797018963968 * (8000)) (240) (7)%Z 8444249301319680%Z.
    float64_is (240) (240) (7)%Z 8444249301319680%Z.
    float64_is (0.5) (1 / 2) (-1)%Z 4503599627370496%Z.
    float64_is (240 * (1 / 2)) (120) (6)%Z 8444249301319680%Z.
    apply py_int_eq; lra. }
  assert (E2 : py_int (fmul (fmul 0.05 (IZR 8000)) 0.5) = 200%Z).
  { unfold fmul.
    float64_is (0.05) (3602879701896397 / 72057594037927936) (-5)%Z 7205759403792794%Z.
    float64_is (8000) (8000) (12)%Z 8796093022208000%Z.
    float64_is (3602879701896397 / 72057594037927936 * (8000)) (400) (8)%Z 7036874417766400%Z.
    float64_is (400) (400) (8)%Z 7036874417766400%Z.
    float64_is (0.5) (1 / 2) (-1)%Z 4503599627370496%Z.
    float64_is (400 * (1 / 2)) (200) (7)%Z 7036874417766400%Z.
    apply py_int_eq; lra. }
  assert (E3 : py_int (fmul (fmul 0.08 (IZR 8000)) 0.5) = 320%Z).
  { unfold fmul.
    float64_is (0.08) (5764607523034235 / 72057594037927936) (-4)%Z 5764607523034235%Z.
    float64_is (8000) (8000) (12)%Z 8796093022208000%Z.
    float64_is (5764607523034235 / 72057594037927936 * (8000)) (640) (9)%Z 5629499534213120%Z.
    float64_is (640) (640) (9)%Z 5629499534213120%Z.
    float64_is (0.5) (1 / 2) (-1)%Z 4503599627370496%Z.
    float64_is (640 * (1 / 2)) (320) (8)%Z 5629499534213120%Z.
    apply py_int_eq; lra. }
  assert (E4 : py_int (fmul (fmul 0.13 (IZR 8000)) 0.5) = 520%Z).
  { unfold fmul.
    float64_is (0.13) (1170935903116329 / 9007199254740992) (-3)%Z 4683743612465316%Z.
    float64_is (8000) (8000) (12)%Z 8796093022208000%Z.
    float64_is (1170935903116329 / 9007199254740992 * (8000)) (1040) (10)%Z 4573968371548160%Z.
    float64_is (1040) (1040) (10)%Z 4573968371548160%Z.
    float64_is (0.5) (1 / 2) (-1)%Z 4503599627370496%Z.
    float64_is (1040 * (1 / 2)) (520) (9)%Z 4573968371548160%Z.
    apply py_int_eq; lra. }
  assert (E5 : py_int (fmul (fmul 0.21 (IZR 8000)) 0.5) = 840%Z).
  { unfold fmul.
    float64_is (0.21) (7566047373982433 / 36028797018963968) (-3)%Z 7566047373982433%Z.
    float64_is (8000) (8000) (12)%Z 8796093022208000%Z.
    float64_is (7566047373982433 / 36028797018963968 * (8000)) (1680) (10)%Z 7388718138654720%Z.
    float64_is (1680) (1680) (10)%Z 7388718138654720%Z.
    float64_is (0.5) (1 / 2) (-1)%Z 4503599627370496%Z.
    float64_is (1680 * (1 / 2)) (840) (9)%Z 7388718138654720%Z.
    apply py_int_eq; lra. }
  assert (E6 : py_int (fmul (fmul 0.34 (IZR 8000)) 0.5) = 1360%Z).
  { unfold fmul.
    float64_is (0.34) (6124895493223875 / 18014398509481984) (-2)%Z 6124895493223875%Z.
    float64_is (8000) (8000) (12)%Z 8796093022208000%Z.
    float64_is (6124895493223875 / 18014398509481984 * (8000)) (2720) (11)%Z 5981343255101440%Z.
    float64_is (2720) (2720) (11)%Z 5981343255101440%Z.
    float64_is (0.5) (1 / 2) (-1)%Z 4503599627370496%Z.
    float64_is (2720 * (1 / 2)) (1360) (10)%Z 5981343255101440%Z.
    apply py_int_eq; lra. }
  now rewrite E1, E2, E3, E4, E5, E6.
Qed.

(** At 100 Hz and for a room size of 0.25 the first tap has no sample. *)
Lemma reverb_first_tap_100 : py_int (fmul (fmul 0.03 (IZR 100)) 0.25) = 0%Z.
Proof.
  unfold fmul.
  float64_is (0.03) (1080863910568919 / 36028797018963968) (-6)%Z 8646911284551352%Z.
  float64_is (100) (100) (6)%Z 7036874417766400%Z.
  float64_is (1080863910568919 / 36028797018963968 * (100)) (3) (1)%Z 6755399441055744%Z.
  float64_is (3) (3) (1)%Z 6755399441055744%Z.
  float64_is (0.25) (1 / 4) (-2)%Z 4503599627370496%Z.
  float64_is (3 * (1 / 4)) (3 / 4) (-1)%Z 6755399441055744%Z.
  apply py_int_eq; lra.
Qed.

(** The taps at 48000 Hz for a room size of 0.7: in binary64 the first product
    lies just below 1008. *)
Lemma reverb_delays_48000 :
  map (fun delay => py_int (fmul (fmul delay (IZR 48000)) 0.7)) reverb_delays
  = [1007; 1680; 2688; 4368; 7056; 11424]%Z.
Proof.
  unfold reverb_delays. cbn [map].
  assert (E1 : py_int (fmul (fmul 0.03 (IZR 48000)) 0.7) = 1007%Z).
  { unfold fmul.
    float64_is (0.03) (1080863910568919 / 36028797018963968) (-6)%Z 8646911284551352%Z.
    float64_is (48000) (48000) (15)%Z 6597069766656000%Z.
    float64_is (1080863910568919 / 36028797018963968 * (48000)) (1440) (10)%Z 6333186975989760%Z.
    float64_is (1440) (1440) (10)%Z 6333186975989760%Z.
    float64_is (0.7) (3152519739159347 / 4503599627370496) (-1)%Z 6305039478318694%Z.
    float64_is (1440 * (3152519739159347 / 4503599627370496)) (8866461766385663 / 8796093022208) (9)%Z 8866461766385663%Z.
    apply py_int_eq; lra. }
  assert (E2 : py_int (fmul (fmul 0.05 (IZR 48000)) 0.7) = 1680%Z).
  { unfold fmul.
    float64_is (0.05) (3602879701896397 / 72057594037927936) (-5)%Z 7205759403792794%Z.
    float64_is (48000) (48000) (15)%Z 6597069766656000%Z.
    float64_is (3602879701896397 / 72057594037927936 * (48000)) (2400) (11)%Z 5277655813324800%Z.
    float64_is (2400) (2400) (11)%Z 5277655813324800%Z.
    float64_is (0.7) (3152519739159347 / 4503599627370496) (-1)%Z 6305039478318694%Z.
    float64_is (2400 * (3152519739159347 / 4503599627370496)) (1680) (10)%Z 7388718138654720%Z.
    apply py_int_eq; lra. }
  assert (E3 : py_int (fmul (fmul 0.08 (IZR 48000)) 0.7) = 2688%Z).
  { unfold fmul.
    float64_is (0.08) (5764607523034235 / 72057594037927936) (-4)%Z 5764607523034235%Z.
    float64_is (48000) (48000) (15)%Z 6597069766656000%Z.
    float64_is (5764607523034235 / 72057594037927936 * (48000)) (3840) (11)%Z 8444249301319680%Z.
    float64_is (3840) (3840) (11)%Z 8444249301319680%Z.
    float64_is (0.7) (3152519739159347 / 4503599627370496) (-1)%Z 6305039478318694%Z.
    float64_is (3840 * (3152519739159347 / 4503599627370496)) (2688) (11)%Z 5910974510923776%Z.
    apply py_int_eq; lra. }
  assert (E4 : py_int (fmul (fmul 0.13 (IZR 48000)) 0.7) = 4368%Z).
  { unfold fmul.
    float64_is (0.13) (1170935903116329 / 9007199254740992) (-3)%Z 4683743612465316%Z.
    float64_is (48000) (48000) (15)%Z 6597069766656000%Z.
    float64_is (1170935903116329 / 9007199254740992 * (48000)) (6240) (12)%Z 6860952557322240%Z.
    float64_is (6240) (6240) (12)%Z 6860952557322240%Z.
    float64_is (0.7) (3152519739159347 / 4503599627370496) (-1)%Z 6305039478318694%Z.
    float64_is (6240 * (3152519739159347 / 4503599627370496)) (4368) (12)%Z 4802666790125568%Z.
    apply py_int_eq; lra. }
  assert (E5 : py_int (fmul (fmul 0.21 (IZR 48000)) 0.7) = 7056%Z).
  { unfold fmul.
    float64_is (0.21) (7566047373982433 / 36028797018963968) (-3)%Z 7566047373982433%Z.
    float64_is (48000) (48000) (15)%Z 6597069766656000%Z.
    float64_is (7566047373982433 / 36028797018963968 * (48000)) (10080) (13)%Z 5541538603991040%Z.
    float64_is (10080) (10080) (13)%Z 5541538603991040%Z.
    float64_is (0.7) (3152519739159347 / 4503599627370496) (-1)%Z 6305039478318694%Z.
    float64_is (10080 * (3152519739159347 / 4503599627370496)) (7056) (12)%Z 7758154045587456%Z.
    apply py_int_eq; lra. }
  assert (E6 : py_int (fmul (fmul 0.34 (IZR 48000)) 0.7) = 11424%Z).
  { unfold fmul.
    float64_is (0.34) (6124895493223875 / 18014398509481984) (-2)%Z 6124895493223875%Z.
    float64_is (48000) (48000) (15)%Z 6597069766656000%Z.
    float64_is (6124895493223875 / 18014398509481984 * (48000)) (8972014882652161 / 549755813888) (13)%Z 8972014882652161%Z.
    float64_is (8972014882652161 / 549755813888) (8972014882652161 / 549755813888) (13)%Z 8972014882652161%Z.
    float64_is (0.7) (3152519739159347 / 4503599627370496) (-1)%Z 6305039478318694%Z.
    float64_is (8972014882652161 / 549755813888 * (3152519739159347 / 4503599627370496)) (11424) (13)%Z 6280410417856512%Z.
    apply py_int_eq; lra. }
  now rewrite E1, E2, E3, E4, E5, E6.
Qed.

(** X2: when the shortest tap is at least one sample long, Reverb keeps the
    length of its input and adds to each sample, on top of the dry signal,
    the six taps at base delays 0.03, 0.05, 0.08, 0.13, 0.21 and 0.34 s, tap
    [i] delayed by [int(delay_i * sr * room_size)] samples, the products
    being those of floats, with gain [(0.7 - damping * 0.4) ^ (i + 1)]; no
    tap feeds back into another. *)
Theorem reverb_feed_forward_taps (w : list R) (sr : Z) (room_size damping : R) (k : nat) :
  Forall (fun delay => (1 <= py_int (fmul (fmul delay (IZR sr)) room_size))%Z) reverb_delays ->
  (k < length w)%nat ->
  length (_apply_reverb w sr room_size damping) = length w
  /\ nth k (_apply_reverb w sr room_size damping) 0
     = nth k w 0 + pipeline_spec.reverb_taps w sr room_size damping 0 reverb_delays k.
Proof.
  intros Hd Hk. unfold _apply_reverb, reverb_body.
  destruct (reverb_loop_taps w sr room_size damping reverb_delays Hd 0%nat w eq_refl)
    as [out [E [Hlen Hnth]]].
  rewrite E. cbn [try_except]. split; [exact Hlen | now apply Hnth].
Qed.

Lemma reverb_feed_forward_taps_witness :
  length (_apply_reverb impulse 8000 0.5 0.5) = length impulse
  /\ nth 120 (_apply_reverb impulse 8000 0.5 0.5) 0 = 0.5
  /\ nth 200 (_apply_reverb impulse 8000 0.5 0.5) 0 = 0.25.
Proof.
  pose proof reverb_delays_8000 as E. unfold reverb_delays in E. cbn [map] in E.
  injection E as E1 E2 E3 E4 E5 E6.
  assert (Hd : Forall (fun delay => (1 <= py_int (fmul (fmul delay (IZR 8000)) 0.5))%Z)
                 reverb_delays).
  { unfold reverb_delays.
    repeat (constructor; [rewrite ?E1, ?E2, ?E3, ?E4, ?E5, ?E6; lia|]). constructor. }
  assert (Hlen : length impulse = 1001%nat)
    by (unfold impulse; cbn [length]; now rewrite repeat_length).
  assert (H0 : nth 0 impulse 0 = 1) by reflexivity.
  assert (Hz : forall k, nth (S k) impulse 0 = 0)
    by (intros k; unfold impulse; cbn [nth]; apply nth_repeat).
  split; [|split].
  - apply (reverb_feed_forward_taps impulse 8000 0.5 0.5 0 Hd). rewrite Hlen. lia.
  - destruct (reverb_feed_forward_taps impulse 8000 0.5 0.5 120 Hd) as [_ ->];
      [rewrite Hlen; lia|].
    unfold reverb_delays. cbn [pipeline_spec.reverb_taps].
    rewrite E1, E2, E3, E4, E5, E6.
    repeat match goal with
           | |- context [(?a <? ?b)%Z] => destruct (Z.ltb_spec a b); try lia
           end.
    replace (120 - Z.to_nat 120)%nat with 0%nat by lia.
    rewrite H0, (Hz 119%nat). cbn [Nat.add pow]. lra.
  - destruct (reverb_feed_forward_taps impulse 8000 0.5 0.5 200 Hd) as [_ ->];
      [rewrite Hlen; lia|].
    unfold reverb_delays. cbn [pipeline_spec.reverb_taps].
    rewrite E1, E2, E3, E4, E5, E6.
    repeat match goal with
           | |- context [(?a <? ?b)%Z] => destruct (Z.ltb_spec a b); try lia
           end.
    replace (200 - Z.to_nat 120)%nat with 80%nat by lia.
    replace (200 - Z.to_nat 200)%nat with 0%nat by lia.
    rewrite H0, (Hz 199%nat), (Hz 79%nat). cbn [Nat.add pow]. lra.
Defined.

(** ** Echo and Normalize as operators on waveforms *)

Lemma np_scale_np_add (a b : list R) (c : R) :
  np_scale (np_add a b) c = np_add (np_scale a c) (np_scale b c).
Proof.
  unfold np_scale, np_add. revert b. induction a as [|x a IH]; intros [|y b]; cbn;
    try reflexivity. rewrite IH. f_equal. ring.
Qed.

Lemma np_scale_zeros (n : nat) (c : R) : np_scale (repeat 0 n) c = repeat 0 n.
Proof.
  unfold np_scale. induction n as [|n IH]; cbn; [reflexivity|].
  rewrite IH. f_equal. ring.
Qed.

Lemma np_scale_app (a b : list R) (c : R) :
  np_scale (a ++ b) c = np_scale a c ++ np_scale b c.
Proof. unfold np_scale. apply map_app. Qed.

Lemma np_scale_firstn (a : list R) (k : nat) (c : R) :
  np_scale (firstn k a) c = firstn k (np_scale a c).
Proof. unfold np_scale. symmetry. apply firstn_map. Qed.

Lemma np_scale_comm (a : list R) (c c' : R) :
  np_scale (np_scale a c) c' = np_scale (np_scale a c') c.
Proof. unfold np_scale. rewrite !map_map. apply map_ext. intros x. ring. Qed.

Lemma np_add_app (a1 a2 b1 b2 : list R) :
  length a1 = length b1 ->
  np_add (a1 ++ a2) (b1 ++ b2) = np_add a1 b1 ++ np_add a2 b2.
Proof.
  unfold np_add. revert b1. induction a1 as [|x a1 IH]; intros [|y b1] E; cbn in *;
    try discriminate; [reflexivity|]. f_equal. apply IH. lia.
Qed.

Lemma np_add_zeros (n : nat) : np_add (repeat 0 n) (repeat 0 n) = repeat 0 n.
Proof.
  unfold np_add. induction n as [|n IH]; cbn; [reflexivity|]. rewrite IH. f_equal. ring.
Qed.

Lemma np_add_firstn (a b : list R) (k : nat) :
  firstn k (np_add a b) = np_add (firstn k a) (firstn k b).
Proof.
  unfold np_add. revert a b. induction k as [|k IH]; intros [|x a] [|y b]; cbn;
    try reflexivity. now rewrite IH.
Qed.

(** Four waveforms of one length: [(a + b) + (c + d) = (a + c) + (b + d)]. *)
Lemma np_add_interchange (a b c d : list R) :
  length a = length b -> length a = length c -> length a = length d ->
  np_add (np_add a c) (np_add b d) = np_add (np_add a b) (np_add c d).
Proof.
  unfold np_add. revert b c d.
  induction a as [|x a IH]; intros [|y b] [|z c] [|t d] E1 E2 E3; cbn in *;
    try discriminate; [reflexivity|]. f_equal; [ring|]. apply IH; lia.
Qed.

Lemma echo_zero_delay_id (w : list R) (sr : Z) (delay decay : R) :
  py_int (fmul delay (IZR sr)) = 0%Z -> _apply_echo w sr delay decay = w.
Proof.
  intros Hd. destruct w as [|x w].
  - unfold _apply_echo, echo_body. rewrite Hd. reflexivity.
  - destruct (echo_body_zero_delay (x :: w) sr delay decay Hd) as [e E]; [discriminate|].
    unfold _apply_echo. now rewrite E.
Qed.

(** X3: for a delay of no less than zero samples Echo is linear: the echo of
    a waveform scaled by [c] is the echo scaled by [c], and the echo of the
    sum of two waveforms of one length is the sum of their echoes. *)
Theorem echo_linear (w w1 w2 : list R) (sr : Z) (delay decay c : R) :
  (0 <= py_int (fmul delay (IZR sr)))%Z -> length w1 = length w2 ->
  _apply_echo (np_scale w c) sr delay decay = np_scale (_apply_echo w sr delay decay) c
  /\ _apply_echo (np_add w1 w2) sr delay decay
     = np_add (_apply_echo w1 sr delay decay) (_apply_echo w2 sr delay decay).
Proof.
  intros Hd Hlen.
  destruct (Z.eq_dec (py_int (fmul delay (IZR sr))) 0%Z) as [Z0|NZ].
  - split.
    + now rewrite !echo_zero_delay_id.
    + now rewrite !echo_zero_delay_id.
  - assert (H1 : (1 <= py_int (fmul delay (IZR sr)))%Z) by lia.
    unfold _apply_echo. rewrite !echo_body_delayed by exact H1. cbn [try_except].
    set (k := Z.to_nat (py_int (fmul delay (IZR sr)))).
    split.
    + rewrite length_np_scale, np_scale_np_add, np_scale_app, np_scale_zeros.
      rewrite <- np_scale_firstn. now rewrite np_scale_comm.
    + rewrite length_np_add by exact Hlen. rewrite <- Hlen.
      rewrite np_add_firstn, np_scale_np_add.
      rewrite np_add_interchange.
      * f_equal. rewrite np_add_app by (now rewrite !repeat_length).
        now rewrite np_add_zeros.
      * exact Hlen.
      * rewrite length_app, repeat_length, length_np_scale, length_firstn. lia.
      * rewrite length_app, repeat_length, length_np_scale, length_firstn. lia.
Qed.

Lemma echo_linear_witness :
  _apply_echo (np_scale [1; 0.5; -1] 2) 10 0.1 0.5
  = np_scale (_apply_echo [1; 0.5; -1] 10 0.1 0.5) 2
  /\ _apply_echo (np_add [1; 0.5; -1] [0; 1; 1]) 10 0.1 0.5
     = np_add (_apply_echo [1; 0.5; -1] 10 0.1 0.5) (_apply_echo [0; 1; 1] 10 0.1 0.5).
Proof.
  assert (Hd : (0 <= py_int (fmul 0.1 (IZR 10)))%Z)
    by (apply py_int_nonneg, fmul_nonneg; lra).
  split.
  - apply (echo_linear [1; 0.5; -1] [1; 0.5; -1] [0; 1; 1] 10 0.1 0.5 2 Hd eq_refl).
  - apply (echo_linear [1; 0.5; -1] [1; 0.5; -1] [0; 1; 1] 10 0.1 0.5 2 Hd eq_refl).
Defined.

Lemma np_max_abs_scale (w : list R) (m c : R) :
  c <> 0 -> np_max (np_abs w) = Ok m -> np_max (np_abs (np_scale w c)) = Ok (m * Rabs c).
Proof.
  intros Hc E.
  destruct (np_max_spec (np_abs w)) as [m' [E' [Hin Hall]]].
  { intros Hnil. rewrite Hnil in E. discriminate. }
  rewrite E in E'. inversion E'; subst m'.
  apply np_max_unique.
  - unfold np_abs, np_scale in *. apply in_map_iff in Hin as [x [Ex Hx]].
    apply in_map_iff. exists (x * c). split.
    + now rewrite Rabs_mult, Ex.
    + apply in_map_iff. now exists x.
  - intros y Hy. unfold np_abs, np_scale in Hy.
    apply in_map_iff in Hy as [z [<- Hz]]. apply in_map_iff in Hz as [x [<- Hx]].
    rewrite Rabs_mult. apply Rmult_le_compat_r; [apply Rabs_pos|].
    apply Hall. unfold np_abs. now apply in_map.
Qed.

(** A waveform whose peak is not positive holds zeros only. *)
Lemma np_max_abs_not_pos (w : list R) (m : R) :
  np_max (np_abs w) = Ok m -> ~ 0 < m -> pipeline_spec.silent w.
Proof.
  intros E Hm.
  destruct (np_max_spec (np_abs w)) as [m' [E' [_ Hall]]].
  { intros Hnil. rewrite Hnil in E. discriminate. }
  rewrite E in E'. inversion E'; subst m'.
  unfold pipeline_spec.silent. apply List.Forall_forall. intros x Hx.
  assert (Rabs x <= m) by (apply Hall; unfold np_abs; now apply in_map).
  pose proof (Rabs_pos x). destruct (Req_dec_T x 0) as [->|N]; [reflexivity|].
  pose proof (Rabs_pos_lt x N). lra.
Qed.

Lemma np_scale_silent (w : list R) (c : R) :
  pipeline_spec.silent w -> np_scale w c = w.
Proof.
  unfold pipeline_spec.silent, np_scale. induction 1 as [|x w Hx _ IH]; cbn;
    [reflexivity|]. rewrite IH, Hx. f_equal. ring.
Qed.

(** Normalize of a waveform scaled by a non-zero factor. *)
Lemma normalize_scale (w : list R) (c : R) :
  c <> 0 ->
  _normalize_audio (np_scale w c) = np_scale (_normalize_audio w) (c / Rabs c).
Proof.
  intros Hc. assert (Hac : 0 < Rabs c) by now apply Rabs_pos_lt.
  unfold _normalize_audio, normalize_body.
  destruct (np_max (np_abs w)) as [m|e] eqn:E.
  - rewrite (np_max_abs_scale w m c Hc E).
    destruct (Rlt_dec 0 m) as [Hm|Hm].
    + destruct (Rlt_dec 0 (m * Rabs c)) as [_|N]; [|exfalso; apply N; nra].
      cbn [try_except]. unfold np_scale. rewrite !map_map. apply map_ext.
      intros x. field. split; lra.
    + destruct (Rlt_dec 0 (m * Rabs c)) as [P|_]; [exfalso; apply Hm; nra|].
      cbn [try_except].
      rewrite !(np_scale_silent w) by (now apply (np_max_abs_not_pos w m)).
      reflexivity.
  - destruct w as [|x w]; [reflexivity | discriminate E].
Qed.

(** X4: Normalize forgets the gain of its input and keeps its polarity: a
    waveform scaled by [c > 0] normalizes to the same output, and the negated
    waveform to the negated output. *)
Theorem normalize_gain_invariant (w : list R) (c : R) :
  0 < c ->
  _normalize_audio (np_scale w c) = _normalize_audio w
  /\ _normalize_audio (np_scale w (- c)) = np_scale (_normalize_audio w) (-1).
Proof.
  intros Hc. split.
  - rewrite normalize_scale by lra. rewrite Rabs_pos_eq by lra.
    replace (c / c) with 1 by (field; lra).
    unfold np_scale. rewrite <- (map_id (_normalize_audio w)) at 2.
    apply map_ext. intros x. ring.
  - rewrite normalize_scale by lra. rewrite Rabs_left by lra.
    replace (- c / - - c) with (-1) by (field; lra). reflexivity.
Qed.

Lemma normalize_gain_invariant_witness :
  _normalize_audio (np_scale [0.5; -0.25] 3) = _normalize_audio [0.5; -0.25].
Proof.
  apply (normalize_gain_invariant [0.5; -0.25] 3). lra.
Defined.

(** ** The number of samples *)

Lemma slice_bound_le (n : nat) (i : Z) : (slice_bound n i <= n)%nat.
Proof. unfold slice_bound. destruct (Z.ltb_spec i 0); lia. Qed.

(** A slice assignment that succeeds keeps the length of the array. *)
Lemma length_set_slice_from (dst src out : list R) (i : Z) :
  set_slice_from dst i src = Ok out -> length out = length dst.
Proof.
  unfold set_slice_from. pose proof (slice_bound_le (length dst) i) as Hk.
  destruct (Nat.eqb_spec (length src) (length dst - slice_bound (length dst) i)) as [E|N].
  - intros H. inversion H; subst out. rewrite length_app, length_firstn, E. lia.
  - destruct src as [|x [|y r]]; try discriminate.
    intros H. inversion H; subst out.
    rewrite length_app, length_firstn, repeat_length. lia.
Qed.

Lemma length_apply_robot_voice (w : list R) (sr : Z) (intensity : R) :
  length (_apply_robot_voice w sr intensity) = length w.
Proof.
  unfold _apply_robot_voice, robot_voice_body. cbn [try_except].
  assert (Hlen : length (zip_with (fun a c => a * (1 + intensity * c)) w
                           (robot_carrier (length w) sr intensity)) = length w).
  { rewrite length_zip_with, length_robot_carrier. lia. }
  destruct (Rlt_dec 0.3 intensity); [|exact Hlen].
  unfold np_round, np_scale. now rewrite !length_map.
Qed.

Lemma length_reverb_loop (w : list R) (sr : Z) (room_size damping : R)
    (delays : list R) :
  forall (i : nat) (acc out : list R), length acc = length w ->
  reverb_loop w sr room_size damping acc i delays = Ok out ->
  length out = length w.
Proof.
  induction delays as [|delay rest IH]; intros i acc out Hacc E; cbn [reverb_loop] in E.
  - inversion E; now subst out.
  - unfold reverb_tap in E.
    destruct (py_int (fmul (fmul delay (IZR sr)) room_size) <? Z.of_nat (length w))%Z.
    + destruct (set_slice_from _ _ _) as [dl|e] eqn:Es; [|discriminate].
      apply length_set_slice_from in Es. rewrite length_zeros_like in Es.
      apply (IH (S i) (np_add acc dl) out); [|exact E].
      rewrite length_np_add; congruence.
    + now apply (IH (S i) acc out).
Qed.

Lemma length_apply_reverb (w : list R) (sr : Z) (room_size damping : R) :
  length (_apply_reverb w sr room_size damping) = length w.
Proof.
  unfold _apply_reverb, reverb_body.
  destruct (reverb_loop _ _ _ _ _ _ _) as [out|e] eqn:E; cbn [try_except]; [|reflexivity].
  now apply (length_reverb_loop w sr room_size damping reverb_delays 0%nat w out).
Qed.

Lemma length_normalize_audio (w : list R) : length (_normalize_audio w) = length w.
Proof.
  unfold _normalize_audio, normalize_body.
  destruct (np_max (np_abs w)) as [m|e]; [|reflexivity].
  destruct (Rlt_dec 0 m); cbn [try_except]; [apply length_map | reflexivity].
Qed.

(** X5: when neither the pitch stage nor the speed stage is enabled, the
    pipeline returns as many samples as it was given, whatever the other
    stages and their parameters are, and whether or not one of them raises. *)
Theorem effects_chain_keeps_length `{Libraries} (w : list R) (sr : Z)
    (effects : gmap string pyval) :
  pipeline_spec.enabled effects pipeline_spec.PitchShift = false ->
  pipeline_spec.enabled effects pipeline_spec.SpeedChange = false ->
  length (effects_chain w sr effects) = length w.
Proof.
  cbn [pipeline_spec.enabled]. unfold has_and. intros Hp Hs.
  unfold effects_chain, has_and.
  destruct (effects !! "pitch_shift") as [ps|]; [rewrite Hp|];
    (destruct (effects !! "speed_change") as [sc|]; [rewrite Hs|]);
    repeat match goal with
           | |- context [match effects !! ?k with _ => _ end] => destruct (effects !! k)
           | |- context [if truthy ?v then _ else _] => destruct (truthy v)
           end;
    rewrite ?length_normalize_audio, ?length_apply_reverb, ?length_apply_echo,
      ?length_apply_robot_voice; reflexivity.
Qed.

Lemma effects_chain_keeps_length_witness :
  length (@effects_chain failing_stages [0.5; -0.25] 8000
            (<["echo" := PyBool true]> {["normalize" := PyBool true]}))
  = length [0.5; -0.25].
Proof.
  apply (@effects_chain_keeps_length failing_stages); reflexivity.
Defined.

(** ** Bounds on the robot effect *)

Lemma py_round_zero : py_round 0 = 0%Z.
Proof. apply py_round_eq. lra. Qed.

Lemma powerRZ_2_ge_128 (z : Z) : (7 <= z)%Z -> 128 <= powerRZ 2 z.
Proof.
  intros Hz. replace z with (7 + Z.of_nat (Z.to_nat (z - 7)))%Z by lia.
  rewrite powerRZ_add by lra. rewrite <- pow_powerRZ.
  assert (E : powerRZ 2 7 = 128) by (change 7%Z with (Z.of_nat 7);
    rewrite <- pow_powerRZ; simpl; lra).
  rewrite E. pose proof (pow_R1_Rle 2 (Z.to_nat (z - 7))). nra.
Qed.

(** Sample [n] of the robot effect, at any intensity. *)
Lemma nth_apply_robot_voice (w : list R) (sr : Z) (intensity : R) (n : nat) :
  (n < length w)%nat ->
  nth n (_apply_robot_voice w sr intensity) 0
  = if Rlt_dec 0.3 intensity
    then IZR (py_round (pipeline_spec.ring_modulated w sr intensity n
                        * powerRZ 2 (robot_bit_depth intensity - 1)))
         / powerRZ 2 (robot_bit_depth intensity - 1)
    else pipeline_spec.ring_modulated w sr intensity n.
Proof.
  intros Hn.
  assert (Hlen : length (zip_with (fun a c => a * (1 + intensity * c)) w
                           (robot_carrier (length w) sr intensity)) = length w).
  { rewrite length_zip_with, length_robot_carrier. lia. }
  unfold _apply_robot_voice, robot_voice_body. cbn [try_except].
  destruct (Rlt_dec 0.3 intensity); [|now apply nth_ring_modulation].
  set (M := powerRZ 2 (robot_bit_depth intensity - 1)).
  unfold np_round, np_scale.
  rewrite (nth_indep _ 0 ((fun x => x / M) (IZR (py_round (0 * M)))))
    by (rewrite !length_map, Hlen; exact Hn).
  rewrite (map_nth (fun x => x / M)), (map_nth (fun x => IZR (py_round x))).
  rewrite (map_nth (fun x => x * M)). now rewrite nth_ring_modulation.
Qed.

Lemma robot_bit_depth_ge_8 (intensity : R) :
  intensity <= 1 -> (8 <= robot_bit_depth intensity)%Z.
Proof.
  intros Hi. rewrite robot_bit_depth_floor by exact Hi.
  assert (0 <= Zfloor ((1 - intensity) * 8))%Z by (apply (Zfloor_lub 0); lra). lia.
Qed.

(** X6: for an intensity in [0, 1] the ring modulation multiplies a sample by
    a factor between [1 - intensity] and [1 + intensity], the quantization
    that follows moves it by at most 1/256, and a sample that is zero stays
    zero. *)
Theorem robot_voice_bounds (w : list R) (sr : Z) (intensity : R) (n : nat) :
  0 <= intensity <= 1 -> (n < length w)%nat ->
  let output := nth n (_apply_robot_voice w sr intensity) 0 in
  let modulated := pipeline_spec.ring_modulated w sr intensity n in
  (1 - intensity) * Rabs (nth n w 0) <= Rabs modulated <= (1 + intensity) * Rabs (nth n w 0)
  /\ Rabs (output - modulated) <= 1 / 256
  /\ (nth n w 0 = 0 -> output = 0).
Proof.
  intros Hi Hn output modulated.
  assert (Hm : (1 - intensity) * Rabs (nth n w 0) <= Rabs modulated
               <= (1 + intensity) * Rabs (nth n w 0)).
  { unfold modulated, pipeline_spec.ring_modulated.
    set (s := sin _). pose proof (SIN_bound (2 * PI * (30 + intensity * 100) * (INR n / IZR sr)))
      as [Slo Shi]. fold s in Slo, Shi.
    rewrite Rabs_mult. pose proof (Rabs_pos (nth n w 0)).
    assert (0 <= 1 + intensity * s) by nra.
    rewrite (Rabs_pos_eq (1 + intensity * s)) by assumption.
    assert (0 <= Rabs (nth n w 0) * (intensity * (1 + s)))
      by (apply Rmult_le_pos; [assumption | apply Rmult_le_pos; lra]).
    assert (0 <= Rabs (nth n w 0) * (intensity * (1 - s)))
      by (apply Rmult_le_pos; [assumption | apply Rmult_le_pos; lra]).
    split; lra. }
  split; [exact Hm|].
  unfold output. rewrite nth_apply_robot_voice by exact Hn. fold modulated.
  destruct (Rlt_dec 0.3 intensity) as [Hq|Hq].
  - set (M := powerRZ 2 (robot_bit_depth intensity - 1)).
    assert (HM : 128 <= M).
    { unfold M. apply powerRZ_2_ge_128.
      pose proof (robot_bit_depth_ge_8 intensity (proj2 Hi)). lia. }
    split.
    + replace (IZR (py_round (modulated * M)) / M - modulated)
        with ((IZR (py_round (modulated * M)) - modulated * M) / M) by (field; lra).
      unfold Rdiv. rewrite Rabs_mult, Rabs_inv, (Rabs_pos_eq M) by lra.
      pose proof (py_round_error (modulated * M)) as He.
      apply (Rmult_le_reg_r M); [lra|]. rewrite Rmult_assoc, Rinv_l by lra. lra.
    + intros Hz. unfold modulated, pipeline_spec.ring_modulated. rewrite Hz.
      rewrite !Rmult_0_l, py_round_zero. unfold Rdiv. apply Rmult_0_l.
  - split.
    + unfold Rminus. rewrite Rplus_opp_r, Rabs_R0. lra.
    + intros Hz. unfold modulated, pipeline_spec.ring_modulated. rewrite Hz. ring.
Qed.

Lemma robot_voice_bounds_witness :
  Rabs (nth 1 (_apply_robot_voice [1; 2] 22050 0.5) 0
        - pipeline_spec.ring_modulated [1; 2] 22050 0.5 1) <= 1 / 256.
Proof.
  apply (robot_voice_bounds [1; 2] 22050 0.5 1); [lra | cbn; lia].
Defined.

(** ** The shape of the compression curve *)

Lemma np_sign_mult_abs (x : R) : np_sign x * Rabs x = x.
Proof.
  unfold np_sign. destruct (Rlt_dec x 0) as [N|N].
  - rewrite Rabs_left by exact N. ring.
  - destruct (Rlt_dec 0 x) as [P|P].
    + rewrite Rabs_pos_eq by lra. ring.
    + replace x with 0 by lra. rewrite Rabs_R0. ring.
Qed.

Lemma np_sign_opp (x : R) : np_sign (- x) = - np_sign x.
Proof.
  unfold np_sign.
  destruct (Rlt_dec (- x) 0), (Rlt_dec 0 (- x)), (Rlt_dec x 0), (Rlt_dec 0 x); lra.
Qed.

(** The compression curve is non-decreasing. *)
Lemma compress_sample_monotone (x y threshold ratio : R) :
  0 <= threshold -> 0 < ratio -> x <= y ->
  (if Rlt_dec threshold (Rabs x)
   then np_sign x * (threshold + (Rabs x - threshold) / ratio) else x)
  <= (if Rlt_dec threshold (Rabs y)
      then np_sign y * (threshold + (Rabs y - threshold) / ratio) else y).
Proof.
  intros Ht Hr Hxy.
  assert (Hinv : 0 < / ratio) by now apply Rinv_0_lt_compat.
  unfold Rdiv.
  destruct (Rlt_dec threshold (Rabs x)) as [Ax|Ax];
    destruct (Rlt_dec threshold (Rabs y)) as [Ay|Ay];
    unfold np_sign;
    destruct (Rlt_dec x 0) as [Nx|Nx]; destruct (Rlt_dec 0 x) as [Px|Px];
    destruct (Rlt_dec y 0) as [Ny|Ny]; destruct (Rlt_dec 0 y) as [Py|Py];
    try lra;
    repeat match goal with
           | H : _ < 0 |- _ => rewrite (Rabs_left _ H) in *
           | H : 0 < ?z |- _ => rewrite (Rabs_pos_eq z (Rlt_le _ _ H)) in *
           end;
    try (replace x with 0 in * by lra; rewrite ?Rabs_R0 in * );
    try (replace y with 0 in * by lra; rewrite ?Rabs_R0 in * );
    try lra; try nra.
Qed.

(** X7: the compression curve is odd (compressing the negated waveform
    negates the output) and at ratio 1 it is the identity; for a threshold of
    at least 0 and a ratio above 0 it is non-decreasing, so the order of any
    two samples is kept. *)
Theorem compression_curve (w : list R) (threshold ratio : R) (i j : nat) :
  0 <= threshold -> 0 < ratio -> (i < length w)%nat -> (j < length w)%nat ->
  AudioProcessor._apply_compression (np_scale w (-1)) threshold ratio
    = np_scale (AudioProcessor._apply_compression w threshold ratio) (-1)
  /\ AudioProcessor._apply_compression w threshold 1 = w
  /\ (nth i w 0 <= nth j w 0 ->
      nth i (AudioProcessor._apply_compression w threshold ratio) 0
      <= nth j (AudioProcessor._apply_compression w threshold ratio) 0).
Proof.
  intros Ht Hr Hi Hj.
  unfold AudioProcessor._apply_compression, AudioProcessor.compression_body.
  cbn [try_except]. split; [|split].
  - unfold np_scale. rewrite !map_map. apply map_ext. intros x.
    replace (x * -1) with (- x) by ring. rewrite Rabs_Ropp, np_sign_opp.
    destruct (Rlt_dec threshold (Rabs x)); ring.
  - rewrite <- (map_id w) at 2. apply map_ext. intros x.
    destruct (Rlt_dec threshold (Rabs x)); [|reflexivity].
    replace (threshold + (Rabs x - threshold) / 1) with (Rabs x) by field.
    apply np_sign_mult_abs.
  - intros Hle.
    set (f := fun x => if Rlt_dec threshold (Rabs x)
                       then np_sign x * (threshold + (Rabs x - threshold) / ratio)
                       else x).
    rewrite !(nth_indep (map f w) 0 (f 0)) by (now rewrite length_map).
    rewrite !(map_nth f). unfold f. now apply compress_sample_monotone.
Qed.

Lemma compression_curve_witness :
  nth 0 (AudioProcessor._apply_compression [-0.9; 0.7] 0.5 4.0) 0
  <= nth 1 (AudioProcessor._apply_compression [-0.9; 0.7] 0.5 4.0) 0.
Proof.
  apply (compression_curve [-0.9; 0.7] 0.5 4.0 0 1); try lra; cbn; try lia; lra.
Defined.

(** ** Reverb on short clips and with a tap of no sample *)

Lemma zero_delay_line_raises (w : list R) (c : R) :
  w <> [] ->
  exists e, set_slice_from (zeros_like w) 0 (np_scale (slice_upto w (- 0)) c) = Raise e.
Proof.
  intros Hw. cbn [Z.opp].
  unfold set_slice_from, slice_upto, slice_bound. cbn [Z.ltb Z.compare Z.to_nat].
  rewrite Nat.min_0_r, length_zeros_like. cbn [firstn np_scale map length].
  destruct w as [|x w]; [contradiction|]. cbn. eauto.
Qed.

Lemma reverb_loop_zero_tap (w : list R) (sr : Z) (room_size damping : R)
    (delays : list R) :
  w <> [] ->
  Exists (fun delay => py_int (fmul (fmul delay (IZR sr)) room_size) = 0%Z) delays ->
  forall (i : nat) (acc : list R),
  exists e, reverb_loop w sr room_size damping acc i delays = Raise e.
Proof.
  intros Hw. induction 1 as [delay rest Hz|delay rest _ IH]; intros i acc;
    cbn [reverb_loop].
  - unfold reverb_tap. rewrite Hz.
    destruct (Z.ltb_spec 0 (Z.of_nat (length w))) as [_|Hlen];
      [|destruct w; [contradiction | cbn in Hlen; lia]].
    destruct (zero_delay_line_raises w ((0.7 - damping * 0.4) ^ (i + 1)) Hw) as [e E].
    rewrite E. eauto.
  - destruct (reverb_tap w sr room_size damping acc i delay) as [acc'|e]; [apply IH | eauto].
Qed.

Lemma reverb_loop_long_taps (w : list R) (sr : Z) (room_size damping : R)
    (delays : list R) :
  Forall (fun delay => (Z.of_nat (length w) <= py_int (fmul (fmul delay (IZR sr)) room_size))%Z)
    delays ->
  forall (i : nat) (acc : list R),
  reverb_loop w sr room_size damping acc i delays = Ok acc.
Proof.
  induction 1 as [|delay rest Hd _ IH]; intros i acc; cbn [reverb_loop]; [reflexivity|].
  unfold reverb_tap.
  destruct (Z.ltb_spec (py_int (fmul (fmul delay (IZR sr)) room_size)) (Z.of_nat (length w)));
    [lia | apply IH].
Qed.

(** X8: Reverb returns its input unchanged in two cases: when every tap,
    [int(delay_i * sr * room_size)] samples with the products of floats, is
    at least as long as the waveform (no tap is added), and when some tap
    comes to zero samples on a non-empty waveform; there the slice assignment
    raises and the handler drops the taps already added. *)
Theorem reverb_returns_input (w : list R) (sr : Z) (room_size damping : R) :
  (Forall (fun delay => (Z.of_nat (length w) <= py_int (fmul (fmul delay (IZR sr)) room_size))%Z)
     reverb_delays ->
   _apply_reverb w sr room_size damping = w)
  /\ (w <> [] ->
      Exists (fun delay => py_int (fmul (fmul delay (IZR sr)) room_size) = 0%Z) reverb_delays ->
      _apply_reverb w sr room_size damping = w
      /\ exists e, reverb_body w sr room_size damping = Raise e).
Proof.
  split.
  - intros Hlong. unfold _apply_reverb, reverb_body.
    now rewrite (reverb_loop_long_taps w sr room_size damping reverb_delays Hlong).
  - intros Hw Hz.
    destruct (reverb_loop_zero_tap w sr room_size damping reverb_delays Hw Hz 0%nat w)
      as [e E].
    unfold _apply_reverb, reverb_body. rewrite E. cbn [try_except]. eauto.
Qed.

Lemma reverb_returns_input_witness :
  _apply_reverb [1; 0.5] 8000 0.5 0.5 = [1; 0.5]
  /\ _apply_reverb [1; 0.5] 100 0.25 0.5 = [1; 0.5].
Proof.
  split.
  - destruct (reverb_returns_input [1; 0.5] 8000 0.5 0.5) as [Hlong _].
    apply Hlong.
    pose proof reverb_delays_8000 as E. unfold reverb_delays in E. cbn [map] in E.
    injection E as E1 E2 E3 E4 E5 E6.
    unfold reverb_delays. change (Z.of_nat (length [1; 0.5])) with 2%Z.
    repeat (constructor; [rewrite ?E1, ?E2, ?E3, ?E4, ?E5, ?E6; lia|]). constructor.
  - destruct (reverb_returns_input [1; 0.5] 100 0.25 0.5) as [_ Hzero].
    apply Hzero; [discriminate|].
    apply Exists_cons_hd. exact reverb_first_tap_100.
Defined.

(** ** Removing silence *)

Lemma np_select_map {A : Type} (p : A -> bool) (a : list A) :
  np_select a (map p a) = List.filter p a.
Proof. induction a as [|x a IH]; cbn; [reflexivity|]. rewrite IH. reflexivity. Qed.

Lemma np_any_map {A : Type} (p : A -> bool) (a : list A) :
  np_any (map p a) = existsb p a.
Proof. unfold np_any. induction a as [|x a IH]; cbn; [reflexivity|]. now rewrite IH. Qed.

(** [_remove_silence] keeps the loud samples, or everything when none is loud. *)
Lemma remove_silence_filter (w : list R) (sr : Z) (threshold : R) :
  audio_processing._remove_silence w sr threshold
  = if existsb (loud threshold) w then List.filter (loud threshold) w else w.
Proof.
  unfold audio_processing._remove_silence, audio_processing.remove_silence_body, np_abs.
  rewrite map_map. change (fun x => if Rlt_dec threshold (Rabs x) then true else false)
    with (loud threshold).
  rewrite np_any_map, np_select_map. now destruct (existsb (loud threshold) w).
Qed.

Lemma filter_sublist {A : Type} (p : A -> bool) (l : list A) :
  sublist (List.filter p l) l.
Proof.
  induction l as [|x l IH]; cbn; [constructor|].
  destruct (p x); now constructor.
Qed.

Lemma filter_filter_same {A : Type} (p : A -> bool) (l : list A) :
  List.filter p (List.filter p l) = List.filter p l.
Proof.
  induction l as [|x l IH]; cbn; [reflexivity|].
  destruct (p x) eqn:E; cbn; rewrite ?E, IH; reflexivity.
Qed.

Lemma existsb_filter_same {A : Type} (p : A -> bool) (l : list A) :
  existsb p (List.filter p l) = existsb p l.
Proof.
  induction l as [|x l IH]; cbn; [reflexivity|].
  destruct (p x) eqn:E; cbn; rewrite ?E, IH; reflexivity.
Qed.

(** X9: [_remove_silence] only drops samples: its output is a subsequence
    of the input, never empty for a non-empty input, and removing silence
    twice changes nothing more; when some sample exceeds the threshold in
    absolute value every sample kept does, and when none does the waveform
    is returned whole. *)
Theorem remove_silence_properties (w : list R) (sr : Z) (threshold : R) :
  let output := audio_processing._remove_silence w sr threshold in
  sublist output w
  /\ (w <> [] -> output <> [])
  /\ audio_processing._remove_silence output sr threshold = output
  /\ (Exists (fun x => threshold < Rabs x) w ->
      output = List.filter (loud threshold) w
      /\ Forall (fun x => threshold < Rabs x) output)
  /\ (Forall (fun x => Rabs x <= threshold) w -> output = w).
Proof.
  cbv zeta. rewrite !remove_silence_filter.
  destruct (existsb (loud threshold) w) eqn:Ex.
  - rewrite existsb_filter_same, Ex, filter_filter_same.
    split; [apply filter_sublist|]. split.
    + intros _ Hnil. apply existsb_exists in Ex as [x [Hin Hx]].
      assert (Hf : In x (List.filter (loud threshold) w)) by (apply filter_In; auto).
      rewrite Hnil in Hf. destruct Hf.
    + split; [reflexivity|]. split.
      * intros _. split; [reflexivity|]. apply List.Forall_forall. intros x Hx.
        apply filter_In in Hx as [_ Hx]. unfold loud in Hx.
        destruct (Rlt_dec threshold (Rabs x)); [assumption|discriminate].
      * intros Hq. apply existsb_exists in Ex as [x [Hin Hx]].
        rewrite List.Forall_forall in Hq. specialize (Hq x Hin). unfold loud in Hx.
        destruct (Rlt_dec threshold (Rabs x)); [lra|discriminate].
  - rewrite Ex. split; [reflexivity|]. split; [auto|]. split; [reflexivity|]. split.
    + intros Hex. apply List.Exists_exists in Hex as [x [Hin Hx]].
      assert (existsb (loud threshold) w = true).
      { apply existsb_exists. exists x. split; [assumption|]. unfold loud.
        destruct (Rlt_dec threshold (Rabs x)); [reflexivity|contradiction]. }
      congruence.
    + reflexivity.
Qed.

(** ** Normalizing to a target level *)

Lemma np_sum_square_scale (a : list R) (c : R) :
  np_sum (np_square (np_scale a c)) = c * c * np_sum (np_square a).
Proof.
  unfold np_sum, np_square, np_scale. induction a as [|x a IH]; cbn; [ring|].
  rewrite IH. ring.
Qed.

Lemma np_sum_square_nonneg (a : list R) : 0 <= np_sum (np_square a).
Proof.
  unfold np_sum, np_square. induction a as [|x a IH]; cbn; [lra|]. nra.
Qed.

Lemma np_mean_square_nonneg (a : list R) : 0 <= np_mean (np_square a).
Proof.
  unfold np_mean. unfold np_square at 2. rewrite length_map.
  destruct a as [|x a].
  - cbn. unfold Rdiv. rewrite Rmult_0_l. lra.
  - apply Rmult_le_pos; [apply np_sum_square_nonneg|].
    apply Rlt_le, Rinv_0_lt_compat, lt_0_INR. cbn. lia.
Qed.

(** The level of a scaled waveform. *)
Lemma rms_scale (a : list R) (c : R) : 0 <= c -> rms (np_scale a c) = c * rms a.
Proof.
  intros Hc. unfold rms, np_mean.
  rewrite np_sum_square_scale. unfold np_square at 2 4. rewrite !length_map.
  unfold np_scale at 1. rewrite length_map.
  replace (c * c * np_sum (np_square a) / INR (length a))
    with (c * c * (np_sum (np_square a) / INR (length a))) by (unfold Rdiv; ring).
  pose proof (np_mean_square_nonneg a) as Hm. unfold np_mean in Hm.
  unfold np_square at 2 in Hm. rewrite length_map in Hm.
  rewrite sqrt_mult by nra. now rewrite sqrt_square.
Qed.

Lemma Rpower_10_pos (x : R) : 0 < Rpower 10 x.
Proof. unfold Rpower. apply exp_pos. Qed.

Lemma np_scale_np_scale (a : list R) (c c' : R) :
  np_scale (np_scale a c) c' = np_scale a (c * c').
Proof. unfold np_scale. rewrite map_map. apply map_ext. intros x. ring. Qed.

(** The samples of a waveform within its peak. *)
Lemma np_max_abs_bound (a : list R) (m : R) :
  np_max (np_abs a) = Ok m -> Forall (fun x => Rabs x <= m) a.
Proof.
  intros E.
  destruct (np_max_spec (np_abs a)) as [m' [E' [_ Hall]]].
  { intros Hnil. rewrite Hnil in E. discriminate. }
  rewrite E in E'. inversion E'; subst m'.
  apply List.Forall_forall. intros x Hx. apply Hall. unfold np_abs. now apply in_map.
Qed.

Lemma np_max_abs_nonneg (a : list R) (m : R) : np_max (np_abs a) = Ok m -> 0 <= m.
Proof.
  intros E.
  destruct (np_max_spec (np_abs a)) as [m' [E' [Hin _]]].
  { intros Hnil. rewrite Hnil in E. discriminate. }
  rewrite E in E'. inversion E'; subst m'.
  unfold np_abs in Hin. apply in_map_iff in Hin as [x [<- _]]. apply Rabs_pos.
Qed.

(** X10: [normalize_audio] writes at most once; what it writes is the loaded
    waveform times a positive gain, with every sample within 0.95 in absolute
    value and a level (root mean square) no higher than the target
    [10 ** (target_db / 20)], equal to it when the target gain brings no
    sample above 0.95; when nothing is written the input path is returned. *)
Theorem normalize_audio_level `{Libraries} `{Files} (sample_rate : Z)
    (audio_path : string) (target_db : R) :
  let target_rms := Rpower 10 (target_db / 20.0) in
  match audio_processing.normalize_audio sample_rate audio_path target_db with
  | (returned, []) => returned = audio_path
  | (returned, [(output_path, written, sr)]) =>
      exists audio gain,
        librosa_load audio_path (Some sample_rate) true = Ok (audio, sr)
        /\ 0 < gain /\ written = np_scale audio gain
        /\ Forall (fun x => Rabs x <= 0.95) written
        /\ rms written <= target_rms
        /\ (Forall (fun x => Rabs x * (target_rms / rms audio) <= 0.95) audio ->
            rms written = target_rms)
        /\ (returned = output_path \/ returned = audio_path)
  | _ => False
  end.
Proof.
  cbv zeta. unfold audio_processing.normalize_audio.
  destruct (librosa_load audio_path (Some sample_rate) true) as [[audio sr]|e];
    [|reflexivity].
  destruct (Rlt_dec 0 (rms audio)) as [Hr|Hr]; [|reflexivity].
  set (target_rms := Rpower 10 (target_db / 20.0)).
  assert (Ht : 0 < target_rms) by apply Rpower_10_pos.
  assert (Hg : 0 < target_rms / rms audio) by (apply Rdiv_lt_0_compat; assumption).
  assert (Hn : rms (np_scale audio (target_rms / rms audio)) = target_rms).
  { rewrite rms_scale by lra. field. lra. }
  destruct (np_max (np_abs (np_scale audio (target_rms / rms audio)))) as [max_val|e] eqn:Em;
    [|reflexivity].
  pose proof (np_max_abs_bound _ _ Em) as Hb.
  pose proof (np_max_abs_nonneg _ _ Em) as Hm0.
  destruct (Rlt_dec 0.95 max_val) as [Hc|Hc].
  - assert (Hk : 0 < 0.95 / max_val) by (apply Rdiv_lt_0_compat; lra).
    assert (Hw : exists audio0 gain,
      Ok (audio, sr) = Ok (audio0, sr)
      /\ 0 < gain
      /\ np_scale (np_scale audio (target_rms / rms audio)) (0.95 / max_val)
         = np_scale audio0 gain
      /\ Forall (fun x => Rabs x <= 0.95)
           (np_scale (np_scale audio (target_rms / rms audio)) (0.95 / max_val))
      /\ rms (np_scale (np_scale audio (target_rms / rms audio)) (0.95 / max_val))
         <= target_rms
      /\ (Forall (fun x => Rabs x * (target_rms / rms audio) <= 0.95) audio ->
          rms (np_scale (np_scale audio (target_rms / rms audio)) (0.95 / max_val))
          = target_rms)).
    { exists audio, (target_rms / rms audio * (0.95 / max_val)).
      split; [reflexivity|]. split; [apply Rmult_lt_0_compat; assumption|].
      split; [apply np_scale_np_scale|]. split; [|split].
      - unfold np_scale at 1. apply List.Forall_forall. intros y Hy.
        apply in_map_iff in Hy as [x [<- Hx]].
        rewrite List.Forall_forall in Hb. specialize (Hb x Hx).
        rewrite Rabs_mult, (Rabs_pos_eq (0.95 / max_val)) by lra.
        replace 0.95 with (max_val * (0.95 / max_val)) at 2 by (field; lra).
        apply Rmult_le_compat_r; lra.
      - rewrite rms_scale by lra. rewrite Hn.
        assert (0.95 / max_val <= 1).
        { apply (Rmult_le_reg_r max_val); [lra|]. unfold Rdiv.
          rewrite Rmult_assoc, Rinv_l by lra. lra. }
        nra.
      - intros Hfit. exfalso.
        destruct (np_max_spec (np_abs (np_scale audio (target_rms / rms audio))))
          as [m' [E' [Hin _]]].
        { intros Hnil. rewrite Hnil in Em. discriminate. }
        rewrite Em in E'. inversion E'; subst m'.
        unfold np_abs, np_scale in Hin. rewrite map_map in Hin.
        apply in_map_iff in Hin as [x [Ex Hx]].
        rewrite List.Forall_forall in Hfit. specialize (Hfit x Hx).
        rewrite Rabs_mult, (Rabs_pos_eq (target_rms / rms audio)) in Ex by lra. lra. }
    destruct Hw as [audio0 [gain [E0 [G0 [W0 [B0 [R0 F0]]]]]]]. inversion E0; subst audio0.
    destruct (sf_write _ _ sr); exists audio, gain; repeat split; auto.
  - assert (Hw : Forall (fun x => Rabs x <= 0.95)
                   (np_scale audio (target_rms / rms audio))).
    { apply List.Forall_forall. intros x Hx. rewrite List.Forall_forall in Hb.
      specialize (Hb x Hx). lra. }
    destruct (sf_write _ _ sr); exists audio, (target_rms / rms audio);
      repeat split; auto; lra.
Qed.

(** ** Validating an audio file *)

Lemma np_max_abs_exceeds (a : list R) (m t : R) :
  np_max (np_abs a) = Ok m -> (t < m <-> Exists (fun x => t < Rabs x) a).
Proof.
  intros E.
  destruct (np_max_spec (np_abs a)) as [m' [E' [Hin Hall]]].
  { intros Hnil. rewrite Hnil in E. discriminate. }
  rewrite E in E'. inversion E'; subst m'. split.
  - intros Ht. unfold np_abs in Hin. apply in_map_iff in Hin as [x [Ex Hx]].
    apply List.Exists_exists. exists x. split; [assumption|]. lra.
  - intros Hex. apply List.Exists_exists in Hex as [x [Hx Ht]].
    assert (Rabs x <= m) by (apply Hall; unfold np_abs; now apply in_map). lra.
Qed.

(** X11: a full report of [validate_audio_file] is marked valid exactly when
    the duration lies between 0.1 s and the maximal length, the sample rate
    is at least 8000 Hz and some sample exceeds 0.001 in absolute value; it
    carries an error exactly when it is not valid, and the error can list no
    check but those three: an empty file never yields a report, it is turned
    down with the error numpy raises on an empty array. *)
Theorem validate_audio_file_report `{Libraries} `{Files} (MAX_AUDIO_LENGTH : Z)
    (file_path : string) :
  match audio_processing.validate_audio_file MAX_AUDIO_LENGTH file_path with
  | audio_processing.Invalid _ => True
  | audio_processing.Report valid duration sr channels checks file_size error =>
      exists audio,
        librosa_load file_path None true = Ok (audio, sr)
        /\ audio <> []
        /\ duration = INR (length audio) / IZR sr
        /\ channels = 1%Z
        /\ (valid = true <->
            0.1 <= duration <= IZR MAX_AUDIO_LENGTH /\ (8000 <= sr)%Z
            /\ Exists (fun x => 0.001 < Rabs x) audio)
        /\ (error = None <-> valid = true)
        /\ (forall name, In name (audio_processing.failed_checks checks) ->
              name = "duration_valid" \/ name = "sample_rate_valid"
              \/ name = "not_silent")
  end
  /\ (forall sr, librosa_load file_path None true = Ok ([], sr) ->
      exists error,
        audio_processing.validate_audio_file MAX_AUDIO_LENGTH file_path
        = audio_processing.Invalid error).
Proof.
  unfold audio_processing.validate_audio_file. split.
  - destruct (path_exists file_path) eqn:Ex; cbn [negb]; [|exact I].
    destruct (librosa_load file_path None true) as [[audio sr]|e] eqn:El; [|exact I].
    destruct (sr =? 0)%Z; [exact I|].
    destruct (np_max (np_abs audio)) as [peak|e] eqn:Em; [|exact I].
    destruct (stat_st_size file_path) as [size|e]; [|exact I].
    assert (Hne : audio <> []) by (intros ->; discriminate Em).
    assert (Hlen : (0 <? length audio)%nat = true)
      by (apply Nat.ltb_lt; destruct audio; [contradiction | cbn; lia]).
    exists audio. split; [reflexivity|]. split; [exact Hne|].
    split; [reflexivity|]. split; [reflexivity|].
    cbn [forallb snd]. rewrite Hlen.
    pose proof (between_spec 0.1 (INR (length audio) / IZR sr) (IZR MAX_AUDIO_LENGTH)) as Hb.
    pose proof (np_max_abs_exceeds audio peak 0.001 Em) as Hp.
    destruct (api.between 0.1 (INR (length audio) / IZR sr) (IZR MAX_AUDIO_LENGTH));
      destruct (Z.leb_spec 8000 sr); destruct (Rlt_dec 0.001 peak) as [P|P];
      cbn [andb negb]; (split; [|split]).
    all: try (split; intros Hx; first [reflexivity | discriminate Hx]).
    all: try (unfold audio_processing.failed_checks;
              cbn [List.filter snd negb map fst]; intros name Hin;
              repeat (destruct Hin as [<-|Hin]; [auto|]); destruct Hin).
    all: split;
      [intros Hv; first [discriminate Hv
                        |split; [now apply Hb | split; [assumption | now apply Hp]]]
      |intros [Hd [Hs Hx]];
       first [reflexivity | apply Hb in Hd; discriminate Hd | lia
             | apply Hp in Hx; contradiction]].
  - intros sr El. rewrite El.
    destruct (path_exists file_path); cbn [negb]; [|eauto].
    destruct (sr =? 0)%Z; [eauto|]. cbn. eauto.
Qed.

(** ** The preview endpoint *)

Lemma validate_preview_accepts (p : api_routes.PreviewForm) :
  api_routes.validate_preview p = None <->
  Forall (pipeline_spec.in_range (api_routes.fields p)) pipeline_spec.checked_order
  /\ 5.0 <= api_routes.duration_limit p <= 60.0.
Proof.
  unfold api_routes.validate_preview, pipeline_spec.checked_order. split.
  - intros E.
    repeat match type of E with
           | context [api.between ?a ?b ?c] =>
               let B := fresh "B" in
               destruct (api.between a b c) eqn:B; cbn [negb] in E;
               [apply between_spec in B | discriminate E]
           end.
    split; [repeat (constructor; [assumption|]); constructor | assumption].
  - intros [Hall Hd].
    repeat match goal with
           | H : Forall _ (_ :: _) |- _ => inversion H; clear H; subst
           end.
    cbn [pipeline_spec.in_range] in *.
    rewrite !(proj2 (between_spec _ _ _)) by assumption. reflexivity.
Qed.

(** X12: the preview makes the seven range checks of [/apply], in the same
    order and with the same errors, then checks that the duration limit lies
    in [5, 60]; it accepts a request exactly when all eight hold, and looks
    at neither the file name nor an output format. *)
Theorem preview_validation (p : api_routes.PreviewForm) :
  (api.filename (api_routes.fields p) <> EmptyString ->
   api.is_supported_format (api.output_format (api_routes.fields p)) = true ->
   api_routes.validate_preview p
   = match api.validate (api_routes.fields p) with
     | Some e => Some e
     | None =>
         if api.between 5.0 (api_routes.duration_limit p) 60.0 then None
         else Some (api.mkHTTPException 400
                      "Duration limit must be between 5 and 60 seconds")
     end)
  /\ (api_routes.validate_preview p = None <->
      Forall (pipeline_spec.in_range (api_routes.fields p)) pipeline_spec.checked_order
      /\ 5.0 <= api_routes.duration_limit p <= 60.0).
Proof.
  split.
  - intros Hname Hfmt. unfold api_routes.validate_preview, api.validate.
    destruct (String.eqb_spec (api.filename (api_routes.fields p)) EmptyString);
      [contradiction|].
    rewrite Hfmt. cbn [negb].
    repeat match goal with
           | |- context [api.between ?a ?b ?c] => destruct (api.between a b c); cbn [negb]
           end; reflexivity.
  - apply validate_preview_accepts.
Qed.

(** What the preview keeps of a decoded waveform: its first [m] samples. *)
Lemma preview_cut (audio : list R) (m : Z) :
  (0 <= m)%Z ->
  (if (m <? Z.of_nat (length audio))%Z then slice_upto audio m else audio)
  = firstn (Z.to_nat m) audio.
Proof.
  intros Hm. destruct (Z.ltb_spec m (Z.of_nat (length audio))) as [Lt|Ge].
  - unfold slice_upto, slice_bound. destruct (Z.ltb_spec m 0); [lia|].
    f_equal. lia.
  - symmetry. apply firstn_all2. lia.
Qed.

(** X13: what an accepted preview writes for the effects to run on is the
    decoded upload cut to its first [int(duration_limit * sample_rate)]
    samples, the product being that of floats, at the decoded sample rate:
    never more samples than that, and the whole of the upload when it has no
    more. *)
Theorem preview_is_trimmed `{Libraries} `{Files} (p : api_routes.PreviewForm)
    (path temp_input : string) (written decoded : list R) (sr rate : Z) :
  In (path, written, sr) (snd (api_routes.preview_voice_effects p)) ->
  NamedTemporaryFile (snd (os_path_splitext (api.filename (api_routes.fields p))))
    = Ok temp_input ->
  _load_audio temp_input = Ok (decoded, rate) ->
  (0 < rate)%Z ->
  let max_samples := py_int (fmul (api_routes.duration_limit p) (IZR rate)) in
  sr = rate
  /\ temp_preview = Ok path
  /\ (0 <= max_samples)%Z
  /\ written = firstn (Z.to_nat max_samples) decoded
  /\ (Z.of_nat (length written) <= max_samples)%Z
  /\ ((Z.of_nat (length decoded) <= max_samples)%Z -> written = decoded).
Proof.
  intros Hin Et El Hrate max_samples.
  unfold api_routes.preview_voice_effects in Hin.
  destruct (api_routes.validate_preview p) as [e|] eqn:Ev; [destruct Hin|].
  assert (Hm : (0 <= max_samples)%Z).
  { apply validate_preview_accepts in Ev as [_ Hd].
    apply py_int_nonneg, fmul_nonneg; [lra | apply IZR_le; lia]. }
  rewrite Et in Hin. unfold api_routes.preview_body in Hin.
  destruct (save_upload temp_input); [|destruct Hin].
  rewrite El in Hin. fold max_samples in Hin.
  rewrite (preview_cut decoded max_samples Hm) in Hin.
  destruct temp_preview as [name|] eqn:Ep; [|destruct Hin].
  assert (Hw : (path, written, sr) = (name, firstn (Z.to_nat max_samples) decoded, rate)).
  { destruct (sf_write name _ rate);
      [destruct (apply_effects _ _ _)|]; cbn in Hin; destruct Hin as [E|[]];
      now symmetry. }
  inversion Hw; subst. split; [reflexivity|]. split; [reflexivity|].
  split; [exact Hm|]. split; [reflexivity|]. split.
  - rewrite length_firstn. lia.
  - intros Hfit. apply firstn_all2. lia.
Qed.

(** A limit of 5.1 s at 48000 Hz is 244799 samples: the binary64 product
    lies just below 244800. *)
Lemma preview_max_samples_below : py_int (fmul 5.1 (IZR 48000)) = 244799%Z.
Proof.
  unfold fmul.
  float64_is (5.1) (2871044762448691 / 562949953421312) (2)%Z 5742089524897382%Z.
  float64_is (48000) (48000) (15)%Z 6597069766656000%Z.
  float64_is (2871044762448691 / 562949953421312 * (48000)) (8411263952486399 / 34359738368) (17)%Z 8411263952486399%Z.
  apply py_int_eq; lra.
Qed.

Lemma preview_is_trimmed_witness :
  repeat 0.5 (Z.to_nat 40000) = firstn (Z.to_nat 40000) (repeat 0.5 (Z.to_nat 40001))
  /\ (Z.of_nat (length (repeat 0.5%R (Z.to_nat 40000))) <= 40000)%Z.
Proof.
  assert (V : api_routes.validate_preview (preview_default 5) = None).
  { apply validate_preview_accepts. split; [|cbn; lra].
    unfold pipeline_spec.checked_order. repeat (constructor; [cbn; lra|]). constructor. }
  assert (Hi : py_int (fmul 5 (IZR 8000)) = 40000%Z).
  { unfold fmul.
    float64_is (5) (5) (2)%Z 5629499534213120%Z.
    float64_is (8000) (8000) (12)%Z 8796093022208000%Z.
    float64_is (5 * (8000)) (40000) (15)%Z 5497558138880000%Z.
    apply py_int_eq; lra. }
  assert (Hcut : firstn (Z.to_nat 40000) (repeat 0.5 (Z.to_nat 40001))
                 = repeat 0.5 (Z.to_nat 40000)) by (apply firstn_repeat_le; lia).
  destruct (@preview_is_trimmed long_upload plain_files (preview_default 5)
              "preview.wav" "upload"
              (repeat 0.5 (Z.to_nat 40000)) (repeat 0.5 (Z.to_nat 40001)) 8000 8000)
    as [_ [_ [_ [Hp [Hd _]]]]].
  - unfold api_routes.preview_voice_effects. rewrite V.
    cbn [api_routes.fields preview_default NamedTemporaryFile os_path_splitext
         long_upload snd form_pitch api.filename].
    unfold api_routes.preview_body.
    cbn [save_upload long_upload api_routes.duration_limit preview_default].
    change (@_load_audio long_upload ("upload" ++ EmptyString)%string)
      with (@Ok (list R * Z) (repeat 0.5 (Z.to_nat 40001), 8000%Z)).
    cbv iota beta. rewrite Hi, (preview_cut _ 40000) by lia. rewrite Hcut.
    cbn [temp_preview plain_files sf_write].
    destruct (apply_effects _ _ _); cbn [snd]; left; reflexivity.
  - reflexivity.
  - reflexivity.
  - lia.
  - cbv zeta in Hp, Hd. cbn [api_routes.duration_limit preview_default] in Hp, Hd.
    rewrite Hi in Hp, Hd. split; [exact Hp | exact Hd].
Defined.

(** ** The endpoint that describes a file *)

(** X14: the endpoint [get_audio_info] never answers 404: for a file that
    does not exist the error raised in its [try] block is caught by its own
    handler and answered as a 500; for a file that exists it never fails and
    hands on what the processor returns. *)
Theorem audio_info_never_404 `{Libraries} `{Files} (file_path : string) :
  match api_routes.get_audio_info file_path with
  | inl e => api.status_code e = 500%Z /\ path_exists file_path = false
  | inr info =>
      path_exists file_path = true /\ info = VoiceEffectsProcessor.get_audio_info file_path
  end.
Proof.
  unfold api_routes.get_audio_info, api_routes.get_audio_info_body.
  destruct (path_exists file_path); cbn; auto.
Qed.

(** ** Normalization at the end of the pipeline *)

Lemma normalize_within (w : list R) :
  Forall (fun x => Rabs x <= 0.95) (_normalize_audio w).
Proof.
  unfold _normalize_audio, normalize_body.
  destruct (np_max (np_abs w)) as [m|e] eqn:E.
  - pose proof (np_max_abs_bound w m E) as Hb.
    destruct (Rlt_dec 0 m) as [Hm|Hm]; cbn [try_except].
    + apply List.Forall_forall. intros y Hy. apply in_map_iff in Hy as [x [<- Hx]].
      rewrite List.Forall_forall in Hb. specialize (Hb x Hx).
      unfold Rdiv. rewrite !Rabs_mult, Rabs_inv.
      rewrite (Rabs_pos_eq m), (Rabs_pos_eq 0.95) by lra.
      assert (Rabs x * / m <= 1).
      { apply (Rmult_le_reg_r m); [lra|]. rewrite Rmult_assoc, Rinv_l by lra. lra. }
      pose proof (Rabs_pos x). nra.
    + pose proof (np_max_abs_not_pos w m E Hm) as Hs. unfold pipeline_spec.silent in Hs.
      apply List.Forall_forall. intros x Hx. rewrite List.Forall_forall in Hs.
      rewrite (Hs x Hx), Rabs_R0. lra.
  - destruct w; [constructor | discriminate E].
Qed.

(** X15: with normalize switched on, no sample of the output of the
    pipeline exceeds 0.95 in absolute value, whatever the input and whatever
    the stages before it did. *)
Theorem normalized_output_within_headroom `{Libraries} (w : list R) (sr : Z)
    (effects : gmap string pyval) :
  has_and effects "normalize" truthy = true ->
  Forall (fun x => Rabs x <= 0.95) (effects_chain w sr effects).
Proof.
  intros Hn. unfold effects_chain. cbv zeta. rewrite Hn. apply normalize_within.
Qed.

Lemma normalized_output_within_headroom_witness :
  Forall (fun x => Rabs x <= 0.95)
    (@effects_chain failing_stages [3; -7] 8000
       (<["echo" := PyBool true]> {["normalize" := PyBool true]})).
Proof.
  apply (@normalized_output_within_headroom failing_stages). reflexivity.
Defined.

(** ** The defaults of the form and of the pipeline *)

Lemma py_ne_same (x : R) : py_ne (PyFloat x) x = false.
Proof. unfold py_ne. cbn [py_float]. destruct (Req_dec_T x x); [reflexivity|contradiction]. Qed.

Lemma dict_get_effects_of (f : api.ApplyForm) :
  dict_get (api.effects_of f) "pitch_shift" (PyFloat 0) = PyFloat (api.pitch_shift f)
  /\ dict_get (api.effects_of f) "speed_change" (PyFloat 1) = PyFloat (api.speed_change f)
  /\ dict_get (api.effects_of f) "robot_intensity" (PyFloat 0.5)
     = PyFloat (api.robot_intensity f)
  /\ dict_get (api.effects_of f) "echo_delay" (PyFloat 0.3) = PyFloat (api.echo_delay f)
  /\ dict_get (api.effects_of f) "echo_decay" (PyFloat 0.5) = PyFloat (api.echo_decay f)
  /\ dict_get (api.effects_of f) "reverb_room_size" (PyFloat 0.5)
     = PyFloat (api.reverb_room_size f)
  /\ dict_get (api.effects_of f) "reverb_damping" (PyFloat 0.5)
     = PyFloat (api.reverb_damping f).
Proof.
  unfold dict_get, api.effects_of.
  repeat split; rewrite ?lookup_insert_ne by done; now rewrite lookup_insert_eq.
Qed.

Lemma py_float_default (effects : gmap string pyval) (k : string) (x y : R) :
  x = y ->
  py_float (dict_get effects k (PyFloat x)) = py_float (dict_get effects k (PyFloat y)).
Proof. now intros ->. Qed.

(** The primitives read the same parameters from a dictionary and from the
    form filled from it. *)
Lemma primitive_form `{Libraries} (filename : string) (effects : gmap string pyval)
    (sr : Z) (s : pipeline_spec.stage) (w : list R) :
  pipeline_spec.primitive (api.effects_of (api_routes.form_of_effects filename effects))
    sr s w
  = pipeline_spec.primitive effects sr s w.
Proof.
  destruct (dict_get_effects_of (api_routes.form_of_effects filename effects))
    as [E1 [E2 [E3 [E4 [E5 [E6 E7]]]]]].
  destruct s; cbn [pipeline_spec.primitive];
    rewrite ?E1, ?E2, ?E3, ?E4, ?E5, ?E6, ?E7; cbn [py_float];
    unfold api_routes.form_of_effects;
    cbn [api.pitch_shift api.speed_change api.robot_intensity api.echo_delay
         api.echo_decay api.reverb_room_size api.reverb_damping];
    try reflexivity.
  f_equal. apply py_float_default. lra.
Qed.

(** But for normalize, a stage is enabled by the form exactly when the
    dictionary enables it. *)
Lemma enabled_form (filename : string) (effects : gmap string pyval)
    (s : pipeline_spec.stage) :
  pipeline_spec.enabled (api.effects_of (api_routes.form_of_effects filename effects)) s
  = match s with
    | pipeline_spec.Normalize =>
        match effects !! "normalize" with
        | Some v => truthy v
        | None => true
        end
    | _ => pipeline_spec.enabled effects s
    end.
Proof.
  rewrite enabled_effects_of. unfold api_routes.form_of_effects, api_routes.bool_field.
  destruct s; cbn [api.pitch_shift api.speed_change api.robot_voice api.echo api.reverb
                   api.normalize pipeline_spec.enabled];
    unfold has_and, dict_get.
  - destruct (effects !! "pitch_shift"); [reflexivity | apply py_ne_same].
  - destruct (effects !! "speed_change"); [reflexivity|].
    unfold py_ne. cbn [py_float]. destruct (Req_dec_T 1.0 1); [reflexivity|lra].
  - now destruct (effects !! "robot_voice").
  - now destruct (effects !! "echo").
  - now destruct (effects !! "reverb").
  - now destruct (effects !! "normalize").
Qed.

(** X16: sending a dictionary of effects through the form of [/apply]
    changes nothing of what the pipeline does with it, as long as the
    dictionary says whether to normalize: for every parameter the default of
    the form is the default of the pipeline.  Only for normalize do the two
    differ: a dictionary silent about it is normalized through the form, and
    not by the pipeline alone. *)
Theorem form_defaults_agree `{Libraries} (filename : string)
    (effects : gmap string pyval) (w : list R) (sr : Z) :
  effects_chain w sr (api.effects_of (api_routes.form_of_effects filename effects))
  = match effects !! "normalize" with
    | Some _ => effects_chain w sr effects
    | None => _normalize_audio (effects_chain w sr effects)
    end.
Proof.
  rewrite !effects_chain_compose. unfold pipeline_spec.canonical_order.
  rewrite !compose_filter_cons, !enabled_form, !primitive_form.
  unfold pipeline_spec.compose. cbn [List.filter fold_left].
  match goal with
  | |- context [pipeline_spec.primitive effects sr pipeline_spec.Normalize ?a] =>
      generalize a
  end.
  intros a. cbn [pipeline_spec.enabled pipeline_spec.primitive]. unfold has_and.
  destruct (effects !! "normalize"); reflexivity.
Qed.

(** ** The presets *)

Lemma validate_accepts (f : api.ApplyForm) :
  api.filename f <> EmptyString ->
  Forall (pipeline_spec.in_range f) pipeline_spec.checked_order ->
  api.is_supported_format (api.output_format f) = true ->
  api.validate f = None.
Proof.
  intros Hname Hall Hfmt. unfold api.validate.
  destruct (String.eqb_spec (api.filename f) EmptyString); [contradiction|].
  unfold pipeline_spec.checked_order in Hall.
  repeat match goal with
         | H : Forall _ (_ :: _) |- _ => inversion H; clear H; subst
         end.
  cbn [pipeline_spec.in_range] in *.
  rewrite !(proj2 (between_spec _ _ _)) by assumption. now rewrite Hfmt.
Qed.

Ltac eval_lookup :=
  repeat first [rewrite lookup_insert_eq | rewrite lookup_insert_ne by discriminate];
  rewrite ?lookup_empty.

(** X17: every preset can be sent to [/apply] as it is: with the fields it
    does not set left at their defaults, each of its values lies in the range
    the endpoint checks, and every preset switches normalize on. *)
Theorem presets_pass_validation (key filename : string) (preset : api_routes.Preset) :
  In (key, preset) api_routes.get_effect_presets ->
  filename <> EmptyString ->
  api.validate (api_routes.form_of_effects filename (api_routes.preset_effects preset))
  = None
  /\ has_and (api_routes.preset_effects preset) "normalize" truthy = true.
Proof.
  intros Hin Hname. unfold api_routes.get_effect_presets in Hin.
  repeat (destruct Hin as [Hin|Hin]; [inversion Hin; subst key preset; clear Hin|]);
    [..|destruct Hin];
    cbn [api_routes.preset_effects];
    (split;
     [apply validate_accepts; [exact Hname| |reflexivity];
      unfold pipeline_spec.checked_order;
      repeat (constructor;
              [cbn [pipeline_spec.in_range]; unfold api_routes.form_of_effects;
               cbn [api.pitch_shift api.speed_change api.robot_intensity api.echo_delay
                    api.echo_decay api.reverb_room_size api.reverb_damping];
               unfold dict_get; eval_lookup; cbn [py_float]; lra|]);
      constructor
     |unfold has_and; eval_lookup; reflexivity]).
Qed.

Lemma presets_pass_validation_witness :
  api.validate
    (api_routes.form_of_effects "voice.wav"
       (<["pitch_shift" := PyFloat 8]>
        (<["speed_change" := PyFloat 1.3]>
        (<["normalize" := PyBool true]> ∅))))
  = None.
Proof.
  destruct (presets_pass_validation "chipmunk" "voice.wav"
              (api_routes.mkPreset "Chipmunk Voice"
                 "High-pitched, fast voice like a chipmunk"
                 (<["pitch_shift" := PyFloat 8]>
                  (<["speed_change" := PyFloat 1.3]>
                  (<["normalize" := PyBool true]> ∅))))) as [V _].
  - left. reflexivity.
  - discriminate.
  - exact V.
Defined.

(** ** The answers of the apply endpoint *)

Lemma validate_status (f : api.ApplyForm) (e : api.HTTPException) :
  api.validate f = Some e -> api.status_code e = 400%Z.
Proof.
  unfold api.validate.
  destruct (String.eqb (api.filename f) EmptyString); [intros E; now inversion E|].
  repeat match goal with
         | |- context [api.between ?a ?b ?c] =>
             destruct (api.between a b c); cbn [negb]; [|intros E; now inversion E]
         end.
  destruct (api.is_supported_format (api.output_format f)); cbn [negb];
    [discriminate | intros E; now inversion E].
Qed.

Lemma supported_format_cases (s : string) :
  api.is_supported_format s = true -> s = "wav" \/ s = "mp3" \/ s = "ogg" \/ s = "flac".
Proof.
  unfold api.is_supported_format.
  destruct (decide (s ∈ ["wav"; "mp3"; "ogg"; "flac"])) as [Hin|]; [|discriminate].
  intros _. repeat (apply elem_of_cons in Hin as [->|Hin]; [auto|]).
  now apply elem_of_nil in Hin.
Qed.

Lemma str_cleanup_on_error `{Libraries} (temp_input : string) (e : exn) :
  str (api.cleanup_on_error temp_input e)
  = match unlink_if_exists temp_input with
    | Raise e' => str e'
    | Ok _ => str e
    end.
Proof.
  unfold api.cleanup_on_error. destruct (unlink_if_exists temp_input);
    [reflexivity | apply str_raised_during].
Qed.

(** X18: [/apply] answers 400 exactly for the requests its validation turns
    down, and 500 only when the temporary file cannot be created, the upload
    cannot be copied to it or decoded, or the result cannot be saved: a
    failing effect never makes the request fail.  The 500 quotes the
    exception of the step that failed, or that of [os.unlink] when the
    removal of the temporary file fails in its turn.  A successful answer
    carries the saved file, and its media type is audio/wav for the format
    wav only. *)
Theorem apply_endpoint_answers `{Libraries} (f : api.ApplyForm) :
  let suffix := snd (os_path_splitext (api.filename f)) in
  let saved w sr :=
    _save_processed_audio (effects_chain w sr (api.effects_of f)) sr (api.output_format f) in
  match api.apply_voice_effects f with
  | inl e =>
      (api.status_code e = 400%Z /\ api.validate f = Some e)
      \/ (api.status_code e = 500%Z /\ api.validate f = None
          /\ ((exists ex, NamedTemporaryFile suffix = Raise ex
                          /\ api.detail e = String.append "Failed to process audio: " (str ex))
              \/ exists temp_input ex,
                   NamedTemporaryFile suffix = Ok temp_input
                   /\ (save_upload temp_input = Raise ex
                       \/ (save_upload temp_input = Ok tt
                           /\ (_load_audio temp_input = Raise ex
                               \/ exists w sr, _load_audio temp_input = Ok (w, sr)
                                               /\ saved w sr = Raise ex)))
                   /\ api.detail e
                      = String.append "Failed to process audio: "
                          match unlink_if_exists temp_input with
                          | Raise ex' => str ex'
                          | Ok _ => str ex
                          end))
  | inr response =>
      api.validate f = None
      /\ (exists temp_input w sr,
            NamedTemporaryFile suffix = Ok temp_input
            /\ save_upload temp_input = Ok tt
            /\ _load_audio temp_input = Ok (w, sr)
            /\ saved w sr = Ok (api.path response))
      /\ (api.media_type response = "audio/wav" <-> api.output_format f = "wav")
  end.
Proof.
  cbv zeta. unfold api.apply_voice_effects.
  destruct (api.validate f) as [e|] eqn:Ev.
  - left. split; [now apply validate_status in Ev | reflexivity].
  - destruct (NamedTemporaryFile _) as [temp_input|ex] eqn:Et.
    2:{ right. split; [reflexivity|]. split; [reflexivity|]. left. exists ex.
        split; reflexivity. }
    unfold api.apply_body, apply_effects.
    destruct (save_upload temp_input) as [[]|ex] eqn:Eu.
    2:{ right. split; [reflexivity|]. split; [reflexivity|]. right.
        exists temp_input, ex. split; [reflexivity|]. split; [now left|].
        cbn [api.failed_to_process api.detail]. now rewrite str_cleanup_on_error. }
    destruct (_load_audio _) as [[w sr]|ex] eqn:El.
    + destruct (_save_processed_audio _ _ _) as [output_path|ex] eqn:Es.
      * split; [reflexivity|]. split; [exists temp_input, w, sr; auto|].
        cbn [api.media_type].
        assert (Hf : api.is_supported_format (api.output_format f) = true).
        { unfold api.validate in Ev.
          destruct (String.eqb (api.filename f) EmptyString); [discriminate|].
          repeat match type of Ev with
                 | context [api.between ?a ?b ?c] =>
                     destruct (api.between a b c); cbn [negb] in Ev; [|discriminate]
                 end.
          destruct (api.is_supported_format (api.output_format f));
            [reflexivity | discriminate]. }
        apply supported_format_cases in Hf as [ -> | [ -> | [ -> | -> ] ] ];
          cbn; split; intros E; try reflexivity; discriminate E.
      * right. split; [reflexivity|]. split; [reflexivity|]. right.
        exists temp_input, ex. split; [reflexivity|].
        split; [right; split; [exact Eu|]; right; exists w, sr; auto|].
        cbn [api.failed_to_process api.detail]. now rewrite str_cleanup_on_error.
    + right. split; [reflexivity|]. split; [reflexivity|]. right.
      exists temp_input, ex. split; [reflexivity|].
      split; [right; split; [exact Eu|]; now left|].
      cbn [api.failed_to_process api.detail]. now rewrite str_cleanup_on_error.
Qed.

(** ** Merging files *)

Lemma merge_loop_concat `{Libraries} (sample_rate : Z) (paths : list string)
    (audios : list (list R)) :
  Forall2 (fun path audio =>
             exists sr, librosa_load path (Some sample_rate) true = Ok (audio, sr))
          paths audios ->
  forall combined : option (list R),
  audio_processing.merge_loop sample_rate paths combined
  = Ok (match paths with
        | [] => combined
        | _ => Some (match combined with None => [] | Some c => c end ++ concat audios)
        end).
Proof.
  induction 1 as [|path audio paths audios [sr El] Hrest IH]; intros combined;
    [reflexivity|].
  cbn [audio_processing.merge_loop concat]. rewrite El, IH.
  destruct paths as [|path' paths].
  - inversion Hrest; subst. cbn [concat]. rewrite app_nil_r.
    now destruct combined.
  - destruct combined; [now rewrite <- app_assoc | reflexivity].
Qed.

Lemma merge_loop_fails `{Libraries} (sample_rate : Z) (paths : list string) :
  Exists (fun path => exists e, librosa_load path (Some sample_rate) true = Raise e) paths ->
  forall combined, exists e,
    audio_processing.merge_loop sample_rate paths combined = Raise e.
Proof.
  induction 1 as [path rest [e El]|path rest _ IH]; intros combined;
    cbn [audio_processing.merge_loop].
  - rewrite El. eauto.
  - destruct (librosa_load path (Some sample_rate) true) as [[audio sr]|e]; [apply IH|eauto].
Qed.

(** X19: [merge_audio_files] hands to [sf.write], at the sample rate of the
    processor, the loaded waveforms joined end to end in the order of the
    paths; when one file cannot be loaded, or no path is given, it writes
    nothing, and in every case it returns the output path, as if it had
    succeeded. *)
Theorem merge_audio_files_joins `{Libraries} `{Files} (sample_rate : Z)
    (paths : list string) (output_path : string) :
  fst (audio_processing.merge_audio_files sample_rate paths output_path) = output_path
  /\ (forall audios,
        paths <> [] ->
        Forall2 (fun path audio =>
                   exists sr, librosa_load path (Some sample_rate) true = Ok (audio, sr))
                paths audios ->
        snd (audio_processing.merge_audio_files sample_rate paths output_path)
        = [(output_path, concat audios, sample_rate)])
  /\ (paths = []
      \/ Exists (fun path => exists e, librosa_load path (Some sample_rate) true = Raise e)
           paths ->
      snd (audio_processing.merge_audio_files sample_rate paths output_path) = []).
Proof.
  unfold audio_processing.merge_audio_files. split; [|split].
  - destruct (audio_processing.merge_loop sample_rate paths None) as [[c|]|e];
      [destruct (sf_write _ _ _)| |]; reflexivity.
  - intros audios Hne Hall. rewrite (merge_loop_concat sample_rate paths audios Hall).
    destruct paths; [contradiction|]. cbn [app].
    destruct (sf_write _ _ _); reflexivity.
  - intros [->|Hex]; [reflexivity|].
    destruct (merge_loop_fails sample_rate paths Hex None) as [e E]. now rewrite E.
Qed.

(** ** Spectral subtraction *)

Lemma np_sum_nonneg (a : list R) : Forall (fun x => 0 <= x) a -> 0 <= np_sum a.
Proof. unfold np_sum. induction 1; cbn; lra. Qed.

Lemma np_mean_nonneg (a : list R) : Forall (fun x => 0 <= x) a -> 0 <= np_mean a.
Proof.
  intros Ha. unfold np_mean. destruct a as [|x a].
  - cbn. unfold Rdiv. rewrite Rmult_0_l. lra.
  - apply Rmult_le_pos; [now apply np_sum_nonneg|].
    apply Rlt_le, Rinv_0_lt_compat, lt_0_INR. cbn. lia.
Qed.

Lemma Forall_firstn {A : Type} (P : A -> Prop) (k : nat) (l : list A) :
  Forall P l -> Forall P (firstn k l).
Proof.
  intros Hl. revert k. induction Hl as [|x l Hx _ IH]; intros [|k]; cbn;
    constructor; auto.
Qed.

(** X20: on magnitudes that are not negative, and for [alpha] at least 0,
    spectral subtraction keeps the shape of the spectrogram, never raises a
    magnitude and never lowers it below a tenth of its value. *)
Theorem spectral_subtraction_floor (alpha : R) (magnitude : list (list R)) :
  0 <= alpha ->
  Forall (Forall (fun m => 0 <= m)) magnitude ->
  Forall2 (Forall2 (fun m enhanced => 0.1 * m <= enhanced <= m))
    magnitude (audio_processing.enhanced_magnitude alpha magnitude).
Proof.
  intros Ha Hall. unfold audio_processing.enhanced_magnitude.
  induction Hall as [|bin rest Hbin _ IH]; cbn [map]; constructor; [|exact IH].
  unfold audio_processing.subtract_bin.
  assert (Hn : 0 <= np_mean (firstn 10 bin)).
  { apply np_mean_nonneg. now apply Forall_firstn. }
  set (noise_est := np_mean (firstn 10 bin)) in *. clearbody noise_est.
  induction Hbin as [|m bin' Hm _ IHb]; cbn [map]; constructor; [|exact IHb].
  split; [apply Rmax_r|]. apply Rmax_lub; nra.
Qed.

Lemma spectral_subtraction_floor_witness :
  Forall2 (Forall2 (fun m enhanced => 0.1 * m <= enhanced <= m))
    [[1; 3]; [0; 2]] (audio_processing.enhanced_magnitude 2.0 [[1; 3]; [0; 2]]).
Proof.
  apply spectral_subtraction_floor; [lra|].
  repeat (constructor; [repeat (constructor; [lra|]); constructor|]). constructor.
Defined.

(** ** Samples decoded by the fallback *)

Lemma Forall_map_bound (P : Z -> Prop) (Q : R -> Prop) (f : Z -> R) (l : list Z) :
  (forall s, P s -> Q (f s)) -> Forall P l -> Forall Q (map f l).
Proof. intros Hf. induction 1; cbn; constructor; auto. Qed.

(** X21: when librosa fails and pydub succeeds, [_load_audio] returns one
    sample per sample of the mono segment, at its frame rate; 16-bit samples
    land in [-1, 1); 32-bit samples, rounded to float32 before the division,
    land in [-1, 1], and the largest of them on 1 itself; 8-bit samples are
    divided by 2^31 like 32-bit ones and come out below 2^-24 in absolute
    value. *)
Theorem fallback_decode_bounds `{Libraries} (file_path : string) (e1 : exn)
    (seg mono : AudioSegment) :
  librosa_load file_path None true = Raise e1 ->
  AudioSegment_from_file file_path = Ok seg ->
  set_channels seg 1 = Ok mono ->
  exists w,
    _load_audio file_path = Ok (w, frame_rate mono)
    /\ length w = length (get_array_of_samples mono)
    /\ (sample_width mono = 2%Z ->
        Forall (fun s => (-32768 <= s <= 32767)%Z) (get_array_of_samples mono) ->
        Forall (fun x => -1 <= x < 1) w)
    /\ (sample_width mono = 4%Z ->
        Forall (fun s => (-2147483648 <= s <= 2147483647)%Z) (get_array_of_samples mono) ->
        Forall (fun x => -1 <= x <= 1) w
        /\ forall k, nth k (get_array_of_samples mono) 0%Z = 2147483647%Z -> nth k w 0 = 1)
    /\ (sample_width mono = 1%Z ->
        Forall (fun s => (-128 <= s <= 127)%Z) (get_array_of_samples mono) ->
        Forall (fun x => Rabs x <= 1 / 16777216) w).
Proof.
  intros E1 E2 E3. unfold _load_audio. rewrite E1, E2, E3.
  eexists. split; [reflexivity|]. split; [|split; [|split]].
  - destruct (sample_width mono =? 2)%Z; apply length_map.
  - intros Hw Hs. rewrite Hw. cbn [Z.eqb Pos.eqb].
    eapply Forall_map_bound; [|exact Hs]. cbn beta. intros s [Lo Hi].
    rewrite float32_IZR by lia.
    apply IZR_le in Lo, Hi. split.
    + apply (Rmult_le_reg_r 32768); [lra|]. unfold Rdiv.
      rewrite Rmult_assoc, Rinv_l by lra. lra.
    + apply (Rmult_lt_reg_r 32768); [lra|]. unfold Rdiv.
      rewrite Rmult_assoc, Rinv_l by lra. lra.
  - intros Hw Hs. rewrite Hw. cbn [Z.eqb Pos.eqb]. split.
    + eapply Forall_map_bound; [|exact Hs]. cbn beta. intros s [Lo Hi].
      apply IZR_le in Lo, Hi.
      assert (Hb : Rabs (float32 (IZR s)) <= powerRZ 2 31).
      { unfold float32. apply round_float_abs_le; [lia | lia |].
        rewrite powerRZ_2_nonneg_exp by lia. apply Rabs_le.
        change (2 ^ 31)%Z with 2147483648%Z. lra. }
      rewrite powerRZ_2_nonneg_exp in Hb by lia. change (2 ^ 31)%Z with 2147483648%Z in Hb.
      assert (- 2147483648 <= float32 (IZR s) <= 2147483648)
        by (unfold Rabs in Hb; destruct (Rcase_abs (float32 (IZR s))); lra).
      split.
      * apply (Rmult_le_reg_r 2147483648); [lra|]. unfold Rdiv.
        rewrite Rmult_assoc, Rinv_l by lra. lra.
      * apply (Rmult_le_reg_r 2147483648); [lra|]. unfold Rdiv.
        rewrite Rmult_assoc, Rinv_l by lra. lra.
    + intros k Hk.
      destruct (Nat.lt_ge_cases k (length (get_array_of_samples mono))) as [Lt|Ge];
        [|rewrite nth_overflow in Hk by exact Ge; discriminate Hk].
      rewrite (nth_indep _ 0 ((fun s => float32 (IZR s) / 2147483648) 0%Z))
        by (now rewrite length_map).
      rewrite (map_nth (fun s => float32 (IZR s) / 2147483648)), Hk.
      replace (float32 2147483647) with 2147483648; [lra|].
      symmetry. unfold float32. float_eval 30%Z 16777216%Z.
  - intros Hw Hs. rewrite Hw. cbn [Z.eqb Pos.eqb].
    eapply Forall_map_bound; [|exact Hs]. cbn beta. intros s [Lo Hi].
    rewrite float32_IZR by lia.
    apply IZR_le in Lo, Hi. unfold Rdiv.
    rewrite Rabs_mult, (Rabs_pos_eq (/ 2147483648))
      by (apply Rlt_le, Rinv_0_lt_compat; lra).
    assert (Rabs (IZR s) <= 128) by (apply Rabs_le; lra).
    apply (Rmult_le_reg_r 2147483648); [lra|].
    rewrite Rmult_assoc, Rinv_l by lra. lra.
Qed.

Lemma fallback_decode_bounds_witness :
  exists w,
    @_load_audio (pydub_reads wide wide) "voice.m4a" = Ok (w, 8000%Z)
    /\ Forall (fun x => -1 <= x <= 1) w
    /\ nth 0 w 0 = 1.
Proof.
  destruct (@fallback_decode_bounds (pydub_reads wide wide) "voice.m4a"
              (Exception "primary" None) wide wide eq_refl eq_refl eq_refl)
    as [w [E [_ [_ [H32 _]]]]].
  destruct H32 as [Hall Hmax]; [reflexivity | |].
  - unfold wide. cbn [get_array_of_samples]. repeat (constructor; [lia|]). constructor.
  - exists w. split; [exact E|]. split; [exact Hall|]. apply Hmax. reflexivity.
Defined.

(** ** Stereo in [load_audio_safe] *)

Lemma stereo_mean_pairs (a : list R) :
  Nat.even (length a) = true ->
  exists w,
    WindowsAudioProcessor.stereo_mean a = Ok w
    /\ (2 * length w = length a)%nat
    /\ forall k, (k < length w)%nat ->
         nth k w 0 = (nth (2 * k) a 0 + nth (2 * k + 1) a 0) / 2.
Proof.
  induction a as [a IH] using (induction_ltof1 _ (@length R)). unfold ltof in IH.
  destruct a as [|l [|r rest]]; intros Hev.
  - exists []. split; [reflexivity|]. split; [reflexivity|]. intros k Hk. cbn in Hk. lia.
  - discriminate Hev.
  - destruct (IH rest) as [w [E [Hlen Hnth]]]; [cbn; lia | exact Hev |].
    exists ((l + r) / 2 :: w). cbn [WindowsAudioProcessor.stereo_mean]. rewrite E.
    split; [reflexivity|]. split; [cbn [length]; lia|].
    intros [|k] Hk; [reflexivity|]. cbn [length] in Hk.
    replace (2 * S k)%nat with (S (S (2 * k))) by lia.
    replace (S (S (2 * k)) + 1)%nat with (S (S (2 * k + 1))) by lia.
    cbn [nth]. apply Hnth. lia.
Qed.

Lemma stereo_mean_odd (a : list R) :
  Nat.even (length a) = false -> exists e, WindowsAudioProcessor.stereo_mean a = Raise e.
Proof.
  induction a as [a IH] using (induction_ltof1 _ (@length R)). unfold ltof in IH.
  destruct a as [|l [|r rest]]; intros Hod.
  - discriminate Hod.
  - cbn. eauto.
  - destruct (IH rest) as [e E]; [cbn; lia | exact Hod |].
    cbn [WindowsAudioProcessor.stereo_mean]. rewrite E. eauto.
Qed.

Lemma prefix_append (s t : string) : String.prefix s (String.append s t) = true.
Proof.
  induction s as [|c s IH]; [now destruct t|].
  change (String.append (String c s) t) with (String c (String.append s t)).
  cbn [String.prefix]. destruct (Ascii.ascii_dec c c); [exact IH|contradiction].
Qed.

(** X22: on its pydub path, taken at the native rate, [load_audio_safe]
    averages the two channels of a stereo segment pair by pair, halving the
    number of samples; it fails, with an error that starts with
    [Cannot load audio file: ], when that number is odd; and a segment with
    any other number of channels is not mixed down: all its samples are
    returned in one array. *)
Theorem load_audio_safe_channels `{Libraries} (audio_path : string) (e1 : exn)
    (seg : AudioSegment) :
  librosa_load audio_path None true = Raise e1 ->
  AudioSegment_from_file audio_path = Ok seg ->
  let raw := map (fun s => float32 (IZR s)) (get_array_of_samples seg) in
  let scaled :=
    if (sample_width seg =? 2)%Z then map (fun x => x / 32768) raw
    else if (sample_width seg =? 4)%Z then map (fun x => x / 2147483648) raw
    else raw in
  (channels seg = 2%Z -> Nat.even (length (get_array_of_samples seg)) = true ->
   exists w,
     WindowsAudioProcessor.load_audio_safe audio_path None = Ok (w, frame_rate seg)
     /\ (2 * length w = length (get_array_of_samples seg))%nat
     /\ forall k, (k < length w)%nat ->
          nth k w 0 = (nth (2 * k) scaled 0 + nth (2 * k + 1) scaled 0) / 2)
  /\ (channels seg = 2%Z -> Nat.even (length (get_array_of_samples seg)) = false ->
      exists e,
        WindowsAudioProcessor.load_audio_safe audio_path None = Raise e
        /\ String.prefix "Cannot load audio file: " (str e) = true)
  /\ (channels seg <> 2%Z ->
      WindowsAudioProcessor.load_audio_safe audio_path None = Ok (scaled, frame_rate seg)
      /\ length scaled = length (get_array_of_samples seg)).
Proof.
  intros E1 E2 raw scaled.
  assert (Hlen : length scaled = length (get_array_of_samples seg)).
  { unfold scaled, raw. destruct (sample_width seg =? 2)%Z;
      [|destruct (sample_width seg =? 4)%Z]; now rewrite ?length_map. }
  unfold WindowsAudioProcessor.load_audio_safe, WindowsAudioProcessor.pydub_path.
  rewrite E1, E2. fold raw. fold scaled.
  split; [|split].
  - intros Hc Hev. rewrite Hc. cbn [Z.eqb Pos.eqb].
    destruct (stereo_mean_pairs scaled) as [w [E [Hw Hnth]]]; [now rewrite Hlen|].
    rewrite E. exists w. split; [reflexivity|]. split; [lia | exact Hnth].
  - intros Hc Hod. rewrite Hc. cbn [Z.eqb Pos.eqb].
    destruct (stereo_mean_odd scaled) as [e E]; [now rewrite Hlen|].
    rewrite E. eexists. split; [reflexivity|]. cbn [str].
    rewrite str_raised_during. apply prefix_append.
  - intros Hc. destruct (Z.eqb_spec (channels seg) 2); [contradiction|].
    split; [reflexivity | exact Hlen].
Qed.

Lemma load_audio_safe_channels_witness :
  (exists w,
     @WindowsAudioProcessor.load_audio_safe (pydub_reads stereo stereo) "voice.m4a" None
     = Ok (w, 8000%Z)
     /\ length w = 2%nat /\ nth 0 w 0 = - 0.25 /\ nth 1 w 0 = 0.25)
  /\ (exists e,
        @WindowsAudioProcessor.load_audio_safe (pydub_reads stereo_cut stereo_cut)
          "voice.m4a" None = Raise e
        /\ String.prefix "Cannot load audio file: " (str e) = true)
  /\ @WindowsAudioProcessor.load_audio_safe (pydub_reads surround surround) "voice.m4a" None
     = Ok ([0.5; -1; 0; 0.25; 0.25; 0], 8000%Z).
Proof.
  split; [|split].
  - destruct (@load_audio_safe_channels (pydub_reads stereo stereo) "voice.m4a"
                (Exception "primary" None) stereo eq_refl eq_refl) as [Heven _].
    destruct Heven as [w [E [Hlen Hnth]]]; [reflexivity | reflexivity |].
    cbn [stereo get_array_of_samples length] in Hlen.
    exists w. split; [exact E|]. split; [lia|].
    split; [rewrite (Hnth 0%nat) by lia | rewrite (Hnth 1%nat) by lia];
      cbn [stereo sample_width get_array_of_samples Z.eqb Pos.eqb map nth Nat.mul Nat.add];
      rewrite !float32_IZR by lia; lra.
  - destruct (@load_audio_safe_channels (pydub_reads stereo_cut stereo_cut) "voice.m4a"
                (Exception "primary" None) stereo_cut eq_refl eq_refl) as [_ [Hodd _]].
    apply Hodd; reflexivity.
  - destruct (@load_audio_safe_channels (pydub_reads surround surround) "voice.m4a"
                (Exception "primary" None) surround eq_refl eq_refl) as [_ [_ Hother]].
    destruct Hother as [E _]; [discriminate|]. rewrite E.
    cbn [surround sample_width get_array_of_samples frame_rate Z.eqb Pos.eqb map].
    rewrite !float32_IZR by lia. do 2 f_equal. repeat f_equal; lra.
Defined.
